(** * vscode-pddl: the PDDL workspace model and the problem parser

    A shallow embedding of [common/src/PddlWorkspace.ts] and
    [common/src/PddlProblemParser.ts].

    Conventions of the embedding:
    - a JavaScript [Map] is an insertion-ordered association list ([JsMap]);
    - a [FileInfo] object is identified by its [fileUri] (the workspace keeps
      every object in the slot of its own URI, see [wellFormed]); mutating an
      object is written as an update of that slot;
    - [EventEmitter.emit] appends to the log [emitted] of the workspace;
    - an [async] method is run to completion before the next one starts;
    - strings are byte strings; [toLowerCase] and [\s] act on ASCII;
    - file versions are integers. *)

From Stdlib Require Import List String Ascii ZArith Bool Lia.
Import ListNotations.
Local Open Scope string_scope.
Set Warnings "-register-all".

(* ================================================================== *)
(** * JavaScript [Map] with string keys *)
(* ================================================================== *)

Module JsMap.

Section WithValues.
Context {V : Type}.

Definition t := list (string * V).

Definition empty : t := [].

Fixpoint get (m : t) (k : string) : option V :=
  match m with
  | [] => None
  | (k', v) :: r => if String.eqb k' k then Some v else get r k
  end.

Definition has (m : t) (k : string) : bool :=
  match get m k with Some _ => true | None => false end.

(** [set] on a key already present keeps its position. *)
Fixpoint set (m : t) (k : string) (v : V) : t :=
  match m with
  | [] => [(k, v)]
  | (k', v') :: r =>
      if String.eqb k' k then (k', v) :: r else (k', v') :: set r k v
  end.

Definition delete (m : t) (k : string) : t :=
  filter (fun kv => negb (String.eqb (fst kv) k)) m.

Definition keys (m : t) : list string := map fst m.

Definition values (m : t) : list V := map snd m.

(** In-place mutation of the object stored under [k], if any. *)
Definition adjust (f : V -> V) (k : string) (m : t) : t :=
  map (fun kv => if String.eqb (fst kv) k then (fst kv, f (snd kv)) else kv) m.

End WithValues.

Arguments t : clear implicits.

End JsMap.

(* ================================================================== *)
(** * Strings *)
(* ================================================================== *)

Definition isUpper (c : ascii) : bool :=
  let n := nat_of_ascii c in (65 <=? n)%nat && (n <=? 90)%nat.

Definition lowerAscii (c : ascii) : ascii :=
  if isUpper c then ascii_of_nat (nat_of_ascii c + 32) else c.

Fixpoint toLowerCase (s : string) : string :=
  match s with
  | EmptyString => EmptyString
  | String c r => String (lowerAscii c) (toLowerCase r)
  end.

(** [includes] of a string array. *)
Definition includes (l : list string) (x : string) : bool :=
  existsb (String.eqb x) l.

(** PddlWorkspace.ts, [lowerCaseEquals]; [None] is [undefined]/[null]. *)
Definition lowerCaseEquals (first second : option string) : bool :=
  match first with
  | None => match second with None => true | Some _ => false end
  | Some f =>
      match second with
      | None => false
      | Some s => String.eqb (toLowerCase f) (toLowerCase s)
      end
  end.

(* ================================================================== *)
(** * FileInfo *)
(* ================================================================== *)

Inductive PddlLanguage := PDDL | PLAN | HAPPENINGS.

(** Modelled from the spec: [FileStatus] of FileInfo.ts, which the spec gives
    as status in {Dirty, Parsed}. *)
Inductive FileStatus := Parsed | Dirty.

(** Modelled from the spec: the variants of FileInfo (DomainInfo, ProblemInfo,
    PlanInfo, HappeningsInfo, UnknownFileInfo) with the names the workspace
    reads from them. *)
Inductive FileModel :=
| Domain (name : string)
| Problem (name domainName : string)
| Plan (problemName domainName : string)
| Happenings (problemName domainName : string)
| Unknown.

(** Modelled from the spec: the FileInfo class of FileInfo.ts:
    {fileUri, version, language, status, text} and its variant. *)
Record FileInfo := mkFileInfo {
  fileUri : string;
  getVersion : Z;
  getLanguage : PddlLanguage;
  getStatus : FileStatus;
  getText : string;
  model : FileModel
}.

Definition isDomain (f : FileInfo) : bool :=
  match model f with Domain _ => true | _ => false end.

Definition isProblem (f : FileInfo) : bool :=
  match model f with Problem _ _ => true | _ => false end.

Definition isPlan (f : FileInfo) : bool :=
  match model f with Plan _ _ => true | _ => false end.

Definition isHappenings (f : FileInfo) : bool :=
  match model f with Happenings _ _ => true | _ => false end.

(** Property reads after the TypeScript casts [<ProblemInfo>], [<DomainInfo>]
    and [<PlanInfo>]: a property the object does not have is [undefined]. *)
Definition name (f : FileInfo) : option string :=
  match model f with
  | Domain n => Some n
  | Problem n _ => Some n
  | _ => None
  end.

Definition domainName (f : FileInfo) : option string :=
  match model f with
  | Problem _ d => Some d
  | Plan _ d => Some d
  | Happenings _ d => Some d
  | _ => None
  end.

Definition problemName (f : FileInfo) : option string :=
  match model f with
  | Plan p _ => Some p
  | Happenings p _ => Some p
  | _ => None
  end.

Definition setStatus (st : FileStatus) (f : FileInfo) : FileInfo :=
  mkFileInfo (fileUri f) (getVersion f) (getLanguage f) st (getText f) (model f).

(** Modelled from the spec: [FileInfo.update] of FileInfo.ts. A text update
    with a strictly greater version sets the file back to Dirty; an update with
    a version not greater is a no-op, unless forced. Returns whether the file
    was updated. *)
Definition update (f : FileInfo) (fileVersion : Z) (fileText : string)
    (force : bool) : bool * FileInfo :=
  let isNewerVersion := (getVersion f <? fileVersion)%Z || force in
  if isNewerVersion
  then (true, mkFileInfo (fileUri f) fileVersion (getLanguage f) Dirty fileText (model f))
  else (false, f).

(* ================================================================== *)
(** * What the workspace imports *)
(* ================================================================== *)

(** The functions PddlWorkspace.ts calls and does not define:
    - [uriScheme uri] is [URI.parse(uri).scheme] (vscode-uri);
    - [fsDirname uri] is [dirname(Util.fsPath(uri))];
    - [tryDomain], [tryProblem], [parsePlan] and [parseHappenings] are the
      methods of [Parser] (parser.ts), reduced to the names the workspace
      reads from their results. *)
Class Imports := {
  uriScheme : string -> string;
  fsDirname : string -> string;
  tryDomain : string -> Z -> string -> option string;
  tryProblem : string -> Z -> string -> option (string * string);
  parsePlan : string -> Z -> string -> string * string;
  parseHappenings : string -> Z -> string -> string * string
}.

(* ================================================================== *)
(** * Folder *)
(* ================================================================== *)

Record Folder := mkFolder {
  files : JsMap.t FileInfo;
  folderPath : string
}.

Definition newFolder (path : string) : Folder := mkFolder JsMap.empty path.

Definition Folder_hasFile (folder : Folder) (uri : string) : bool :=
  JsMap.has (files folder) uri.

Definition Folder_get (folder : Folder) (uri : string) : option FileInfo :=
  JsMap.get (files folder) uri.

Definition Folder_add `{Imports} (folder : Folder) (fileInfo : FileInfo) : Folder :=
  if negb (String.eqb (uriScheme (fileUri fileInfo)) "git")
  then mkFolder (JsMap.set (files folder) (fileUri fileInfo) fileInfo) (folderPath folder)
  else folder.

Definition Folder_removeByUri (folder : Folder) (uri : string) : bool * Folder :=
  (JsMap.has (files folder) uri,
   mkFolder (JsMap.delete (files folder) uri) (folderPath folder)).

Definition Folder_remove (folder : Folder) (fileInfo : FileInfo) : bool * Folder :=
  Folder_removeByUri folder (fileUri fileInfo).

Definition Folder_getProblemFileWithName (folder : Folder)
    (problemName : option string) : option FileInfo :=
  find (fun problemInfo => lowerCaseEquals (name problemInfo) problemName)
       (filter isProblem (JsMap.values (files folder))).

Definition Folder_getProblemFilesFor (folder : Folder) (domainInfo : FileInfo)
    : list FileInfo :=
  filter (fun problemInfo => lowerCaseEquals (domainName problemInfo) (name domainInfo))
         (filter isProblem (JsMap.values (files folder))).

Definition Folder_getDomainFilesFor (folder : Folder) (problemInfo : FileInfo)
    : list FileInfo :=
  filter (fun domainInfo => lowerCaseEquals (name domainInfo) (domainName problemInfo))
         (filter isDomain (JsMap.values (files folder))).

(* ================================================================== *)
(** * PddlWorkspace *)
(* ================================================================== *)

Inductive EventSymbol := INSERTED | UPDATED | REMOVING.

Definition isUPDATED (symbol : EventSymbol) : bool :=
  match symbol with UPDATED => true | _ => false end.

(** The fields of the class; [parsingTimeout] tells whether the timer of
    [scheduleParsing] is pending, [emitted] is the log of the [emit] calls,
    oldest first. *)
Record PddlWorkspace := mkWorkspace {
  folders : JsMap.t Folder;
  parsingTimeout : bool;
  lastVersionUpdateEmitted : JsMap.t Z;
  problemToDomainMap : JsMap.t string;
  planToProblemMap : JsMap.t string;
  emitted : list (EventSymbol * FileInfo)
}.

Definition newWorkspace : PddlWorkspace :=
  mkWorkspace JsMap.empty false JsMap.empty JsMap.empty JsMap.empty [].

Definition setFolders (ws : PddlWorkspace) (fs : JsMap.t Folder) : PddlWorkspace :=
  mkWorkspace fs (parsingTimeout ws) (lastVersionUpdateEmitted ws)
              (problemToDomainMap ws) (planToProblemMap ws) (emitted ws).

(** A method call on the folder object stored under [path]. *)
Definition onFolder (path : string) (f : Folder -> Folder) (ws : PddlWorkspace)
    : PddlWorkspace :=
  setFolders ws (JsMap.adjust f path (folders ws)).

(** A mutation of the FileInfo object stored under [key] in the folder
    [path]. *)
Definition onFileAt (path key : string) (f : FileInfo -> FileInfo)
    (ws : PddlWorkspace) : PddlWorkspace :=
  onFolder path
           (fun folder => mkFolder (JsMap.adjust f key (files folder))
                                   (folderPath folder))
           ws.

(** A mutation of the FileInfo object [fileInfo], which lives in the slot of
    its URI. *)
Definition onFile `{Imports} (fileInfo : FileInfo) (f : FileInfo -> FileInfo)
    (ws : PddlWorkspace) : PddlWorkspace :=
  onFileAt (fsDirname (fileUri fileInfo)) (fileUri fileInfo) f ws.

Definition getFolderPath `{Imports} (documentUri : string) : string :=
  fsDirname documentUri.

Definition emit (symbol : EventSymbol) (fileInfo : FileInfo) (ws : PddlWorkspace)
    : PddlWorkspace :=
  mkWorkspace (folders ws) (parsingTimeout ws) (lastVersionUpdateEmitted ws)
              (problemToDomainMap ws) (planToProblemMap ws)
              (emitted ws ++ [(symbol, fileInfo)])%list.

Definition setLastVersion (uri : string) (v : Z) (ws : PddlWorkspace)
    : PddlWorkspace :=
  mkWorkspace (folders ws) (parsingTimeout ws)
              (JsMap.set (lastVersionUpdateEmitted ws) uri v)
              (problemToDomainMap ws) (planToProblemMap ws) (emitted ws).

(** Emit event, unless it is stale. *)
Definition emitIfNew (symbol : EventSymbol) (fileInfo : FileInfo)
    (ws : PddlWorkspace) : PddlWorkspace :=
  if isUPDATED symbol then
    match JsMap.get (lastVersionUpdateEmitted ws) (fileUri fileInfo) with
    | Some lastVersion =>
        if (getVersion fileInfo <=? lastVersion)%Z
        then ws
        else emit symbol fileInfo
               (setLastVersion (fileUri fileInfo) (getVersion fileInfo) ws)
    | None =>
        emit symbol fileInfo
          (setLastVersion (fileUri fileInfo) (getVersion fileInfo) ws)
    end
  else emit symbol fileInfo ws.

(** [parseFile]; the last branch of the source ([throw Error("Unknown
    language")]) is excluded by the type [PddlLanguage]. The parsed object
    starts in status Parsed (spec: Dirty -> Parsed on parse completion). *)
Definition parseFile `{Imports} (uri : string) (language : PddlLanguage)
    (fileVersion : Z) (fileText : string) : FileInfo :=
  match language with
  | PDDL =>
      match tryDomain uri fileVersion fileText with
      | Some n => mkFileInfo uri fileVersion language Parsed fileText (Domain n)
      | None =>
          match tryProblem uri fileVersion fileText with
          | Some (n, d) =>
              mkFileInfo uri fileVersion language Parsed fileText (Problem n d)
          | None => mkFileInfo uri fileVersion language Parsed fileText Unknown
          end
      end
  | PLAN =>
      let (p, d) := parsePlan uri fileVersion fileText in
      mkFileInfo uri fileVersion language Parsed fileText (Plan p d)
  | HAPPENINGS =>
      let (p, d) := parseHappenings uri fileVersion fileText in
      mkFileInfo uri fileVersion language Parsed fileText (Happenings p d)
  end.

Definition upsertFolder (path : string) (ws : PddlWorkspace)
    : Folder * PddlWorkspace :=
  match JsMap.get (folders ws) path with
  | None =>
      let folder := newFolder path in
      (folder, setFolders ws (JsMap.set (folders ws) path folder))
  | Some folder => (folder, ws)
  end.

Definition getFileInfo `{Imports} (ws : PddlWorkspace) (uri : string)
    : option FileInfo :=
  match JsMap.get (folders ws) (getFolderPath uri) with
  | Some folder => Folder_get folder uri
  | None => None
  end.

Definition getProblemFiles `{Imports} (ws : PddlWorkspace) (domainInfo : FileInfo)
    : list FileInfo :=
  match JsMap.get (folders ws) (getFolderPath (fileUri domainInfo)) with
  | Some folder => Folder_getProblemFilesFor folder domainInfo
  | None => []
  end.

Definition getPlanFiles `{Imports} (ws : PddlWorkspace) (problemInfo : FileInfo)
    : list FileInfo :=
  match JsMap.get (folders ws) (getFolderPath (fileUri problemInfo)) with
  | None => []
  | Some folder =>
      filter (fun p => lowerCaseEquals (problemName p) (name problemInfo)
                       && lowerCaseEquals (domainName p) (domainName problemInfo))
             (filter isPlan (JsMap.values (files folder)))
  end.

Definition getHappeningsFiles `{Imports} (ws : PddlWorkspace)
    (problemInfo : FileInfo) : list FileInfo :=
  match JsMap.get (folders ws) (getFolderPath (fileUri problemInfo)) with
  | None => []
  | Some folder =>
      filter (fun p => lowerCaseEquals (problemName p) (name problemInfo)
                       && lowerCaseEquals (domainName p) (domainName problemInfo))
             (filter isHappenings (JsMap.values (files folder)))
  end.

Definition getAllFilesIf (ws : PddlWorkspace) (predicate : FileInfo -> bool)
    : list FileInfo :=
  flat_map (fun folder => filter predicate (JsMap.values (files folder)))
           (JsMap.values (folders ws)).

Definition getAllFiles (ws : PddlWorkspace) : list FileInfo :=
  flat_map (fun folder => JsMap.values (files folder))
           (JsMap.values (folders ws)).

Definition invalidateDiagnostics `{Imports} (fileInfo : FileInfo)
    (ws : PddlWorkspace) : PddlWorkspace :=
  emitIfNew UPDATED (setStatus Parsed fileInfo)
            (onFile fileInfo (setStatus Parsed) ws).

Definition markPlansAsDirty `{Imports} (problemInfo : FileInfo)
    (ws : PddlWorkspace) : PddlWorkspace :=
  let ws1 := fold_left (fun w planInfo => invalidateDiagnostics planInfo w)
                       (getPlanFiles ws problemInfo) ws in
  fold_left (fun w happeningsInfo => invalidateDiagnostics happeningsInfo w)
            (getHappeningsFiles ws1 problemInfo) ws1.

Definition markProblemsAsDirty `{Imports} (domainInfo : FileInfo)
    (ws : PddlWorkspace) : PddlWorkspace :=
  fold_left (fun w problemInfo =>
               markPlansAsDirty problemInfo (invalidateDiagnostics problemInfo w))
            (getProblemFiles ws domainInfo) ws.

Definition scheduleParsing (ws : PddlWorkspace) : PddlWorkspace :=
  mkWorkspace (folders ws) true (lastVersionUpdateEmitted ws)
              (problemToDomainMap ws) (planToProblemMap ws) (emitted ws).

Definition insertFile `{Imports} (path : string) (uri : string)
    (language : PddlLanguage) (fileVersion : Z) (fileText : string)
    (ws : PddlWorkspace) : FileInfo * PddlWorkspace :=
  let fileInfo := parseFile uri language fileVersion fileText in
  let ws1 := onFolder path (fun folder => Folder_add folder fileInfo) ws in
  let ws2 :=
    if isDomain fileInfo then markProblemsAsDirty fileInfo ws1
    else if isProblem fileInfo then markPlansAsDirty fileInfo ws1
    else ws1 in
  let ws3 := emitIfNew UPDATED fileInfo ws2 in
  let ws4 := emitIfNew INSERTED fileInfo ws3 in
  (fileInfo, ws4).

Definition upsertFile `{Imports} (uri : string) (language : PddlLanguage)
    (fileVersion : Z) (fileText : string) (force : bool) (ws : PddlWorkspace)
    : FileInfo * PddlWorkspace :=
  let path := getFolderPath uri in
  let (folder, ws1) := upsertFolder path ws in
  match Folder_get folder uri with
  | Some fileInfo =>
      let (updated, fileInfo') := update fileInfo fileVersion fileText force in
      let ws2 := onFileAt path uri (fun _ => fileInfo') ws1 in
      (fileInfo', if updated then scheduleParsing ws2 else ws2)
  | None => insertFile path uri language fileVersion fileText ws1
  end.

Definition reParseFile `{Imports} (fileInfo : FileInfo) (ws : PddlWorkspace)
    : FileInfo * PddlWorkspace :=
  let path := getFolderPath (fileUri fileInfo) in
  let (_, ws1) := upsertFolder path ws in
  let ws2 := onFolder path (fun folder => snd (Folder_remove folder fileInfo)) ws1 in
  let fileInfo' := parseFile (fileUri fileInfo) (getLanguage fileInfo)
                             (getVersion fileInfo) (getText fileInfo) in
  let ws3 := onFolder path (fun folder => Folder_add folder fileInfo') ws2 in
  let ws4 := emitIfNew UPDATED fileInfo' ws3 in
  (fileInfo', ws4).

Definition upsertAndParseFile `{Imports} (uri : string) (language : PddlLanguage)
    (fileVersion : Z) (fileText : string) (ws : PddlWorkspace)
    : FileInfo * PddlWorkspace :=
  let (fileInfo, ws1) := upsertFile uri language fileVersion fileText false ws in
  match getStatus fileInfo with
  | Dirty => reParseFile fileInfo ws1
  | Parsed => (fileInfo, ws1)
  end.

Definition isDirty (f : FileInfo) : bool :=
  match getStatus f with Dirty => true | Parsed => false end.

Definition parseAllDirty `{Imports} (ws : PddlWorkspace) : PddlWorkspace :=
  let dirtyFiles := getAllFilesIf ws isDirty in
  fold_left (fun w file => snd (reParseFile file w)) dirtyFiles ws.

(** The timer of [scheduleParsing] fires. *)
Definition parsingTimeoutFires `{Imports} (ws : PddlWorkspace) : PddlWorkspace :=
  if parsingTimeout ws
  then parseAllDirty
         (mkWorkspace (folders ws) false (lastVersionUpdateEmitted ws)
                      (problemToDomainMap ws) (planToProblemMap ws) (emitted ws))
  else ws.

Record FileRemovalOptions := { removeAllReferences : bool }.

Definition hasExplicitAssociations (ws : PddlWorkspace) (documentUri : string)
    : bool :=
  JsMap.has (problemToDomainMap ws) documentUri
  || includes (JsMap.values (problemToDomainMap ws)) documentUri
  || JsMap.has (planToProblemMap ws) documentUri
  || includes (JsMap.values (planToProblemMap ws)) documentUri.

Definition removeFile `{Imports} (documentUri : string)
    (options : FileRemovalOptions) (ws : PddlWorkspace) : bool * PddlWorkspace :=
  if hasExplicitAssociations ws documentUri && negb (removeAllReferences options)
  then (false, ws)
  else
    let path := getFolderPath documentUri in
    match JsMap.get (folders ws) path with
    | Some folder =>
        match Folder_get folder documentUri with
        | Some documentInfo =>
            let ws1 := emitIfNew REMOVING documentInfo ws in
            (fst (Folder_remove folder documentInfo),
             onFolder path (fun f => snd (Folder_remove f documentInfo)) ws1)
        | None => (false, ws)
        end
    | None => (false, ws)
    end.

Definition associateProblemToDomain (problemInfo domainInfo : FileInfo)
    (ws : PddlWorkspace) : PddlWorkspace :=
  mkWorkspace (folders ws) (parsingTimeout ws) (lastVersionUpdateEmitted ws)
              (JsMap.set (problemToDomainMap ws) (fileUri problemInfo) (fileUri domainInfo))
              (planToProblemMap ws) (emitted ws).

Definition getDomainFilesFor `{Imports} (ws : PddlWorkspace)
    (problemFile : FileInfo) : list FileInfo :=
  if JsMap.has (problemToDomainMap ws) (fileUri problemFile) then
    match JsMap.get (problemToDomainMap ws) (fileUri problemFile) with
    | Some domainFileUri =>
        match getFileInfo ws domainFileUri with
        | Some associatedDomain => [associatedDomain]
        | None => []
        end
    | None => []
    end
  else
    match JsMap.get (folders ws) (getFolderPath (fileUri problemFile)) with
    | None => []
    | Some folder => Folder_getDomainFilesFor folder problemFile
    end.

Definition getDomainFileFor `{Imports} (ws : PddlWorkspace)
    (problemFile : FileInfo) : option FileInfo :=
  let domainFiles := getDomainFilesFor ws problemFile in
  if (List.length domainFiles =? 1)%nat then nth_error domainFiles 0 else None.

Definition associatePlanToProblem (planUri : string) (problemFileInfo : FileInfo)
    (ws : PddlWorkspace) : PddlWorkspace :=
  mkWorkspace (folders ws) (parsingTimeout ws) (lastVersionUpdateEmitted ws)
              (problemToDomainMap ws)
              (JsMap.set (planToProblemMap ws) planUri (fileUri problemFileInfo))
              (emitted ws).

Definition getFolderOf `{Imports} (ws : PddlWorkspace) (fileInfo : FileInfo)
    : option Folder :=
  JsMap.get (folders ws) (getFolderPath (fileUri fileInfo)).

Definition getProblemFileForPlan `{Imports} (ws : PddlWorkspace)
    (planInfo : FileInfo) : option FileInfo :=
  if JsMap.has (planToProblemMap ws) (fileUri planInfo) then
    match JsMap.get (planToProblemMap ws) (fileUri planInfo) with
    | Some problemFileUri => getFileInfo ws problemFileUri
    | None => None
    end
  else
    match getFolderOf ws planInfo with
    | None => None
    | Some folder => Folder_getProblemFileWithName folder (problemName planInfo)
    end.

Definition getProblemFileForHappenings `{Imports} (ws : PddlWorkspace)
    (happeningsInfo : FileInfo) : option FileInfo :=
  match getFolderOf ws happeningsInfo with
  | None => None
  | Some folder => Folder_getProblemFileWithName folder (problemName happeningsInfo)
  end.

Definition asDomain `{Imports} (ws : PddlWorkspace) (fileInfo : FileInfo)
    : option FileInfo :=
  if isDomain fileInfo then Some fileInfo
  else if isProblem fileInfo then getDomainFileFor ws fileInfo
  else if isPlan fileInfo then
    match getProblemFileForPlan ws fileInfo with
    | Some problemFile1 => getDomainFileFor ws problemFile1
    | None => None
    end
  else if isHappenings fileInfo then
    match getProblemFileForHappenings ws fileInfo with
    | Some problemFile2 => getDomainFileFor ws problemFile2
    | None => None
    end
  else None.

(** ** Sequences of workspace operations *)

(** The public methods that change the workspace, and the timer. *)
Inductive Operation :=
| OpUpsertFile (uri : string) (language : PddlLanguage) (fileVersion : Z)
               (fileText : string) (force : bool)
| OpUpsertAndParseFile (uri : string) (language : PddlLanguage) (fileVersion : Z)
                       (fileText : string)
| OpReParseFile (fileInfo : FileInfo)
| OpParsingTimeoutFires
| OpInvalidateDiagnostics (fileInfo : FileInfo)
| OpMarkProblemsAsDirty (domainInfo : FileInfo)
| OpMarkPlansAsDirty (problemInfo : FileInfo)
| OpScheduleParsing
| OpRemoveFile (documentUri : string) (options : FileRemovalOptions)
| OpAssociateProblemToDomain (problemInfo domainInfo : FileInfo)
| OpAssociatePlanToProblem (planUri : string) (problemFileInfo : FileInfo).

Definition perform `{Imports} (ws : PddlWorkspace) (op : Operation)
    : PddlWorkspace :=
  match op with
  | OpUpsertFile uri language v t force => snd (upsertFile uri language v t force ws)
  | OpUpsertAndParseFile uri language v t => snd (upsertAndParseFile uri language v t ws)
  | OpReParseFile fileInfo => snd (reParseFile fileInfo ws)
  | OpParsingTimeoutFires => parsingTimeoutFires ws
  | OpInvalidateDiagnostics fileInfo => invalidateDiagnostics fileInfo ws
  | OpMarkProblemsAsDirty domainInfo => markProblemsAsDirty domainInfo ws
  | OpMarkPlansAsDirty problemInfo => markPlansAsDirty problemInfo ws
  | OpScheduleParsing => scheduleParsing ws
  | OpRemoveFile documentUri options => snd (removeFile documentUri options ws)
  | OpAssociateProblemToDomain p d => associateProblemToDomain p d ws
  | OpAssociatePlanToProblem planUri p => associatePlanToProblem planUri p ws
  end.

Definition performAll `{Imports} (ops : list Operation) (ws : PddlWorkspace)
    : PddlWorkspace :=
  fold_left perform ops ws.

(** The (uri, version) pairs of the UPDATED events emitted so far. *)
Definition updatedPairs (ws : PddlWorkspace) : list (string * Z) :=
  map (fun e => (fileUri (snd e), getVersion (snd e)))
      (filter (fun e => isUPDATED (fst e)) (emitted ws)).

(** Every stored file sits in the slot of its own URI, in the folder of that
    URI, and no stored URI has the [git] scheme. *)
Definition wellFormed `{Imports} (ws : PddlWorkspace) : Prop :=
  forall path folder key fileInfo,
    In (path, folder) (folders ws) ->
    In (key, fileInfo) (files folder) ->
    key = fileUri fileInfo
    /\ path = getFolderPath key
    /\ String.eqb (uriScheme key) "git" = false.

(* ================================================================== *)
(** * JavaScript regular expressions (the fragment the parser uses) *)
(* ================================================================== *)

Module Regex.

Inductive re :=
| Eps
| Chr (c : ascii)
| Cls (p : ascii -> bool)
| Seq (a b : re)
| Star (a : re)
| Group (a : re)
| Bos
| Eos.

Definition Plus (a : re) : re := Seq a (Star a).

Fixpoint lit (s : string) : re :=
  match s with
  | EmptyString => Eps
  | String c r => Seq (Chr c) (lit r)
  end.

(** [\s] and [\S] on ASCII. *)
Definition isSpace (c : ascii) : bool :=
  let n := nat_of_ascii c in
  (n =? 32)%nat || ((9 <=? n)%nat && (n <=? 13)%nat).

Definition notSpace (c : ascii) : bool := negb (isSpace c).

(** [.]: any character but a line terminator. *)
Definition notNewline (c : ascii) : bool :=
  let n := nat_of_ascii c in negb ((n =? 10)%nat || (n =? 13)%nat).

Section Matcher.
Context {R : Type}.
(** [ci] is the [i] flag. *)
Variable ci : bool.

Definition chrEq (a b : ascii) : bool :=
  if ci then Ascii.eqb (lowerAscii a) (lowerAscii b) else Ascii.eqb a b.

(** Backtracking matcher in continuation style: greedy [*], the captures in
    the order their groups close. [pos] is the index of [s] in the input. *)
Fixpoint run (r : re) (pos : nat) (s : list ascii) (caps : list string)
    (k : nat -> list ascii -> list string -> option R) : option R :=
  match r with
  | Eps => k pos s caps
  | Chr c =>
      match s with
      | x :: s' => if chrEq x c then k (S pos) s' caps else None
      | [] => None
      end
  | Cls p =>
      match s with
      | x :: s' => if p x then k (S pos) s' caps else None
      | [] => None
      end
  | Seq a b => run a pos s caps (fun pos1 s1 caps1 => run b pos1 s1 caps1 k)
  | Star a =>
      (fix loop (n : nat) (pos : nat) (s : list ascii) (caps : list string)
         {struct n} : option R :=
         let more :=
           match n with
           | O => None
           | S n' =>
               run a pos s caps
                   (fun pos1 s1 caps1 =>
                      if (pos <? pos1)%nat then loop n' pos1 s1 caps1 else None)
           end in
         match more with
         | Some x => Some x
         | None => k pos s caps
         end) (List.length s) pos s caps
  | Group a =>
      run a pos s caps
          (fun pos1 s1 caps1 =>
             k pos1 s1 (caps1 ++ [string_of_list_ascii (firstn (pos1 - pos) s)])%list)
  | Bos => if (pos =? 0)%nat then k pos s caps else None
  | Eos => match s with [] => k pos s caps | _ => None end
  end.

End Matcher.

(** [exec] with [lastIndex = 0] of a pattern that starts with [^]: the end of
    the match and the captures. *)
Definition matchAtStart (ci : bool) (r : re) (input : string)
    : option (nat * list string) :=
  run ci r 0 (list_ascii_of_string input) []
      (fun pos _ caps => Some (pos, caps)).

Fixpoint searchFrom (ci : bool) (r : re) (pos : nat) (s : list ascii) : bool :=
  match run ci r pos s [] (fun _ _ _ => Some tt) with
  | Some _ => true
  | None =>
      match s with
      | [] => false
      | _ :: s' => searchFrom ci r (S pos) s'
      end
  end.

(** The captures of the first match of a pattern without the [g] flag. *)
Fixpoint execFrom (ci : bool) (r : re) (pos : nat) (s : list ascii)
    : option (list string) :=
  match run ci r pos s [] (fun _ _ caps => Some caps) with
  | Some caps => Some caps
  | None =>
      match s with
      | [] => None
      | _ :: s' => execFrom ci r (S pos) s'
      end
  end.

(** [input.match(r) !== null] for a pattern without the [g] flag. *)
Definition test (ci : bool) (r : re) (input : string) : bool :=
  searchFrom ci r 0 (list_ascii_of_string input).

End Regex.

(* ================================================================== *)
(** * JavaScript numbers and [parseFloat] *)
(* ================================================================== *)

(** A number is kept as the decimal [mantissa * 10 ^ exponent] that was read;
    the rounding to a double is not modelled. *)
Inductive number :=
| NaN
| Infinite (negative : bool)
| Finite (mantissa : Z) (exponent : Z).

Definition isNaN (n : number) : bool :=
  match n with NaN => true | _ => false end.

Definition isDigit (c : ascii) : bool :=
  let n := nat_of_ascii c in (48 <=? n)%nat && (n <=? 57)%nat.

Definition digitValue (c : ascii) : Z := Z.of_nat (nat_of_ascii c - 48).

Fixpoint takeWhile (p : ascii -> bool) (s : list ascii) : list ascii :=
  match s with
  | c :: r => if p c then c :: takeWhile p r else []
  | [] => []
  end.

Fixpoint dropWhile (p : ascii -> bool) (s : list ascii) : list ascii :=
  match s with
  | c :: r => if p c then dropWhile p r else s
  | [] => []
  end.

Definition digitsValue (ds : list ascii) : Z :=
  fold_left (fun acc c => (acc * 10 + digitValue c)%Z) ds 0%Z.

Definition startsWith (prefix s : list ascii) : bool :=
  (List.length prefix <=? List.length s)%nat
  && forallb (fun p => Ascii.eqb (fst p) (snd p)) (combine prefix s).

(** The exponent part: [e] or [E], an optional sign and at least one digit;
    anything else is not part of the number. *)
Definition exponentPart (s : list ascii) : Z :=
  match s with
  | e :: r =>
      if Ascii.eqb e "e"%char || Ascii.eqb e "E"%char then
        let (neg, r1) :=
          match r with
          | c :: r' =>
              if Ascii.eqb c "-"%char then (true, r')
              else if Ascii.eqb c "+"%char then (false, r') else (false, r)
          | [] => (false, r)
          end in
        let ds := takeWhile isDigit r1 in
        match ds with
        | [] => 0%Z
        | _ => if neg then (- digitsValue ds)%Z else digitsValue ds
        end
      else 0%Z
  | [] => 0%Z
  end.

(** ECMAScript [parseFloat]: leading white space is skipped, the longest
    prefix that is a decimal literal is read, [NaN] when there is none. *)
Definition parseFloat (input : string) : number :=
  let s := dropWhile Regex.isSpace (list_ascii_of_string input) in
  let (neg, s1) :=
    match s with
    | c :: r =>
        if Ascii.eqb c "-"%char then (true, r)
        else if Ascii.eqb c "+"%char then (false, r) else (false, s)
    | [] => (false, s)
    end in
  if startsWith (list_ascii_of_string "Infinity") s1 then Infinite neg
  else
    let ip := takeWhile isDigit s1 in
    let s2 := dropWhile isDigit s1 in
    let (fp, s3) :=
      match s2 with
      | c :: r =>
          if Ascii.eqb c "."%char then (takeWhile isDigit r, dropWhile isDigit r)
          else ([], s2)
      | [] => ([], s2)
      end in
    match (ip ++ fp)%list with
    | [] => NaN
    | ds =>
        let m := digitsValue ds in
        Finite (if neg then (- m)%Z else m)
               (exponentPart s3 - Z.of_nat (List.length fp))
    end.

(** The literal [0]. *)
Definition zero : number := Finite 0 0.

(** [!n] of a number: true for [0] and [NaN]. *)
Definition numberIsFalsy (n : number) : bool :=
  match n with
  | NaN => true
  | Infinite _ => false
  | Finite m _ => (m =? 0)%Z
  end.

(* ================================================================== *)
(** * Tokens and syntax nodes *)
(* ================================================================== *)

(** Modelled from the spec: the token kinds of PddlTokenizer.ts (open-bracket,
    open-bracket-operator, close-bracket, parameter, comment, whitespace,
    other) and the kind of the root node of a tree. [ParameterType] is the
    kind Parameter. *)
Inductive PddlTokenType :=
| OpenBracketOperator
| OpenBracket
| CloseBracket
| ParameterType
| Comment
| Whitespace
| Other
| Document.

Definition PddlTokenType_eqb (a b : PddlTokenType) : bool :=
  match a, b with
  | OpenBracketOperator, OpenBracketOperator => true
  | OpenBracket, OpenBracket => true
  | CloseBracket, CloseBracket => true
  | ParameterType, ParameterType => true
  | Comment, Comment => true
  | Whitespace, Whitespace => true
  | Other, Other => true
  | Document, Document => true
  | _, _ => false
  end.

(** Modelled from the spec: a token is a typed span {kind, text, startOffset}
    (the end offset is the start plus the length of the text). *)
Record PddlToken := mkToken {
  type : PddlTokenType;
  tokenText : string;
  getStart : nat
}.

(** Modelled from the spec: [isOpenBracket] of PddlTokenizer.ts: the token is
    an open bracket, plain or operator. *)
Definition isOpenBracket (token : PddlToken) : bool :=
  match type token with
  | OpenBracketOperator => true
  | OpenBracket => true
  | _ => false
  end.

(** Modelled from the spec: PddlSyntaxNode of PddlSyntaxNode.ts: a node wraps
    one token and the ordered sequence of its children; a bracket node also
    holds its matching close bracket, when there is one. *)
Inductive PddlSyntaxNode :=
| mkNode (token : PddlToken) (children : list PddlSyntaxNode)
         (closeToken : option PddlToken).

Definition getToken (node : PddlSyntaxNode) : PddlToken :=
  match node with mkNode token _ _ => token end.

Definition getChildren (node : PddlSyntaxNode) : list PddlSyntaxNode :=
  match node with mkNode _ children _ => children end.

Definition getCloseToken (node : PddlSyntaxNode) : option PddlToken :=
  match node with mkNode _ _ closeToken => closeToken end.

Definition isType (node : PddlSyntaxNode) (t : PddlTokenType) : bool :=
  PddlTokenType_eqb (type (getToken node)) t.

Definition isNotType (node : PddlSyntaxNode) (t : PddlTokenType) : bool :=
  negb (isType node t).

Definition concatStrings (l : list string) : string :=
  fold_right String.append EmptyString l.

(** Modelled from the spec: the text of a node is the text of its token, of its
    children and of its close bracket, so that the text of the tree is the
    text it was built from. *)
Fixpoint nodeText (node : PddlSyntaxNode) : string :=
  match node with
  | mkNode token children closeToken =>
      tokenText token
      ++ concatStrings (map nodeText children)
      ++ match closeToken with Some c => tokenText c | None => EmptyString end
  end.

(** Modelled from the spec: the text between the token of a node and its close
    bracket. *)
Definition getNestedText (node : PddlSyntaxNode) : string :=
  concatStrings (map nodeText (getChildren node)).

(** Modelled from the spec: the nested text without the comments, at any
    depth. *)
Fixpoint nonCommentText (node : PddlSyntaxNode) : string :=
  match node with
  | mkNode token children closeToken =>
      match type token with
      | Comment => EmptyString
      | _ =>
          tokenText token
          ++ concatStrings (map nonCommentText children)
          ++ match closeToken with Some c => tokenText c | None => EmptyString end
      end
  end.

Definition getNestedNonCommentText (node : PddlSyntaxNode) : string :=
  concatStrings (map nonCommentText (getChildren node)).

Definition getNonWhitespaceChildren (node : PddlSyntaxNode)
    : list PddlSyntaxNode :=
  filter (fun c => isNotType c Whitespace) (getChildren node).

(** Modelled from the spec: the first child of the given type whose token text
    matches the pattern. *)
Definition getFirstChild (node : PddlSyntaxNode) (t : PddlTokenType)
    (ci : bool) (pattern : Regex.re) : option PddlSyntaxNode :=
  find (fun c => Regex.test ci pattern (tokenText (getToken c)))
       (filter (fun c => isType c t) (getChildren node)).

Definition getChildrenOfType (node : PddlSyntaxNode) (t : PddlTokenType)
    (ci : bool) (pattern : Regex.re) : list PddlSyntaxNode :=
  filter (fun c => Regex.test ci pattern (tokenText (getToken c)))
         (filter (fun c => isType c t) (getChildren node)).

(** Modelled from the spec: the first child bracket matching a keyword; the
    pattern is [\(\s*keyword$] with the [i] flag. *)
Definition getFirstOpenBracket (node : PddlSyntaxNode) (keyword : string)
    : option PddlSyntaxNode :=
  getFirstChild node OpenBracketOperator true
    (Regex.Seq (Regex.Chr "(")
       (Regex.Seq (Regex.Star (Regex.Cls Regex.isSpace))
          (Regex.Seq (Regex.lit keyword) Regex.Eos))).

(** Modelled from the spec: a tree owns its root node and the list of its
    offending tokens. *)
Record PddlSyntaxTree := mkTree {
  getRootNode : PddlSyntaxNode;
  getOffendingTokens : list PddlToken
}.

Definition documentToken : PddlToken := mkToken Document EmptyString 0.

(** [PddlSyntaxTree.EMPTY] *)
Definition EMPTY : PddlSyntaxTree := mkTree (mkNode documentToken [] None) [].

Definition getDefineNode (tree : PddlSyntaxTree) : option PddlSyntaxNode :=
  getFirstOpenBracket (getRootNode tree) "define".

(* ================================================================== *)
(** * Tokenizer *)
(* ================================================================== *)

(** Modelled from the spec: the closed set of operator keywords. The spec
    names [(at] and [(and]; PddlProblemParser.ts relies on [(=], [(not],
    [(forall], [(assign], [(increase], [(decrease], [(supply-demand] and
    [define]. Section names are the words that start with a colon. *)
Definition operatorKeywords : list string :=
  ["define"; "domain"; "problem"; "and"; "or"; "not"; "imply"; "forall";
   "exists"; "when"; "at"; "="; "<"; "<="; ">"; ">="; "+"; "-"; "*"; "/";
   "assign"; "increase"; "decrease"; "scale-up"; "scale-down"; "sumall";
   "supply-demand"].

Definition isDelimiter (c : ascii) : bool :=
  Regex.isSpace c || Ascii.eqb c "("%char || Ascii.eqb c ")"%char
  || Ascii.eqb c ";"%char.

Definition isKeyword (word : list ascii) : bool :=
  match word with
  | c :: _ :: _ =>
      if Ascii.eqb c ":"%char then true
      else includes operatorKeywords (toLowerCase (string_of_list_ascii word))
  | _ => includes operatorKeywords (toLowerCase (string_of_list_ascii word))
  end.

Definition isWordChar (c : ascii) : bool :=
  let n := nat_of_ascii c in
  isDigit c || isUpper c || ((97 <=? n)%nat && (n <=? 122)%nat)
  || (n =? 95)%nat || (n =? 45)%nat.

(** Modelled from the spec: the token that starts [s] (not empty), and its
    length. An open bracket followed, modulo white space, by a keyword is an
    operator bracket whose text includes the keyword; a comment runs from [;]
    to the end of the line; a parameter starts with [?]. *)
Definition nextToken (pos : nat) (s : list ascii) : PddlToken :=
  let tok t chars := mkToken t (string_of_list_ascii chars) pos in
  match s with
  | [] => tok Other []
  | c :: r =>
      if Regex.isSpace c then tok Whitespace (takeWhile Regex.isSpace s)
      else if Ascii.eqb c ";"%char then tok Comment (takeWhile Regex.notNewline s)
      else if Ascii.eqb c "("%char then
        let ws := takeWhile Regex.isSpace r in
        let word := takeWhile (fun x => negb (isDelimiter x)) (dropWhile Regex.isSpace r) in
        if isKeyword word
        then tok OpenBracketOperator (c :: ws ++ word)%list
        else tok OpenBracket [c]
      else if Ascii.eqb c ")"%char then tok CloseBracket [c]
      else if Ascii.eqb c "?"%char then tok ParameterType (c :: takeWhile isWordChar r)
      else tok Other (takeWhile (fun x => negb (isDelimiter x || Ascii.eqb x "?"%char)) s)
  end.

Fixpoint tokenizeFrom (fuel : nat) (pos : nat) (s : list ascii) : list PddlToken :=
  match fuel with
  | O => []
  | S fuel' =>
      match s with
      | [] => []
      | _ =>
          let token := nextToken pos s in
          let n := String.length (tokenText token) in
          token :: tokenizeFrom fuel' (pos + n) (skipn n s)
      end
  end.

(** Every token takes at least one character, so the length of the text is
    enough fuel. *)
Definition tokenize (text : string) : list PddlToken :=
  tokenizeFrom (String.length text) 0 (list_ascii_of_string text).

(* ================================================================== *)
(** * Syntax tree builder *)
(* ================================================================== *)

(** An open bracket on the stack, with the children seen so far, last first. *)
Record OpenNode := mkOpen {
  openToken : PddlToken;
  seen : list PddlSyntaxNode
}.

Definition addChild (n : PddlSyntaxNode) (o : OpenNode) : OpenNode :=
  mkOpen (openToken o) (n :: seen o).

Definition closeNode (o : OpenNode) (closeToken : option PddlToken)
    : PddlSyntaxNode :=
  mkNode (openToken o) (rev (seen o)) closeToken.

(** Modelled from the spec: at the end of the input the brackets that remain
    open are recorded as offending tokens and stay in the tree, not closed. *)
Fixpoint unwind (top : OpenNode) (stack : list OpenNode)
    (offending : list PddlToken) : PddlSyntaxTree :=
  match stack with
  | [] => mkTree (closeNode top None) (rev offending)
  | parent :: stack' =>
      unwind (addChild (closeNode top None) parent) stack'
             (openToken top :: offending)
  end.

(** Modelled from the spec: one left-to-right pass with an explicit stack of
    open bracket nodes; [top] is the node being filled, [stack] its ancestors;
    an extra close bracket is an offending token and is ignored. *)
Fixpoint buildFrom (tokens : list PddlToken) (top : OpenNode)
    (stack : list OpenNode) (offending : list PddlToken) : PddlSyntaxTree :=
  match tokens with
  | [] => unwind top stack offending
  | token :: rest =>
      match type token with
      | OpenBracketOperator | OpenBracket =>
          buildFrom rest (mkOpen token []) (top :: stack) offending
      | CloseBracket =>
          match stack with
          | [] => buildFrom rest top stack (token :: offending)
          | parent :: stack' =>
              buildFrom rest (addChild (closeNode top (Some token)) parent)
                        stack' offending
          end
      | _ => buildFrom rest (addChild (mkNode token [] None) top) stack offending
      end
  end.

(** [new PddlSyntaxTreeBuilder(text).getTree()] *)
Definition getTree (text : string) : PddlSyntaxTree :=
  buildFrom (tokenize text) (mkOpen documentToken []) [] [].

(* ================================================================== *)
(** * ProblemInfo *)
(* ================================================================== *)

Inductive Value :=
| BooleanValue (b : bool)
| NumericValue (n : number).

(** Modelled from the spec: [VariableValue] and [UnsupportedVariableValue] of
    ProblemInfo.ts: a variable with a boolean or numeric value, or an
    unsupported construct kept verbatim. *)
Inductive VariableValue :=
| mkVariableValue (variableName : string) (value : Value)
| UnsupportedVariableValue (text : string).

Definition isSupported (v : VariableValue) : bool :=
  match v with
  | mkVariableValue _ _ => true
  | UnsupportedVariableValue _ => false
  end.

(** Modelled from the spec: [VariableValue.negate], the boolean negation of the
    value ([!value] for a number). The spec does not say what the negation of
    an unsupported value is; it is kept as it is here. *)
Definition negate (v : VariableValue) : VariableValue :=
  match v with
  | mkVariableValue n (BooleanValue b) => mkVariableValue n (BooleanValue (negb b))
  | mkVariableValue n (NumericValue x) => mkVariableValue n (BooleanValue (numberIsFalsy x))
  | UnsupportedVariableValue t => UnsupportedVariableValue t
  end.

(** Modelled from the spec: [TimedVariableValue] of ProblemInfo.ts, a variable
    value effective from a time; [TimedVariableValue_from] is the static method
    [TimedVariableValue.from]. *)
Record TimedVariableValue := TimedVariableValue_from {
  getTime : number;
  getVariableValue : VariableValue
}.

Record SupplyDemand := mkSupplyDemand { supplyDemandName : string }.

(** Modelled from the spec: a ParsingProblem {message, line, column}. *)
Record ParsingProblem := mkParsingProblem {
  problemMessage : string;
  problemLine : Z;
  problemColumn : Z
}.

(** A PreProcessor of PreProcessors.ts, which is outside of the embedded
    files; the problem parser reads its [metaDataLineOffset], a number that
    may be undefined. *)
Record PreProcessor := mkPreProcessor { metaDataLineOffset : option Z }.

(** A constraint, as PddlConstraintsParser builds it; the class is outside of
    the embedded files and a constraint is represented by its text. *)
Record Constraint := mkConstraint { constraintText : string }.

(** Modelled from the spec: the ProblemInfo class of ProblemInfo.ts: name,
    referenced domain name, syntax tree, text, parsing problems, the
    pre-processor that produced the text, requirements, object-to-type
    assignments (each type with its objects), initial facts, supply/demand
    directives and constraints. The URI, the version and the position resolver
    are only stored and are left out. *)
Record ProblemInfo := mkProblemInfo {
  problemInfoName : string;
  problemInfoDomainName : string;
  problemInfoTree : PddlSyntaxTree;
  problemInfoText : string;
  getParsingProblems : list ParsingProblem;
  getPreParsingPreProcessor : option PreProcessor;
  getRequirements : list string;
  getObjects : list (string * list string);
  getInits : list TimedVariableValue;
  getSupplyDemands : list SupplyDemand;
  getConstraints : list Constraint
}.

(** [new ProblemInfo(fileUri, fileVersion, problemName, domainName,
    syntaxTree, positionResolver)] *)
Definition newProblemInfo (problemName domainName : string)
    (syntaxTree : PddlSyntaxTree) : ProblemInfo :=
  mkProblemInfo problemName domainName syntaxTree EmptyString [] None [] [] []
                [] [].

Definition setText (t : string) (p : ProblemInfo) : ProblemInfo :=
  mkProblemInfo (problemInfoName p) (problemInfoDomainName p) (problemInfoTree p)
                t (getParsingProblems p) (getPreParsingPreProcessor p)
                (getRequirements p) (getObjects p) (getInits p)
                (getSupplyDemands p) (getConstraints p).

Definition addProblems (l : list ParsingProblem) (p : ProblemInfo) : ProblemInfo :=
  mkProblemInfo (problemInfoName p) (problemInfoDomainName p) (problemInfoTree p)
                (problemInfoText p) (getParsingProblems p ++ l)%list
                (getPreParsingPreProcessor p) (getRequirements p) (getObjects p)
                (getInits p) (getSupplyDemands p) (getConstraints p).

Definition setPreParsingPreProcessor (pp : PreProcessor) (p : ProblemInfo)
    : ProblemInfo :=
  mkProblemInfo (problemInfoName p) (problemInfoDomainName p) (problemInfoTree p)
                (problemInfoText p) (getParsingProblems p) (Some pp)
                (getRequirements p) (getObjects p) (getInits p)
                (getSupplyDemands p) (getConstraints p).

Definition setRequirements (r : list string) (p : ProblemInfo) : ProblemInfo :=
  mkProblemInfo (problemInfoName p) (problemInfoDomainName p) (problemInfoTree p)
                (problemInfoText p) (getParsingProblems p)
                (getPreParsingPreProcessor p) r (getObjects p) (getInits p)
                (getSupplyDemands p) (getConstraints p).

Definition setObjects (o : list (string * list string)) (p : ProblemInfo)
    : ProblemInfo :=
  mkProblemInfo (problemInfoName p) (problemInfoDomainName p) (problemInfoTree p)
                (problemInfoText p) (getParsingProblems p)
                (getPreParsingPreProcessor p) (getRequirements p) o (getInits p)
                (getSupplyDemands p) (getConstraints p).

Definition setInits (i : list TimedVariableValue) (p : ProblemInfo)
    : ProblemInfo :=
  mkProblemInfo (problemInfoName p) (problemInfoDomainName p) (problemInfoTree p)
                (problemInfoText p) (getParsingProblems p)
                (getPreParsingPreProcessor p) (getRequirements p) (getObjects p) i
                (getSupplyDemands p) (getConstraints p).

Definition setSupplyDemands (s : list SupplyDemand) (p : ProblemInfo)
    : ProblemInfo :=
  mkProblemInfo (problemInfoName p) (problemInfoDomainName p) (problemInfoTree p)
                (problemInfoText p) (getParsingProblems p)
                (getPreParsingPreProcessor p) (getRequirements p) (getObjects p)
                (getInits p) s (getConstraints p).

Definition setConstraints (c : list Constraint) (p : ProblemInfo) : ProblemInfo :=
  mkProblemInfo (problemInfoName p) (problemInfoDomainName p) (problemInfoTree p)
                (problemInfoText p) (getParsingProblems p)
                (getPreParsingPreProcessor p) (getRequirements p) (getObjects p)
                (getInits p) (getSupplyDemands p) c.

(* ================================================================== *)
(** * Inheritance parser and comment stripping *)
(* ================================================================== *)

(** The words of a text, separated by white space. *)
Fixpoint splitWords (s : list ascii) (word : list ascii) : list string :=
  match s with
  | [] => match word with [] => [] | _ => [string_of_list_ascii (rev word)] end
  | c :: r =>
      if Regex.isSpace c
      then match word with
           | [] => splitWords r []
           | _ => string_of_list_ascii (rev word) :: splitWords r []
           end
      else splitWords r (c :: word)
  end.

Definition addUnique (x : string) (l : list string) : list string :=
  if includes l x then l else (l ++ [x])%list.

(** Adds [names] to the children of [parent], an ordered set. *)
Definition addChildren (parent : string) (names : list string)
    (graph : JsMap.t (list string)) : JsMap.t (list string) :=
  match names with
  | [] => graph
  | _ =>
      let old := match JsMap.get graph parent with Some l => l | None => [] end in
      JsMap.set graph parent (fold_left (fun l x => addUnique x l) names old)
  end.

(** Modelled from the spec: the scan of PddlInheritanceParser.ts: names are
    buffered until a [-] separator is seen, then they become the children of
    the parent name that follows; the names left at the end of the input are
    attached to the default root. *)
Fixpoint scanInheritance (words : list string) (buffer : list string)
    (afterDash : bool) (graph : JsMap.t (list string)) : JsMap.t (list string) :=
  match words with
  | [] => addChildren "object" buffer graph
  | w :: rest =>
      if afterDash then scanInheritance rest [] false (addChildren w buffer graph)
      else if String.eqb w "-" then scanInheritance rest buffer true graph
      else scanInheritance rest (buffer ++ [w])%list false graph
  end.

Definition parseInheritance (declarationText : string) : JsMap.t (list string) :=
  scanInheritance (splitWords (list_ascii_of_string declarationText) []) [] false
                  JsMap.empty.

(** Modelled from the spec: [PddlInheritanceParser.toTypeObjects]: every type
    with the ordered set of the objects declared of it. *)
Definition toTypeObjects (graph : JsMap.t (list string))
    : list (string * list string) := graph.

(** Modelled from the spec: [stripComments] of FileInfo.ts: a comment begins
    at [;] and runs to the end of the line. *)
Fixpoint stripCommentsFrom (s : list ascii) (inComment : bool) : list ascii :=
  match s with
  | [] => []
  | c :: r =>
      if inComment
      then if Regex.notNewline c then stripCommentsFrom r true
           else c :: stripCommentsFrom r false
      else if Ascii.eqb c ";"%char then stripCommentsFrom r true
           else c :: stripCommentsFrom r false
  end.

Definition stripComments (pddlText : string) : string :=
  string_of_list_ascii (stripCommentsFrom (list_ascii_of_string pddlText) false).

(* ================================================================== *)
(** * PddlProblemParser *)
(* ================================================================== *)

Definition spaces : Regex.re := Regex.Star (Regex.Cls Regex.isSpace).

Definition spaces1 : Regex.re := Regex.Plus (Regex.Cls Regex.isSpace).

Definition nonSpaces1 : Regex.re := Regex.Plus (Regex.Cls Regex.notSpace).

(** [/^\s*\(define\s*\(problem\s+(\S+)\s*\)\s*\(:domain\s+(\S+)\s*\)/gi] *)
Definition problemPattern : Regex.re :=
  Regex.Seq Regex.Bos
  (Regex.Seq spaces
  (Regex.Seq (Regex.lit "(define")
  (Regex.Seq spaces
  (Regex.Seq (Regex.lit "(problem")
  (Regex.Seq spaces1
  (Regex.Seq (Regex.Group nonSpaces1)
  (Regex.Seq spaces
  (Regex.Seq (Regex.lit ")")
  (Regex.Seq spaces
  (Regex.Seq (Regex.lit "(:domain")
  (Regex.Seq spaces1
  (Regex.Seq (Regex.Group nonSpaces1)
  (Regex.Seq spaces
             (Regex.lit ")")))))))))))))).

(** [/\(\s*supply-demand/i] *)
Definition supplyDemandPattern : Regex.re :=
  Regex.Seq (Regex.lit "(") (Regex.Seq spaces (Regex.lit "supply-demand")).

(** [/.*/] *)
Definition anything : Regex.re := Regex.Star (Regex.Cls Regex.notNewline).

(** [s.substr(1)] *)
Definition substr1 (s : string) : string :=
  match s with
  | EmptyString => EmptyString
  | String _ r => r
  end.

(** The children of a bracket that are neither white space nor comments. *)
Definition meaningfulChildren (node : PddlSyntaxNode) : list PddlSyntaxNode :=
  filter (fun n => isNotType n Comment) (getNonWhitespaceChildren node).

(** [parseVariableValue]. In the [(not] case the recursive call is made while
    the children are searched, so that the definition is structural;
    [parseVariableValue_not] states it with [getFirstChild], as the source
    does. *)
Fixpoint parseVariableValue (node : PddlSyntaxNode) : option VariableValue :=
  match node with
  | mkNode token children closeToken =>
      if String.eqb (tokenText token) "(=" then
        match meaningfulChildren node with
        | t0 :: t1 :: _ =>
            if isType t0 OpenBracket && isType t1 Other
            then Some (mkVariableValue (getNestedText t0)
                         (NumericValue (parseFloat (nodeText t1))))
            else None
        | _ => None
        end
      else if String.eqb (tokenText token) "(not" then
        let firstChild :=
          fix firstChild (t : PddlTokenType) (cs : list PddlSyntaxNode)
              : option (option VariableValue) :=
            match cs with
            | [] => None
            | c :: r =>
                if isType c t && Regex.test false anything (tokenText (getToken c))
                then Some (parseVariableValue c)
                else firstChild t r
            end in
        match firstChild OpenBracket children with
        | Some nested => option_map negate nested
        | None =>
            match firstChild OpenBracketOperator children with
            | Some nested => option_map negate nested
            | None => None
            end
        end
      else if includes ["(forall"; "(assign"; "(increase"; "(decrease"]
                       (tokenText token)
      then Some (UnsupportedVariableValue (nodeText node))
      else
        if existsb (fun child => isOpenBracket (getToken child)) children
        then None
        else Some (mkVariableValue (substr1 (tokenText token) ++ getNestedText node)
                     (BooleanValue true))
  end.

Definition parseInit (bracket : PddlSyntaxNode) : option TimedVariableValue :=
  let timed :=
    if String.eqb (tokenText (getToken bracket)) "(at" then
      match meaningfulChildren bracket with
      | t0 :: t1 :: _ =>
          let time := parseFloat (nodeText t0) in
          if negb (isNaN time) then
            match parseVariableValue t1 with
            | Some variableValue => Some (TimedVariableValue_from time variableValue)
            | None => None
            end
          else None
      | _ => None
      end
    else None in
  match timed with
  | Some t => Some t
  | None =>
      match parseVariableValue bracket with
      | Some variableValue => Some (TimedVariableValue_from zero variableValue)
      | None => None
      end
  end.

Definition parseSupplyDemand (node : PddlSyntaxNode) : option SupplyDemand :=
  match getNonWhitespaceChildren node with
  | t0 :: _ => if isType t0 Other then Some (mkSupplyDemand (nodeText t0)) else None
  | [] => None
  end.

(** [l.map(f).filter(x => !!x).map(x => x!)] *)
Fixpoint mapDefined {A B : Type} (f : A -> option B) (l : list A) : list B :=
  match l with
  | [] => []
  | x :: r =>
      match f x with
      | Some y => y :: mapDefined f r
      | None => mapDefined f r
      end
  end.

Definition parseInitSection (initNode : PddlSyntaxNode)
    : list TimedVariableValue * list SupplyDemand :=
  let timedVariableValues :=
    mapDefined parseInit
      (filter (fun node => negb (Regex.test true supplyDemandPattern
                                   (tokenText (getToken node))))
         (filter (fun node => isOpenBracket (getToken node))
            (getChildren initNode))) in
  let supplyDemands :=
    mapDefined parseSupplyDemand
      (getChildrenOfType initNode OpenBracketOperator true supplyDemandPattern) in
  (timedVariableValues, supplyDemands).

(** What a method does: it returns a value or throws. *)
Inductive Outcome (A : Type) :=
| Returns (a : A)
| Throws.

Arguments Returns {A} a.
Arguments Throws {A}.

(** What a call into the pre-processor throws, as the [catch] block of
    [parse] tells it apart: a PreProcessingError with its message, line and
    column, or any other value, of which [message] is [ex.message || ex]. *)
Inductive Thrown :=
| PreProcessingError (message : string) (line column : Z)
| OtherError (message : string).

(** A call into the pre-processor: it gives a value or throws. *)
Inductive Attempt (A : Type) :=
| Succeeds (a : A)
| Fails (ex : Thrown).

Arguments Succeeds {A} a.
Arguments Fails {A} ex.

(** ProblemParserPreProcessor.ts is outside of the embedded files; [parse]
    calls its two methods: [createPreProcessor(fileText)], which gives a
    pre-processor or undefined, and [process(preProcessor, fileText,
    workingDirectory)], which gives the pre-processed text. *)
Record ProblemParserPreProcessor := mkProblemParserPreProcessor {
  createPreProcessor : string -> Attempt (option PreProcessor);
  process : option PreProcessor -> string -> string -> Attempt string
}.

(** A position of a document, and DocumentPositionResolver, which is outside
    of the embedded files: [resolveToPosition] of an offset, which may
    throw. *)
Record PddlPosition := mkPosition {
  positionLine : Z;
  positionCharacter : Z
}.

Definition DocumentPositionResolver : Type := Z -> Outcome PddlPosition.

(** The other functions PddlProblemParser.ts calls and does not define:
    - [fsPath] is [Util.fsPath], which may throw;
    - [dirname] is [dirname] of the Node module [path];
    - [parseRequirements defineNode fileInfo] is
      [PddlDomainParser.parseRequirements], which works on the file it is
      given: the result is the file as the call leaves it, unless it throws;
    - [parseConstraints constraintsNode] is
      [new PddlConstraintsParser().parseConstraints], which may throw. *)
Class ParserImports := {
  fsPath : string -> Outcome string;
  dirname : string -> string;
  parseRequirements : PddlSyntaxNode -> ProblemInfo -> Outcome ProblemInfo;
  parseConstraints : PddlSyntaxNode -> Outcome (list Constraint)
}.

(** [getProblemStructure]; it throws when the tree has no [define] node
    ([getDefineNodeOrThrow]) and when one of the two outside parsers throws. *)
Definition getProblemStructure `{ParserImports} (problemInfo : ProblemInfo)
    : Outcome ProblemInfo :=
  match getDefineNode (problemInfoTree problemInfo) with
  | None => Throws
  | Some defineNode =>
      match parseRequirements defineNode problemInfo with
      | Throws => Throws
      | Returns p0 =>
          let p1 :=
            match getFirstOpenBracket defineNode ":objects" with
            | Some objectsNode =>
                setObjects
                  (toTypeObjects
                     (parseInheritance (getNestedNonCommentText objectsNode)))
                  p0
            | None => p0
            end in
          let p2 :=
            match getFirstOpenBracket defineNode ":init" with
            | Some initNode =>
                let (values, supplyDemands) := parseInitSection initNode in
                setSupplyDemands supplyDemands (setInits values p1)
            | None => p1
            end in
          match getFirstOpenBracket defineNode ":constraints" with
          | Some constraintsNode =>
              match parseConstraints constraintsNode with
              | Returns constraints => Returns (setConstraints constraints p2)
              | Throws => Throws
              end
          | None => Returns p2
          end
      end
  end.

(** The [try] block of [parse]: with a pre-parser, the pre-processor made for
    the text and the text it gives ([inl]), or what was thrown, with the
    pre-processor if it had been made by then ([inr]); without one, the text
    as it is. *)
Definition preProcess (problemPreParser : option ProblemParserPreProcessor)
    (fileText workingDirectory : string)
    : (option PreProcessor * string) + (option PreProcessor * Thrown) :=
  match problemPreParser with
  | Some preParser =>
      match createPreProcessor preParser fileText with
      | Fails ex => inr (None, ex)
      | Succeeds preProcessor =>
          match process preParser preProcessor fileText workingDirectory with
          | Fails ex => inr (preProcessor, ex)
          | Succeeds processed => inl (preProcessor, processed)
          end
      end
  | None => inl (None, fileText)
  end.

(** [preProcessor?.metaDataLineOffset || 0] *)
Definition metaDataLineOffsetOrZero (preProcessor : option PreProcessor) : Z :=
  match preProcessor with
  | Some pp => match metaDataLineOffset pp with Some n => n | None => 0%Z end
  | None => 0%Z
  end.

(** The [catch] block of [parse]: the file is reported as the problem
    "unknown" of the domain "unknown", with the empty tree, the text as it
    was given and one parsing problem. For a thrown value that is not a
    PreProcessingError the line is asked of the position resolver. *)
Definition preProcessingFailed (fileText : string)
    (positionResolver : DocumentPositionResolver)
    (preProcessor : option PreProcessor) (ex : Thrown) : Outcome ProblemInfo :=
  let problemInfo := setText fileText (newProblemInfo "unknown" "unknown" EMPTY) in
  let withProblems :=
    match ex with
    | PreProcessingError message line column =>
        Returns (addProblems [mkParsingProblem message line column] problemInfo)
    | OtherError message =>
        match positionResolver (metaDataLineOffsetOrZero preProcessor) with
        | Returns position =>
            let line := positionLine position in
            Returns (addProblems [mkParsingProblem message line 0%Z] problemInfo)
        | Throws => Throws
        end
    end in
  match withProblems with
  | Returns problemInfo1 =>
      Returns match preProcessor with
              | Some pp => setPreParsingPreProcessor pp problemInfo1
              | None => problemInfo1
              end
  | Throws => Throws
  end.

(** [parse], for a parser made with ([Some]) or without ([None]) an extension
    context. The version is only stored and is left out. *)
Definition parse `{ParserImports}
    (problemPreParser : option ProblemParserPreProcessor)
    (fileUri : string) (fileText : string) (syntaxTree : PddlSyntaxTree)
    (positionResolver : DocumentPositionResolver)
    : Outcome (option ProblemInfo) :=
  match fsPath fileUri with
  | Throws => Throws
  | Returns filePath =>
      let workingDirectory := dirname filePath in
      match preProcess problemPreParser fileText workingDirectory with
      | inr (preProcessor, ex) =>
          match preProcessingFailed fileText positionResolver preProcessor ex with
          | Returns problemInfo => Returns (Some problemInfo)
          | Throws => Throws
          end
      | inl (preProcessor, fileText) =>
          let pddlText := stripComments fileText in
          match Regex.matchAtStart true problemPattern pddlText with
          | Some (_, [problemName; domainName]) =>
              let problemInfo :=
                setText fileText
                        (newProblemInfo problemName domainName syntaxTree) in
              match getProblemStructure problemInfo with
              | Returns p =>
                  Returns (Some match preProcessor with
                                | Some pp => setPreParsingPreProcessor pp p
                                | None => p
                                end)
              | Throws => Throws
              end
          | _ => Returns None
          end
      end
  end.

(* ================================================================== *)
(** * An instance of the imports, to run the workspace on examples *)
(* ================================================================== *)

Definition isUriDelimiter (c : ascii) : bool :=
  Ascii.eqb c ":"%char || Ascii.eqb c "/"%char || Ascii.eqb c "?"%char
  || Ascii.eqb c "#"%char.

(** The scheme of a URI: what comes before the first colon, [file] when
    there is none. *)
Definition exampleScheme (uri : string) : string :=
  let s := list_ascii_of_string uri in
  let scheme := takeWhile (fun c => negb (isUriDelimiter c)) s in
  match scheme, dropWhile (fun c => negb (isUriDelimiter c)) s with
  | _ :: _, c :: _ =>
      if Ascii.eqb c ":"%char then string_of_list_ascii scheme else "file"
  | _, _ => "file"
  end.

(** The path of a URI: what follows the scheme and the authority. *)
Definition examplePath (uri : string) : list ascii :=
  let s := list_ascii_of_string uri in
  let rest :=
    match dropWhile (fun c => negb (isUriDelimiter c)) s with
    | c :: r => if Ascii.eqb c ":"%char then r else s
    | [] => s
    end in
  if startsWith (list_ascii_of_string "//") rest
  then dropWhile (fun c => negb (Ascii.eqb c "/"%char)) (skipn 2 rest)
  else rest.

(** The directory of a path: what comes before its last slash. *)
Definition exampleDirname (uri : string) : string :=
  let p := rev (examplePath uri) in
  match dropWhile (fun c => negb (Ascii.eqb c "/"%char)) p with
  | _ :: (_ :: _) as dir => string_of_list_ascii (rev dir)
  | [_] => "/"
  | [] => "."
  end.

(** The file system path of a URI, and the directory of a path. *)
Definition exampleFsPath (uri : string) : string :=
  string_of_list_ascii (examplePath uri).

Definition examplePathDirname (path : string) : string :=
  match dropWhile (fun c => negb (Ascii.eqb c "/"%char))
                  (rev (list_ascii_of_string path)) with
  | _ :: (_ :: _) as dir => string_of_list_ascii (rev dir)
  | [_] => "/"
  | [] => "."
  end.

(** Modelled from the spec: the requirements are extracted as a set of flags,
    here the words of the [:requirements] bracket of the [define] node. *)
Definition exampleParseRequirements (defineNode : PddlSyntaxNode)
    (fileInfo : ProblemInfo) : Outcome ProblemInfo :=
  match getFirstOpenBracket defineNode ":requirements" with
  | Some requirementsNode =>
      Returns (setRequirements
                 (splitWords
                    (list_ascii_of_string (getNestedNonCommentText requirementsNode))
                    [])
                 fileInfo)
  | None => Returns fileInfo
  end.

(** The grammar of the constraints is outside of the embedded files; the
    example instance keeps every bracket of the section as one constraint. *)
Definition exampleParseConstraints (constraintsNode : PddlSyntaxNode)
    : Outcome (list Constraint) :=
  Returns (map (fun node => mkConstraint (nodeText node))
               (filter (fun node => isOpenBracket (getToken node))
                       (getChildren constraintsNode))).

Definition exampleParserImports : ParserImports := {|
  fsPath := fun uri => Returns (exampleFsPath uri);
  dirname := examplePathDirname;
  parseRequirements := exampleParseRequirements;
  parseConstraints := exampleParseConstraints
|}.

(** A position resolver for a text of one line. *)
Definition oneLineResolver : DocumentPositionResolver :=
  fun offset => Returns (mkPosition 0%Z offset).

(** [Parser.tryProblem] on the tree the workspace builds from the text, with
    a parser made without an extension context; its result depends neither on
    the URI nor on the position resolver. *)
Definition parseProblemText (fileText : string) : Outcome (option ProblemInfo) :=
  @parse exampleParserImports None EmptyString fileText (getTree fileText)
         oneLineResolver.

(** Modelled from the spec: the header of a domain,
    [(define (domain NAME) ...)], matched by a pattern anchored at the start
    of the comment-stripped text. *)
Definition domainPattern : Regex.re :=
  Regex.Seq Regex.Bos
  (Regex.Seq spaces
  (Regex.Seq (Regex.lit "(define")
  (Regex.Seq spaces
  (Regex.Seq (Regex.lit "(domain")
  (Regex.Seq spaces1
  (Regex.Seq (Regex.Group nonSpaces1)
  (Regex.Seq spaces
             (Regex.lit ")")))))))).

Definition exampleTryDomain (uri : string) (fileVersion : Z) (fileText : string)
    : option string :=
  match Regex.matchAtStart true domainPattern (stripComments fileText) with
  | Some (_, [n]) => Some n
  | _ => None
  end.

Definition exampleTryProblem (uri : string) (fileVersion : Z) (fileText : string)
    : option (string * string) :=
  match parseProblemText fileText with
  | Returns (Some p) => Some (problemInfoName p, problemInfoDomainName p)
  | _ => None
  end.

(** The plan and happenings parsers are outside of the two files embedded
    here; the example instance reads the names from the header lines
    [;;!domain: D] and [;;!problem: P] of the text. *)
Definition headerValue (key : string) (fileText : string) : string :=
  match Regex.execFrom true
          (Regex.Seq (Regex.lit key) (Regex.Seq spaces (Regex.Group nonSpaces1)))
          0 (list_ascii_of_string fileText) with
  | Some [v] => v
  | _ => "unspecified"
  end.

Definition exampleParsePlan (uri : string) (fileVersion : Z) (fileText : string)
    : string * string :=
  (headerValue ";;!problem:" fileText, headerValue ";;!domain:" fileText).

Definition exampleImports : Imports := {|
  uriScheme := exampleScheme;
  fsDirname := exampleDirname;
  tryDomain := exampleTryDomain;
  tryProblem := exampleTryProblem;
  parsePlan := exampleParsePlan;
  parseHappenings := exampleParsePlan
|}.

Definition domainUri : string := "file:///w/domain.pddl".
Definition problemUri : string := "file:///w/p1.pddl".
Definition problem2Uri : string := "file:///w/p2.pddl".
Definition planUri : string := "file:///w/p1.plan".
Definition happeningsUri : string := "file:///w/p1.happenings".
Definition gitUri : string := "git:/w/domain.pddl".

Definition domainText : string := "(define (domain d1) (:predicates (visited ?l)))".
Definition domainText2 : string :=
  "(define (domain d1) (:predicates (visited ?l) (seen ?l)))".
Definition problemText : string :=
  "(define (problem p1) (:domain d1) (:objects a b - loc) (:init (at 5 (visited a))))".
Definition problem2Text : string :=
  "(define (problem p2) (:domain D1) (:init (visited a)))".
Definition planText : string :=
  ";;!domain: d1
;;!problem: P1
0.001: (move a b) [1.000]".

Definition keepReferences : FileRemovalOptions := {| removeAllReferences := false |}.

Definition exampleDomain : FileInfo :=
  @parseFile exampleImports domainUri PDDL 1 domainText.
Definition exampleProblem : FileInfo :=
  @parseFile exampleImports problemUri PDDL 1 problemText.
Definition exampleProblem2 : FileInfo :=
  @parseFile exampleImports problem2Uri PDDL 1 problem2Text.
Definition examplePlan : FileInfo :=
  @parseFile exampleImports planUri PLAN 1 planText.
Definition exampleHappenings : FileInfo :=
  @parseFile exampleImports happeningsUri HAPPENINGS 1 planText.

(** A folder with two problems, a plan and a happenings file of the first
    problem, and no domain yet. *)
Definition problemsOperations : list Operation :=
  [OpUpsertFile problemUri PDDL 1 problemText false;
   OpUpsertFile problem2Uri PDDL 1 problem2Text false;
   OpUpsertFile planUri PLAN 1 planText false;
   OpUpsertFile happeningsUri HAPPENINGS 1 planText false].

Definition problemsWorkspace : PddlWorkspace :=
  @performAll exampleImports problemsOperations newWorkspace.

(** The same folder after its domain was opened. *)
Definition exampleOperations : list Operation :=
  [OpUpsertFile problemUri PDDL 1 problemText false;
   OpUpsertFile problem2Uri PDDL 1 problem2Text false;
   OpUpsertFile planUri PLAN 1 planText false;
   OpUpsertFile happeningsUri HAPPENINGS 1 planText false;
   OpUpsertFile domainUri PDDL 1 domainText false].

Definition exampleWorkspace : PddlWorkspace :=
  @performAll exampleImports exampleOperations newWorkspace.

(** The domain was edited (version 2) and is waiting for the batch re-parse. *)
Definition editedOperations : list Operation :=
  [OpUpsertFile problemUri PDDL 1 problemText false;
   OpUpsertFile problem2Uri PDDL 1 problem2Text false;
   OpUpsertFile planUri PLAN 1 planText false;
   OpUpsertFile happeningsUri HAPPENINGS 1 planText false;
   OpUpsertFile domainUri PDDL 1 domainText false;
   OpUpsertFile domainUri PDDL 2 domainText2 false].

Definition editedWorkspace : PddlWorkspace :=
  @performAll exampleImports editedOperations newWorkspace.

(** The plan and the happenings file of the first problem were both
    associated with the second problem. *)
Definition associatedOperations : list Operation :=
  [OpUpsertFile problemUri PDDL 1 problemText false;
   OpUpsertFile problem2Uri PDDL 1 problem2Text false;
   OpUpsertFile planUri PLAN 1 planText false;
   OpUpsertFile happeningsUri HAPPENINGS 1 planText false;
   OpUpsertFile domainUri PDDL 1 domainText false;
   OpAssociatePlanToProblem planUri exampleProblem2;
   OpAssociatePlanToProblem happeningsUri exampleProblem2].

Definition associatedWorkspace : PddlWorkspace :=
  @performAll exampleImports associatedOperations newWorkspace.

(** A file that was opened at version 5, closed, and opened again at
    version 1. *)
Definition reopenedOperations : list Operation :=
  [OpUpsertFile domainUri PDDL 5 domainText false;
   OpRemoveFile domainUri keepReferences;
   OpUpsertFile domainUri PDDL 1 domainText false].

Definition reopenedWorkspace : PddlWorkspace :=
  @performAll exampleImports reopenedOperations newWorkspace.

(** The first problem, its plan and its happenings file after an edit
    (version 2), waiting for the batch re-parse. *)
Definition problemText2 : string :=
  "(define (problem p1) (:domain d1) (:objects a b c - loc) (:init (at 5 (visited a))))".

Definition dirtyProblem : FileInfo := snd (update exampleProblem 2 problemText2 false).
Definition dirtyPlan : FileInfo := snd (update examplePlan 2 planText false).
Definition dirtyHappenings : FileInfo :=
  snd (update exampleHappenings 2 planText false).

(** The folder of the two problems, with no domain yet, after these edits. *)
Definition dirtyProblemsOperations : list Operation :=
  [OpUpsertFile problemUri PDDL 1 problemText false;
   OpUpsertFile problem2Uri PDDL 1 problem2Text false;
   OpUpsertFile planUri PLAN 1 planText false;
   OpUpsertFile happeningsUri HAPPENINGS 1 planText false;
   OpUpsertFile problemUri PDDL 2 problemText2 false;
   OpUpsertFile planUri PLAN 2 planText false;
   OpUpsertFile happeningsUri HAPPENINGS 2 planText false].

Definition dirtyProblemsWorkspace : PddlWorkspace :=
  @performAll exampleImports dirtyProblemsOperations newWorkspace.

(** The domain of the example after its edit (version 2), as
    [editedWorkspace] holds it. *)
Definition editedDomain : FileInfo := snd (update exampleDomain 2 domainText2 false).

(** A pre-parser whose template cannot be rendered: the pre-processor is
    made, and [process] throws a PreProcessingError at line 3, column 7. *)
Definition templatePreProcessor : PreProcessor := mkPreProcessor (Some 2%Z).

Definition failingPreParser : ProblemParserPreProcessor := {|
  createPreProcessor := fun _ => Succeeds (Some templatePreProcessor);
  process := fun _ _ _ => Fails (PreProcessingError "template error" 3 7)
|}.

(** A pre-parser that renders every text to the text of the second
    problem. *)
Definition renderingPreParser : ProblemParserPreProcessor := {|
  createPreProcessor := fun _ => Succeeds (Some templatePreProcessor);
  process := fun _ _ _ => Succeeds problem2Text
|}.

(** A text with no problem header. *)
Definition templateText : string := "{{ problem }}".

(** The [:init] node of the tree of a text. *)
Definition initNodeOf (fileText : string) : option PddlSyntaxNode :=
  match getDefineNode (getTree fileText) with
  | Some defineNode => getFirstOpenBracket defineNode ":init"
  | None => None
  end.

(** The brackets of a node. *)
Definition brackets (node : PddlSyntaxNode) : list PddlSyntaxNode :=
  filter (fun n => isOpenBracket (getToken n)) (getChildren node).

Definition nodeOrEmpty (o : option PddlSyntaxNode) : PddlSyntaxNode :=
  match o with
  | Some n => n
  | None => mkNode documentToken [] None
  end.

Definition unsupportedText : string :=
  "(define (problem p3) (:domain d1) (:init (assign (fuel a) 3) (visited a)))".

(** The [:init] node of [unsupportedText] and its first bracket. *)
Definition assignInit : PddlSyntaxNode := nodeOrEmpty (initNodeOf unsupportedText).
Definition assignBracket : PddlSyntaxNode :=
  nodeOrEmpty (nth_error (brackets assignInit) 0).




(* ================================================================== *)
(** * Vocabulary of the statements *)
(* ================================================================== *)

(** [quiet ws ws']: nothing was emitted between [ws] and [ws']. *)
Definition quiet (ws ws' : PddlWorkspace) : Prop :=
  lastVersionUpdateEmitted ws' = lastVersionUpdateEmitted ws
  /\ emitted ws' = emitted ws.

(** [emits ws ws']: between [ws] and [ws'] the log and the table of last
    versions were changed by [emitIfNew] only. *)
Inductive emits : PddlWorkspace -> PddlWorkspace -> Prop :=
| emits_quiet ws ws' : quiet ws ws' -> emits ws ws'
| emits_one ws symbol fileInfo : emits ws (emitIfNew symbol fileInfo ws)
| emits_trans ws ws1 ws2 : emits ws ws1 -> emits ws1 ws2 -> emits ws ws2.

(** Every UPDATED event in the log is for a version that is at most the last
    version recorded for its URI, and no (uri, version) pair occurs twice. *)
Definition updatesOrdered (ws : PddlWorkspace) : Prop :=
  NoDup (updatedPairs ws)
  /\ forall u v, In (u, v) (updatedPairs ws) ->
       exists last, JsMap.get (lastVersionUpdateEmitted ws) u = Some last
                    /\ (v <= last)%Z.

(** The file stored under [key] in the folder [path]. *)
Definition fileAt (ws : PddlWorkspace) (path key : string) : option FileInfo :=
  match JsMap.get (folders ws) path with
  | Some folder => JsMap.get (files folder) key
  | None => None
  end.

(** Between [ws] and [ws'] the stored files were kept; some were set to
    Parsed. *)
Definition settles (ws ws' : PddlWorkspace) : Prop :=
  forall path key f,
    fileAt ws path key = Some f ->
    fileAt ws' path key = Some f
    \/ fileAt ws' path key = Some (setStatus Parsed f).

(** The slot holds [f], as it was or set to Parsed. *)
Definition heldAt (ws : PddlWorkspace) (path key : string) (f : FileInfo) : Prop :=
  fileAt ws path key = Some f \/ fileAt ws path key = Some (setStatus Parsed f).

Definition parsedAt (ws : PddlWorkspace) (path key : string) : Prop :=
  exists f, fileAt ws path key = Some f /\ getStatus f = Parsed.

(** No two folders share a path and no two files of a folder share a key. *)
Definition uniqueKeys (ws : PddlWorkspace) : Prop :=
  NoDup (JsMap.keys (folders ws))
  /\ forall path folder,
       In (path, folder) (folders ws) -> NoDup (JsMap.keys (files folder)).

(** The workspaces the operations lead to from the empty one. *)
Definition reachable `{Imports} (ws : PddlWorkspace) : Prop :=
  exists ops, ws = performAll ops newWorkspace.

(** The loop of [parseAllDirty] over a list of files. *)
Definition reParseAll `{Imports} (l : list FileInfo) (ws : PddlWorkspace)
    : PddlWorkspace :=
  fold_left (fun w file => snd (reParseFile file w)) l ws.

(** The UPDATED events of a URI were emitted in the order of their versions,
    and the version recorded for a URI is the last one emitted for it. *)
Definition updatesIncreasing (ws : PddlWorkspace) : Prop :=
  ForallOrdPairs (fun a b => fst a = fst b -> (snd a < snd b)%Z) (updatedPairs ws)
  /\ (forall u v, In (u, v) (updatedPairs ws) ->
        exists last, JsMap.get (lastVersionUpdateEmitted ws) u = Some last
                     /\ (v <= last)%Z)
  /\ (forall u last, JsMap.get (lastVersionUpdateEmitted ws) u = Some last ->
                     In (u, last) (updatedPairs ws)).

(** The log of [ws'] extends the log of [ws], and no recorded version was
    dropped or lowered. *)
Definition extends (ws ws' : PddlWorkspace) : Prop :=
  (exists l, emitted ws' = (emitted ws ++ l)%list)
  /\ forall u last,
       JsMap.get (lastVersionUpdateEmitted ws) u = Some last ->
       exists last', JsMap.get (lastVersionUpdateEmitted ws') u = Some last'
                     /\ (last <= last')%Z.

(** The [:init] node of [problemText] and its bracket, [(at 5 (visited a))]. *)
Definition timedInit : PddlSyntaxNode := nodeOrEmpty (initNodeOf problemText).
Definition timedBracket : PddlSyntaxNode :=
  nodeOrEmpty (nth_error (brackets timedInit) 0).

(** A name: a string that is not empty and has no white space. *)
Definition isName (s : string) : bool :=
  negb (String.eqb s "") && forallb Regex.notSpace (list_ascii_of_string s).

(** The patterns whose groups are all [(\S+)] and are not repeated, with the
    number of their groups. *)
Inductive nameGroups : Regex.re -> nat -> Prop :=
| nameGroups_Eps : nameGroups Regex.Eps 0
| nameGroups_Chr c : nameGroups (Regex.Chr c) 0
| nameGroups_Cls p : nameGroups (Regex.Cls p) 0
| nameGroups_Seq a b n m k :
    nameGroups a n -> nameGroups b m -> k = (n + m)%nat ->
    nameGroups (Regex.Seq a b) k
| nameGroups_Star a : nameGroups a 0 -> nameGroups (Regex.Star a) 0
| nameGroups_Group : nameGroups (Regex.Group nonSpaces1) 1
| nameGroups_Bos : nameGroups Regex.Bos 0
| nameGroups_Eos : nameGroups Regex.Eos 0.

(** What was thrown, as the message of the parsing problem. *)
Definition thrownMessage (ex : Thrown) : string :=
  match ex with
  | PreProcessingError message _ _ => message
  | OtherError message => message
  end.

(** Between [ws] and [ws'] only statuses were set to Parsed and only UPDATED
    events were emitted, each for a file in status Parsed. *)
Definition statusesOnly (ws ws' : PddlWorkspace) : Prop :=
  (forall path key,
      option_map (setStatus Parsed) (fileAt ws' path key)
      = option_map (setStatus Parsed) (fileAt ws path key))
  /\ (exists l, emitted ws' = (emitted ws ++ l)%list
                /\ Forall (fun e => fst e = UPDATED /\ getStatus (snd e) = Parsed) l)
  /\ problemToDomainMap ws' = problemToDomainMap ws
  /\ planToProblemMap ws' = planToProblemMap ws
  /\ parsingTimeout ws' = parsingTimeout ws.

(* ================================================================== *)
(** * Facts about [JsMap] *)
(* ================================================================== *)

Section JsMapFacts.
Context {V : Type}.
Implicit Types (m : JsMap.t V) (k : string) (v : V).

Lemma JsMap_get_set m k v k' :
  JsMap.get (JsMap.set m k v) k' = if String.eqb k k' then Some v else JsMap.get m k'.
Proof.
  induction m as [|[k0 v0] m IH]; simpl.
  - destruct (String.eqb_spec k k'); reflexivity.
  - destruct (String.eqb_spec k0 k) as [->|Hne]; simpl.
    + destruct (String.eqb_spec k k'); reflexivity.
    + rewrite IH. destruct (String.eqb_spec k0 k') as [->|]; [|reflexivity].
      destruct (String.eqb_spec k k'); congruence.
Qed.

Lemma JsMap_get_adjust (f : V -> V) m k k' :
  JsMap.get (JsMap.adjust f k m) k'
  = if String.eqb k k' then option_map f (JsMap.get m k') else JsMap.get m k'.
Proof.
  induction m as [|[k0 v0] m IH]; simpl.
  - destruct (String.eqb k k'); reflexivity.
  - destruct (String.eqb_spec k0 k) as [->|Hne]; simpl.
    + destruct (String.eqb_spec k k'); [reflexivity|exact IH].
    + rewrite IH. destruct (String.eqb_spec k0 k') as [->|]; [|reflexivity].
      destruct (String.eqb_spec k k'); congruence.
Qed.

Lemma JsMap_get_delete m k k' :
  JsMap.get (JsMap.delete m k) k'
  = if String.eqb k k' then None else JsMap.get m k'.
Proof.
  induction m as [|[k0 v0] m IH]; simpl.
  - destruct (String.eqb k k'); reflexivity.
  - destruct (String.eqb_spec k0 k) as [->|Hne]; simpl.
    + rewrite IH. destruct (String.eqb_spec k k'); reflexivity.
    + rewrite IH. destruct (String.eqb_spec k0 k') as [->|]; [|reflexivity].
      destruct (String.eqb_spec k k'); congruence.
Qed.

Lemma JsMap_get_In m k v : JsMap.get m k = Some v -> In (k, v) m.
Proof.
  induction m as [|[k0 v0] m IH]; simpl; [discriminate|].
  destruct (String.eqb_spec k0 k) as [->|]; intros E.
  - left. congruence.
  - right. auto.
Qed.

Lemma JsMap_In_get_some m k v : In (k, v) m -> exists v', JsMap.get m k = Some v'.
Proof.
  induction m as [|[k0 v0] m IH]; simpl; [contradiction|].
  intros [E|HIn].
  - inversion E; subst. rewrite String.eqb_refl. eauto.
  - destruct (String.eqb k0 k); eauto.
Qed.

Lemma JsMap_In_set m k v k' v' :
  In (k', v') (JsMap.set m k v) -> (k' = k /\ v' = v) \/ In (k', v') m.
Proof.
  induction m as [|[k0 v0] m IH]; simpl.
  - intros [E|[]]. inversion E. auto.
  - destruct (String.eqb_spec k0 k) as [->|]; simpl.
    + intros [E|HIn]; [inversion E; auto|auto].
    + intros [E|HIn]; [auto|]. destruct (IH HIn); auto.
Qed.

Lemma JsMap_In_adjust (f : V -> V) m k k' v' :
  In (k', v') (JsMap.adjust f k m) ->
  exists v0, In (k', v0) m /\ (v' = v0 \/ (k' = k /\ v' = f v0)).
Proof.
  unfold JsMap.adjust. rewrite in_map_iff. intros [[k0 v0] [E HIn]]. simpl in E.
  destruct (String.eqb_spec k0 k) as [->|]; inversion E; subst; eauto.
Qed.

Lemma JsMap_In_delete m k kv : In kv (JsMap.delete m k) -> In kv m.
Proof. unfold JsMap.delete. rewrite filter_In. tauto. Qed.

Lemma JsMap_has_true m k : JsMap.has m k = true <-> exists v, JsMap.get m k = Some v.
Proof.
  unfold JsMap.has. destruct (JsMap.get m k); split; eauto; try discriminate.
  intros [v E]. discriminate.
Qed.

Lemma JsMap_has_false m k : JsMap.has m k = false <-> JsMap.get m k = None.
Proof. unfold JsMap.has. destruct (JsMap.get m k); split; congruence. Qed.

End JsMapFacts.

Lemma includes_In l x : includes l x = true <-> In x l.
Proof.
  unfold includes. rewrite existsb_exists. split.
  - intros [y [HIn E]]. apply String.eqb_eq in E. congruence.
  - intros HIn. exists x. split; [assumption|apply String.eqb_refl].
Qed.

Lemma setStatus_idem st st' f : setStatus st (setStatus st' f) = setStatus st f.
Proof. reflexivity. Qed.

Lemma setStatus_same f : setStatus (getStatus f) f = f.
Proof. destruct f; reflexivity. Qed.

(* ================================================================== *)
(** * The log of events *)
(* ================================================================== *)

Create HintDb ws.

#[local] Hint Constructors emits : ws.

Lemma quiet_refl ws : quiet ws ws.
Proof. split; reflexivity. Qed.

Lemma emits_refl ws : emits ws ws.
Proof. apply emits_quiet, quiet_refl. Qed.

#[local] Hint Resolve quiet_refl emits_refl : ws.

Lemma emits_fold_left {A : Type} (f : PddlWorkspace -> A -> PddlWorkspace) l :
  (forall w x, emits w (f w x)) -> forall ws, emits ws (fold_left f l ws).
Proof.
  intros Hf. induction l as [|x l IH]; intros ws; simpl; [auto with ws|].
  eapply emits_trans; [apply Hf|apply IH].
Qed.

Lemma quiet_onFolder path f ws : quiet ws (onFolder path f ws).
Proof. split; reflexivity. Qed.

Lemma quiet_upsertFolder path ws : quiet ws (snd (upsertFolder path ws)).
Proof. unfold upsertFolder. destruct (JsMap.get _ _); split; reflexivity. Qed.

#[local] Hint Resolve quiet_onFolder quiet_upsertFolder : ws.

Section EmitsOperations.
Context `{Imports}.

Lemma emits_invalidateDiagnostics f ws : emits ws (invalidateDiagnostics f ws).
Proof.
  unfold invalidateDiagnostics, onFile, onFileAt.
  eapply emits_trans; [apply emits_quiet, quiet_onFolder|apply emits_one].
Qed.

Lemma emits_markPlansAsDirty p ws : emits ws (markPlansAsDirty p ws).
Proof.
  unfold markPlansAsDirty.
  set (ws1 := fold_left _ (getPlanFiles ws p) ws).
  apply emits_trans with ws1; [subst ws1|];
    apply emits_fold_left; intros; apply emits_invalidateDiagnostics.
Qed.

Lemma emits_markProblemsAsDirty d ws : emits ws (markProblemsAsDirty d ws).
Proof.
  unfold markProblemsAsDirty. apply emits_fold_left. intros w x.
  eapply emits_trans; [apply emits_invalidateDiagnostics|apply emits_markPlansAsDirty].
Qed.

Lemma emits_insertFile path uri language v t ws :
  emits ws (snd (insertFile path uri language v t ws)).
Proof.
  unfold insertFile; simpl.
  eapply emits_trans; [|apply emits_one].
  eapply emits_trans; [|apply emits_one].
  eapply emits_trans; [apply emits_quiet, quiet_onFolder|].
  destruct (isDomain _); [apply emits_markProblemsAsDirty|].
  destruct (isProblem _); [apply emits_markPlansAsDirty|apply emits_refl].
Qed.

Lemma emits_upsertFile uri language v t force ws :
  emits ws (snd (upsertFile uri language v t force ws)).
Proof.
  unfold upsertFile.
  pose proof (quiet_upsertFolder (getFolderPath uri) ws) as Hq.
  destruct (upsertFolder (getFolderPath uri) ws) as [folder ws1]; simpl in Hq.
  eapply emits_trans; [apply emits_quiet, Hq|].
  destruct (Folder_get folder uri) as [fileInfo|]; [|apply emits_insertFile].
  destruct (update fileInfo v t force) as [[|] fileInfo']; simpl;
    apply emits_quiet; split; reflexivity.
Qed.

Lemma emits_reParseFile f ws : emits ws (snd (reParseFile f ws)).
Proof.
  unfold reParseFile.
  pose proof (quiet_upsertFolder (getFolderPath (fileUri f)) ws) as Hq.
  destruct (upsertFolder (getFolderPath (fileUri f)) ws) as [folder ws1]; simpl in *.
  eapply emits_trans; [apply emits_quiet, Hq|].
  eapply emits_trans; [|apply emits_one].
  eapply emits_trans; apply emits_quiet, quiet_onFolder.
Qed.

Lemma emits_upsertAndParseFile uri language v t ws :
  emits ws (snd (upsertAndParseFile uri language v t ws)).
Proof.
  unfold upsertAndParseFile.
  pose proof (emits_upsertFile uri language v t false ws) as He.
  destruct (upsertFile uri language v t false ws) as [f ws1]; simpl in He.
  destruct (getStatus f); [exact He|].
  eapply emits_trans; [exact He|apply emits_reParseFile].
Qed.

Lemma emits_parseAllDirty ws : emits ws (parseAllDirty ws).
Proof.
  unfold parseAllDirty. apply emits_fold_left. intros; apply emits_reParseFile.
Qed.

Lemma emits_removeFile uri options ws : emits ws (snd (removeFile uri options ws)).
Proof.
  unfold removeFile.
  destruct (_ && _); [apply emits_refl|].
  destruct (JsMap.get _ _) as [folder|]; [|apply emits_refl].
  destruct (Folder_get folder uri) as [d|]; [|apply emits_refl]. simpl.
  eapply emits_trans; [apply emits_one|apply emits_quiet, quiet_onFolder].
Qed.

Lemma emits_perform op ws : emits ws (perform ws op).
Proof.
  destruct op; simpl.
  - apply emits_upsertFile.
  - apply emits_upsertAndParseFile.
  - apply emits_reParseFile.
  - unfold parsingTimeoutFires. destruct (parsingTimeout ws); [|apply emits_refl].
    eapply emits_trans; [|apply emits_parseAllDirty].
    apply emits_quiet; split; reflexivity.
  - apply emits_invalidateDiagnostics.
  - apply emits_markProblemsAsDirty.
  - apply emits_markPlansAsDirty.
  - apply emits_quiet; split; reflexivity.
  - apply emits_removeFile.
  - apply emits_quiet; split; reflexivity.
  - apply emits_quiet; split; reflexivity.
Qed.

Lemma emits_performAll ops ws : emits ws (performAll ops ws).
Proof. unfold performAll. apply emits_fold_left. intros; apply emits_perform. Qed.

End EmitsOperations.

Lemma updatedPairs_emit symbol f ws :
  updatedPairs (emit symbol f ws)
  = (updatedPairs ws
     ++ if isUPDATED symbol then [(fileUri f, getVersion f)] else [])%list.
Proof.
  unfold updatedPairs, emit; simpl. rewrite filter_app, map_app. simpl.
  destruct (isUPDATED symbol); reflexivity.
Qed.

Lemma NoDup_snoc {A : Type} (l : list A) x : NoDup l -> ~ In x l -> NoDup (l ++ [x]).
Proof.
  intros Hnd Hx. induction Hnd as [|y l Hy Hnd IH]; simpl.
  - constructor; [intros []|constructor].
  - constructor.
    + rewrite in_app_iff. intros [HIn|[E|[]]]; [auto|]. subst. apply Hx. left; reflexivity.
    + apply IH. intros HIn. apply Hx. right; assumption.
Qed.

Lemma updatesOrdered_emitIfNew symbol f ws :
  updatesOrdered ws -> updatesOrdered (emitIfNew symbol f ws).
Proof.
  intros [Hnd Hle]. unfold emitIfNew.
  destruct symbol; simpl;
    try (split; [rewrite updatedPairs_emit, app_nil_r; exact Hnd
                |intros u v; rewrite updatedPairs_emit, app_nil_r; apply Hle]).
  assert (Hnew : (forall last, JsMap.get (lastVersionUpdateEmitted ws) (fileUri f) = Some last ->
                               (last < getVersion f)%Z) ->
                 updatesOrdered (emit UPDATED f (setLastVersion (fileUri f) (getVersion f) ws))).
  { intros Hlt. split.
    - rewrite updatedPairs_emit. simpl. apply NoDup_snoc; [exact Hnd|].
      intros HIn. destruct (Hle _ _ HIn) as [last [E Hv]].
      specialize (Hlt _ E). lia.
    - intros u v. rewrite updatedPairs_emit. simpl. rewrite in_app_iff.
      rewrite JsMap_get_set.
      destruct (String.eqb_spec (fileUri f) u) as [<-|Hne].
      + intros [HIn|[E|[]]].
        * destruct (Hle _ _ HIn) as [last [E Hv]]. specialize (Hlt _ E).
          exists (getVersion f). split; [reflexivity|lia].
        * inversion E; subst. exists (getVersion f). split; [reflexivity|lia].
      + intros [HIn|[E|[]]]; [apply Hle; exact HIn|]. inversion E; congruence. }
  destruct (JsMap.get (lastVersionUpdateEmitted ws) (fileUri f)) as [last|] eqn:E.
  - destruct (Z.leb_spec (getVersion f) last); [split; assumption|].
    apply Hnew. intros last' E'. inversion E'; subst. assumption.
  - apply Hnew. discriminate.
Qed.

Lemma updatesOrdered_emits ws ws' : emits ws ws' -> updatesOrdered ws -> updatesOrdered ws'.
Proof.
  induction 1 as [ws ws' [Hl He]|ws symbol f|ws ws1 ws2 _ IH1 _ IH2]; intros Hws.
  - unfold updatesOrdered, updatedPairs in *. rewrite Hl, He. exact Hws.
  - apply updatesOrdered_emitIfNew, Hws.
  - auto.
Qed.

Lemma updatesOrdered_newWorkspace : updatesOrdered newWorkspace.
Proof. split; [constructor|intros u v []]. Qed.

(* ================================================================== *)
(** * Change notification *)
(* ================================================================== *)

Lemma emitted_snoc_neq {A : Type} (l : list A) x : l <> (l ++ [x])%list.
Proof.
  intros E. apply (f_equal (@List.length A)) in E.
  rewrite length_app in E. simpl in E. lia.
Qed.

(** C4, as the code has it: over every sequence of workspace operations the
    UPDATED event is never emitted twice for the same (fileUri, version)
    pair; and after an attempt to emit UPDATED for version N, the UPDATED
    event for version N+1 of the same file is emitted exactly when no version
    above N was recorded for that URI before the attempt -- so it is emitted
    when the UPDATED event of version N was emitted or was suppressed as a
    repetition of N, and is suppressed with it when a later version had
    already been announced. *)
Theorem updated_once_per_version `{Imports} (ops : list Operation) :
  let ws := performAll ops newWorkspace in
  NoDup (updatedPairs ws)
  /\ forall f f',
       fileUri f' = fileUri f ->
       getVersion f' = (getVersion f + 1)%Z ->
       let ws1 := emitIfNew UPDATED f ws in
       emitted (emitIfNew UPDATED f' ws1) = (emitted ws1 ++ [(UPDATED, f')])%list
       <-> (forall last,
              JsMap.get (lastVersionUpdateEmitted ws) (fileUri f) = Some last ->
              (last <= getVersion f)%Z).
Proof.
  intros ws. split.
  - apply (updatesOrdered_emits newWorkspace ws);
      [apply emits_performAll|apply updatesOrdered_newWorkspace].
  - intros f f' Huri Hv ws1. subst ws1. generalize ws. clear ws. intros ws.
    unfold emitIfNew at 2 3. simpl.
    destruct (JsMap.get (lastVersionUpdateEmitted ws) (fileUri f)) as [last|] eqn:E.
    + destruct (Z.leb_spec (getVersion f) last) as [Hle|Hgt].
      * unfold emitIfNew. simpl. rewrite Huri, E, Hv.
        destruct (Z.leb_spec (getVersion f + 1) last) as [Hle'|Hgt']; simpl.
        -- split; [intros Habs; exfalso; exact (emitted_snoc_neq _ _ Habs)|].
           intros Hlast. specialize (Hlast _ eq_refl). lia.
        -- split; [|reflexivity]. intros _ l El. inversion El; subst. lia.
      * unfold emitIfNew. simpl. rewrite Huri, JsMap_get_set, String.eqb_refl, Hv.
        destruct (Z.leb_spec (getVersion f + 1) (getVersion f)) as [Hle'|Hgt']; [lia|].
        simpl. split; [|reflexivity]. intros _ l El. inversion El; subst. lia.
    + unfold emitIfNew. simpl. rewrite Huri, JsMap_get_set, String.eqb_refl, Hv.
      destruct (Z.leb_spec (getVersion f + 1) (getVersion f)) as [Hle'|Hgt']; [lia|].
      simpl. split; [|reflexivity]. intros _ l El. discriminate.
Qed.

(** C4, witness: in the example workspace the domain was announced at
    version 1; the UPDATED events of versions 2 and 3 are both emitted. *)
Lemma updated_once_per_version_witness :
  let f := setStatus Parsed (snd (update exampleDomain 2 domainText2 false)) in
  let f' := setStatus Parsed (snd (update exampleDomain 3 domainText false)) in
  let ws1 := emitIfNew UPDATED f exampleWorkspace in
  emitted (emitIfNew UPDATED f' ws1) = (emitted ws1 ++ [(UPDATED, f')])%list.
Proof.
  intros f f' ws1.
  apply (proj2 (@updated_once_per_version exampleImports exampleOperations) f f').
  - vm_compute. reflexivity.
  - vm_compute. reflexivity.
  - intros last E. vm_compute in E. inversion E. vm_compute. discriminate.
Defined.

(** C4, counterexample: a file announced at version 5 is closed and opened
    again at version 1, whose UPDATED event is suppressed; the file is then
    edited to version 2 and re-parsed by the batch, and the UPDATED event of
    version 2 is suppressed as well: the log does not change. *)
Lemma updated_next_version_counterexample :
  let ws' := @performAll exampleImports
               [OpUpsertFile domainUri PDDL 2 domainText2 false;
                OpParsingTimeoutFires] reopenedWorkspace in
  ~ In (domainUri, 1%Z) (updatedPairs reopenedWorkspace)
  /\ option_map (fun f => (getVersion f, getStatus f))
                (@getFileInfo exampleImports ws' domainUri) = Some (2%Z, Parsed)
  /\ emitted ws' = emitted reopenedWorkspace
  /\ ~ In (domainUri, 2%Z) (updatedPairs ws').
Proof.
  vm_compute. repeat split; try (intros [E|[]]; discriminate E).
Qed.

(** C10: the stale-event suppression of [emitIfNew] applies to UPDATED only.
    An INSERTED or REMOVING event is always appended to the log, whatever the
    versions recorded for the URI: [insertFile] always ends with the INSERTED
    event of the file it parsed, and [removeFile], when it is not refused and
    finds the file, emits its REMOVING event; an UPDATED event of a version
    that is not above the recorded one is dropped. *)
Theorem only_UPDATED_is_suppressed `{Imports} (ws : PddlWorkspace) (f : FileInfo) :
  emitted (emitIfNew INSERTED f ws) = (emitted ws ++ [(INSERTED, f)])%list
  /\ emitted (emitIfNew REMOVING f ws) = (emitted ws ++ [(REMOVING, f)])%list
  /\ (forall path uri language v t,
        exists log,
          emitted (snd (insertFile path uri language v t ws))
          = (log ++ [(INSERTED, fst (insertFile path uri language v t ws))])%list)
  /\ (forall uri options d,
        hasExplicitAssociations ws uri && negb (removeAllReferences options) = false ->
        getFileInfo ws uri = Some d ->
        emitted (snd (removeFile uri options ws))
        = (emitted ws ++ [(REMOVING, d)])%list)
  /\ (forall last,
        JsMap.get (lastVersionUpdateEmitted ws) (fileUri f) = Some last ->
        (getVersion f <= last)%Z ->
        emitIfNew UPDATED f ws = ws).
Proof.
  repeat split.
  - intros path uri language v t. unfold insertFile. simpl. eexists. reflexivity.
  - intros uri options d Hfree Hd. unfold removeFile. rewrite Hfree.
    unfold getFileInfo in Hd.
    destruct (JsMap.get (folders ws) (getFolderPath uri)) as [folder|]; [|discriminate].
    rewrite Hd. reflexivity.
  - intros last E Hle. unfold emitIfNew. simpl. rewrite E.
    destruct (Z.leb_spec (getVersion f) last); [reflexivity|lia].
Qed.

(** C10, witness: the reopened file (version 1, below the recorded version 5)
    is removed: REMOVING is emitted; its UPDATED event is dropped. *)
Lemma only_UPDATED_is_suppressed_witness :
  emitted (snd (@removeFile exampleImports domainUri keepReferences reopenedWorkspace))
  = (emitted reopenedWorkspace ++ [(REMOVING, exampleDomain)])%list
  /\ emitIfNew UPDATED exampleDomain reopenedWorkspace = reopenedWorkspace.
Proof.
  pose proof (@only_UPDATED_is_suppressed exampleImports reopenedWorkspace exampleDomain)
    as [_ [_ [_ [Hremove Hupdate]]]].
  split.
  - apply Hremove; vm_compute; reflexivity.
  - apply (Hupdate 5%Z); [vm_compute; reflexivity|vm_compute; discriminate].
Defined.

(* ================================================================== *)
(** * Removal and association resolution *)
(* ================================================================== *)

(** C7: a file whose URI is a key or a value of the problem-to-domain or of
    the plan-to-problem associations is not removed when the caller does not
    ask for the references to be removed: [removeFile] returns false and the
    workspace (folders, files, associations, log) is unchanged. *)
Theorem removeFile_refused_when_associated `{Imports} (ws : PddlWorkspace)
    (documentUri : string) :
  JsMap.has (problemToDomainMap ws) documentUri = true
  \/ In documentUri (JsMap.values (problemToDomainMap ws))
  \/ JsMap.has (planToProblemMap ws) documentUri = true
  \/ In documentUri (JsMap.values (planToProblemMap ws)) ->
  removeFile documentUri {| removeAllReferences := false |} ws = (false, ws).
Proof.
  intros Hassoc.
  assert (Hexp : hasExplicitAssociations ws documentUri = true).
  { unfold hasExplicitAssociations. rewrite !orb_true_iff, !includes_In. tauto. }
  unfold removeFile. rewrite Hexp. reflexivity.
Qed.

(** C7, witness: the second problem is the value of two plan-to-problem
    associations; it cannot be removed. *)
Lemma removeFile_refused_when_associated_witness :
  @removeFile exampleImports problem2Uri {| removeAllReferences := false |}
              associatedWorkspace
  = (false, associatedWorkspace).
Proof.
  apply (@removeFile_refused_when_associated exampleImports associatedWorkspace
           problem2Uri).
  right. right. right. vm_compute. left. reflexivity.
Defined.

(** C6: for a problem file without an explicit domain association,
    [getDomainFilesFor] returns all the candidates of the folder -- the
    domain files of the folder of the problem whose name equals, ignoring
    case, the domain name of the problem -- and [getDomainFileFor] returns a
    domain exactly when that list has exactly one element; with no candidate
    or with more than one it returns none. *)
Theorem getDomainFileFor_unambiguous `{Imports} (ws : PddlWorkspace)
    (problemFile : FileInfo) :
  JsMap.has (problemToDomainMap ws) (fileUri problemFile) = false ->
  (forall d, In d (getDomainFilesFor ws problemFile)
             <-> exists folder,
                   JsMap.get (folders ws) (getFolderPath (fileUri problemFile))
                   = Some folder
                   /\ In d (JsMap.values (files folder))
                   /\ isDomain d = true
                   /\ lowerCaseEquals (name d) (domainName problemFile) = true)
  /\ (forall d, getDomainFileFor ws problemFile = Some d
                <-> getDomainFilesFor ws problemFile = [d])
  /\ (List.length (getDomainFilesFor ws problemFile) <> 1%nat ->
      getDomainFileFor ws problemFile = None).
Proof.
  intros Hnone. split; [|split].
  - intros d. unfold getDomainFilesFor. rewrite Hnone.
    destruct (JsMap.get (folders ws) (getFolderPath (fileUri problemFile)))
      as [folder|].
    + unfold Folder_getDomainFilesFor. rewrite !filter_In. split.
      * intros [[HIn Hd] Hn]. exists folder. auto.
      * intros [folder' [E [HIn [Hd Hn]]]]. inversion E; subst. auto.
    + split; [intros []|intros [folder [E _]]; discriminate].
  - intros d. unfold getDomainFileFor.
    destruct (getDomainFilesFor ws problemFile) as [|x [|y l]]; simpl;
      split; intros E; try discriminate; congruence.
  - intros Hlen. unfold getDomainFileFor.
    destruct (Nat.eqb_spec (List.length (getDomainFilesFor ws problemFile)) 1);
      [contradiction|reflexivity].
Qed.

(** C6, witness: the first problem has one candidate domain in its folder. *)
Lemma getDomainFileFor_unambiguous_witness :
  @getDomainFileFor exampleImports exampleWorkspace exampleProblem
  = Some exampleDomain.
Proof.
  apply (proj1 (proj2 (@getDomainFileFor_unambiguous exampleImports
                         exampleWorkspace exampleProblem eq_refl))).
  vm_compute. reflexivity.
Defined.

(** C5, as the code has it: the problem of a plan is looked up in two tiers:
    when the plan URI has an explicit plan-to-problem association, the file
    stored under the associated URI is returned and the folder is not
    searched; only without an association the first problem of the folder of
    the plan whose name equals, ignoring case, the problem name of the plan is
    returned. The problem of a happenings file is looked up by name in its
    folder only: the associations are not consulted. *)
Theorem problem_lookup_tiers `{Imports} (ws : PddlWorkspace) (fileInfo : FileInfo) :
  (forall problemFileUri,
      JsMap.get (planToProblemMap ws) (fileUri fileInfo) = Some problemFileUri ->
      getProblemFileForPlan ws fileInfo = getFileInfo ws problemFileUri)
  /\ (JsMap.has (planToProblemMap ws) (fileUri fileInfo) = false ->
      getProblemFileForPlan ws fileInfo = getProblemFileForHappenings ws fileInfo)
  /\ (forall uri problemFileInfo,
        getProblemFileForHappenings (associatePlanToProblem uri problemFileInfo ws)
                                    fileInfo
        = getProblemFileForHappenings ws fileInfo)
  /\ (forall p,
        getProblemFileForHappenings ws fileInfo = Some p ->
        exists folder,
          JsMap.get (folders ws) (getFolderPath (fileUri fileInfo)) = Some folder
          /\ In p (JsMap.values (files folder))
          /\ isProblem p = true
          /\ lowerCaseEquals (name p) (problemName fileInfo) = true)
  /\ (forall folder p,
        JsMap.get (folders ws) (getFolderPath (fileUri fileInfo)) = Some folder ->
        In p (JsMap.values (files folder)) ->
        isProblem p = true ->
        lowerCaseEquals (name p) (problemName fileInfo) = true ->
        getProblemFileForHappenings ws fileInfo <> None).
Proof.
  split; [|split; [|split; [|split]]].
  - intros problemFileUri E. unfold getProblemFileForPlan, JsMap.has.
    rewrite E. reflexivity.
  - intros Hnone. unfold getProblemFileForPlan, getProblemFileForHappenings.
    rewrite Hnone. reflexivity.
  - reflexivity.
  - intros p. unfold getProblemFileForHappenings, getFolderOf.
    destruct (JsMap.get (folders ws) (getFolderPath (fileUri fileInfo)))
      as [folder|]; [|discriminate].
    unfold Folder_getProblemFileWithName. intros E.
    apply find_some in E. destruct E as [HIn Hn].
    apply filter_In in HIn. exists folder. tauto.
  - intros folder p Efolder HIn Hkind Hname.
    unfold getProblemFileForHappenings, getFolderOf. rewrite Efolder.
    unfold Folder_getProblemFileWithName. intros Enone.
    pose proof (find_none _ _ Enone p) as Hp. simpl in Hp.
    rewrite Hname in Hp. apply Bool.diff_true_false, Hp.
    apply filter_In. auto.
Qed.

(** C5, witness: the plan of the first problem is associated with the second
    problem, which is returned; the happenings file of the first problem
    resolves to the first problem, which matches its problem name. *)
Lemma problem_lookup_tiers_witness :
  @getProblemFileForPlan exampleImports associatedWorkspace examplePlan
  = @getFileInfo exampleImports associatedWorkspace problem2Uri
  /\ exists folder,
       JsMap.get (folders associatedWorkspace)
                 (@getFolderPath exampleImports (fileUri exampleHappenings))
       = Some folder
       /\ In exampleProblem (JsMap.values (files folder))
       /\ isProblem exampleProblem = true
       /\ lowerCaseEquals (name exampleProblem) (problemName exampleHappenings) = true.
Proof.
  pose proof (@problem_lookup_tiers exampleImports associatedWorkspace examplePlan)
    as [Hplan _].
  pose proof (@problem_lookup_tiers exampleImports associatedWorkspace exampleHappenings)
    as [_ [_ [_ [Hhappenings _]]]].
  split.
  - apply Hplan. vm_compute. reflexivity.
  - apply Hhappenings. vm_compute. reflexivity.
Defined.

(** C5, counterexample: the happenings file of the first problem has an
    explicit association with the second problem, which is in the workspace;
    the lookup for the plan returns the associated problem, the lookup for the
    happenings file does not: it returns the first problem, found by name. *)
Lemma happenings_lookup_counterexample :
  JsMap.get (planToProblemMap associatedWorkspace) (fileUri exampleHappenings)
  = Some problem2Uri
  /\ @getFileInfo exampleImports associatedWorkspace problem2Uri = Some exampleProblem2
  /\ @getProblemFileForPlan exampleImports associatedWorkspace examplePlan
     = Some exampleProblem2
  /\ @getProblemFileForHappenings exampleImports associatedWorkspace exampleHappenings
     = Some exampleProblem
  /\ exampleProblem <> exampleProblem2.
Proof.
  vm_compute. repeat split. discriminate.
Qed.

(* ================================================================== *)
(** * The store of files *)
(* ================================================================== *)

Section Store.
Context `{Imports}.

Lemma fileUri_parseFile uri language v t : fileUri (parseFile uri language v t) = uri.
Proof.
  unfold parseFile. destruct language.
  - destruct (tryDomain uri v t); [reflexivity|].
    destruct (tryProblem uri v t) as [[n d]|]; reflexivity.
  - destruct (parsePlan uri v t); reflexivity.
  - destruct (parseHappenings uri v t); reflexivity.
Qed.

Lemma folders_emitIfNew symbol f ws : folders (emitIfNew symbol f ws) = folders ws.
Proof.
  unfold emitIfNew. destruct (isUPDATED symbol); [|reflexivity].
  destruct (JsMap.get _ _) as [last|]; [|reflexivity].
  destruct (_ <=? _)%Z; reflexivity.
Qed.

Lemma wellFormed_same_folders ws ws' :
  folders ws' = folders ws -> wellFormed ws -> wellFormed ws'.
Proof. unfold wellFormed. intros ->. auto. Qed.

Lemma wellFormed_newWorkspace : wellFormed newWorkspace.
Proof. intros path folder key f []. Qed.

(** A method of the folder object under [path] keeps the store well formed
    when every entry it leaves in the folder was there, or is in its slot. *)
Lemma wellFormed_onFolder path g ws :
  wellFormed ws ->
  (forall folder key f,
      In (path, folder) (folders ws) ->
      In (key, f) (files (g folder)) ->
      In (key, f) (files folder)
      \/ (key = fileUri f /\ path = getFolderPath key
          /\ String.eqb (uriScheme key) "git" = false)) ->
  wellFormed (onFolder path g ws).
Proof.
  intros Hwf Hg p folder key f HIn Hkey. unfold onFolder in HIn. simpl in HIn.
  apply JsMap_In_adjust in HIn. destruct HIn as [folder0 [HIn0 [->|[-> ->]]]].
  - eapply Hwf; eassumption.
  - destruct (Hg _ _ _ HIn0 Hkey) as [Hold|Hnew]; [|exact Hnew].
    eapply Hwf; eassumption.
Qed.

Lemma wellFormed_add f ws :
  wellFormed ws ->
  wellFormed (onFolder (getFolderPath (fileUri f)) (fun folder => Folder_add folder f) ws).
Proof.
  intros Hwf. apply wellFormed_onFolder; [exact Hwf|].
  intros folder key x _. unfold Folder_add.
  destruct (String.eqb (uriScheme (fileUri f)) "git") eqn:Hgit; simpl; [auto|].
  intros HIn. apply JsMap_In_set in HIn. destruct HIn as [[-> ->]|Hold]; auto.
Qed.

Lemma wellFormed_remove path f ws :
  wellFormed ws ->
  wellFormed (onFolder path (fun folder => snd (Folder_remove folder f)) ws).
Proof.
  intros Hwf. apply wellFormed_onFolder; [exact Hwf|].
  intros folder key x _ HIn. simpl in HIn. left. eapply JsMap_In_delete, HIn.
Qed.

(** A mutation of a stored object that keeps its URI. *)
Lemma wellFormed_onFileAt path key h ws :
  wellFormed ws ->
  (forall folder x,
      In (path, folder) (folders ws) -> In (key, x) (files folder) ->
      fileUri (h x) = fileUri x) ->
  wellFormed (onFileAt path key h ws).
Proof.
  intros Hwf Hh. apply wellFormed_onFolder; [exact Hwf|].
  intros folder k x HIn Hk. simpl in Hk. apply JsMap_In_adjust in Hk.
  destruct Hk as [x0 [HIn0 [->|[-> ->]]]]; [auto|].
  right. destruct (Hwf _ _ _ _ HIn HIn0) as [Hkey [Hpath Hgit]].
  rewrite (Hh _ _ HIn HIn0). auto.
Qed.

Lemma wellFormed_upsertFolder path ws :
  wellFormed ws -> wellFormed (snd (upsertFolder path ws)).
Proof.
  intros Hwf. unfold upsertFolder.
  destruct (JsMap.get (folders ws) path) as [folder|] eqn:E; [exact Hwf|].
  intros p folder key f HIn Hkey. simpl in HIn.
  apply JsMap_In_set in HIn. destruct HIn as [[-> ->]|Hold].
  - destruct Hkey.
  - eapply Hwf; eassumption.
Qed.

Lemma upsertFolder_In path ws :
  In (path, fst (upsertFolder path ws)) (folders (snd (upsertFolder path ws))).
Proof.
  unfold upsertFolder.
  destruct (JsMap.get (folders ws) path) as [folder|] eqn:E; simpl.
  - apply JsMap_get_In, E.
  - apply JsMap_get_In. rewrite JsMap_get_set, String.eqb_refl. reflexivity.
Qed.

Lemma upsertFolder_get path ws :
  JsMap.get (folders (snd (upsertFolder path ws))) path
  = Some (fst (upsertFolder path ws)).
Proof.
  unfold upsertFolder.
  destruct (JsMap.get (folders ws) path) as [folder|] eqn:E; simpl.
  - exact E.
  - rewrite JsMap_get_set, String.eqb_refl. reflexivity.
Qed.

Lemma wellFormed_emitIfNew symbol f ws :
  wellFormed ws -> wellFormed (emitIfNew symbol f ws).
Proof. apply wellFormed_same_folders, folders_emitIfNew. Qed.

Lemma wellFormed_invalidateDiagnostics f ws :
  wellFormed ws -> wellFormed (invalidateDiagnostics f ws).
Proof.
  intros Hwf. apply wellFormed_emitIfNew, wellFormed_onFileAt; [exact Hwf|reflexivity].
Qed.

Lemma wellFormed_fold_left {A : Type} (g : PddlWorkspace -> A -> PddlWorkspace) l :
  (forall w x, wellFormed w -> wellFormed (g w x)) ->
  forall ws, wellFormed ws -> wellFormed (fold_left g l ws).
Proof.
  intros Hg. induction l as [|x l IH]; intros ws Hwf; simpl; auto.
Qed.

Lemma wellFormed_markPlansAsDirty p ws :
  wellFormed ws -> wellFormed (markPlansAsDirty p ws).
Proof.
  intros Hwf. unfold markPlansAsDirty.
  apply wellFormed_fold_left; [intros; apply wellFormed_invalidateDiagnostics; assumption|].
  apply wellFormed_fold_left; [intros; apply wellFormed_invalidateDiagnostics; assumption|].
  exact Hwf.
Qed.

Lemma wellFormed_markProblemsAsDirty d ws :
  wellFormed ws -> wellFormed (markProblemsAsDirty d ws).
Proof.
  intros Hwf. unfold markProblemsAsDirty.
  apply wellFormed_fold_left; [|exact Hwf].
  intros. apply wellFormed_markPlansAsDirty, wellFormed_invalidateDiagnostics. assumption.
Qed.

Lemma wellFormed_insertFile uri language v t ws :
  wellFormed ws ->
  wellFormed (snd (insertFile (getFolderPath uri) uri language v t ws)).
Proof.
  intros Hwf. unfold insertFile. simpl.
  do 2 apply wellFormed_emitIfNew.
  assert (Hadd : wellFormed
                   (onFolder (getFolderPath uri)
                      (fun folder => Folder_add folder (parseFile uri language v t)) ws)).
  { pose proof (wellFormed_add (parseFile uri language v t) ws Hwf) as Ha.
    rewrite fileUri_parseFile in Ha. exact Ha. }
  destruct (isDomain _); [apply wellFormed_markProblemsAsDirty, Hadd|].
  destruct (isProblem _); [apply wellFormed_markPlansAsDirty, Hadd|exact Hadd].
Qed.

Lemma fileUri_update f v t force : fileUri (snd (update f v t force)) = fileUri f.
Proof. unfold update. destruct (_ || _); reflexivity. Qed.

Lemma wellFormed_upsertFile uri language v t force ws :
  wellFormed ws -> wellFormed (snd (upsertFile uri language v t force ws)).
Proof.
  intros Hwf. unfold upsertFile.
  pose proof (wellFormed_upsertFolder (getFolderPath uri) ws Hwf) as Hwf1.
  pose proof (upsertFolder_In (getFolderPath uri) ws) as HIn.
  destruct (upsertFolder (getFolderPath uri) ws) as [folder ws1]. simpl in *.
  destruct (Folder_get folder uri) as [fileInfo|] eqn:Hget;
    [|apply wellFormed_insertFile, Hwf1].
  pose proof (fileUri_update fileInfo v t force) as Huri.
  destruct (update fileInfo v t force) as [updated fileInfo']. simpl in *.
  assert (Hmut : wellFormed (onFileAt (getFolderPath uri) uri (fun _ => fileInfo') ws1)).
  { apply wellFormed_onFileAt; [exact Hwf1|].
    intros folder0 x HIn0 Hx. rewrite Huri.
    apply JsMap_get_In in Hget.
    destruct (Hwf1 _ _ _ _ HIn Hget) as [E1 _].
    destruct (Hwf1 _ _ _ _ HIn0 Hx) as [E2 _]. congruence. }
  destruct updated; [|exact Hmut].
  eapply wellFormed_same_folders; [|exact Hmut]. reflexivity.
Qed.

Lemma wellFormed_reParseFile f ws :
  wellFormed ws -> wellFormed (snd (reParseFile f ws)).
Proof.
  intros Hwf. unfold reParseFile.
  pose proof (wellFormed_upsertFolder (getFolderPath (fileUri f)) ws Hwf) as Hwf1.
  destruct (upsertFolder (getFolderPath (fileUri f)) ws) as [folder ws1]. simpl in *.
  apply wellFormed_emitIfNew.
  pose proof (wellFormed_add (parseFile (fileUri f) (getLanguage f) (getVersion f) (getText f))
                (onFolder (getFolderPath (fileUri f))
                   (fun folder => snd (Folder_remove folder f)) ws1)) as Ha.
  rewrite fileUri_parseFile in Ha. apply Ha, wellFormed_remove, Hwf1.
Qed.

Lemma wellFormed_upsertAndParseFile uri language v t ws :
  wellFormed ws -> wellFormed (snd (upsertAndParseFile uri language v t ws)).
Proof.
  intros Hwf. unfold upsertAndParseFile.
  pose proof (wellFormed_upsertFile uri language v t false ws Hwf) as Hwf1.
  destruct (upsertFile uri language v t false ws) as [f ws1]. simpl in Hwf1.
  destruct (getStatus f); [exact Hwf1|apply wellFormed_reParseFile, Hwf1].
Qed.

Lemma wellFormed_parseAllDirty ws : wellFormed ws -> wellFormed (parseAllDirty ws).
Proof.
  intros Hwf. unfold parseAllDirty. apply wellFormed_fold_left; [|exact Hwf].
  intros. apply wellFormed_reParseFile. assumption.
Qed.

Lemma wellFormed_removeFile uri options ws :
  wellFormed ws -> wellFormed (snd (removeFile uri options ws)).
Proof.
  intros Hwf. unfold removeFile.
  destruct (_ && _); [exact Hwf|].
  destruct (JsMap.get _ _) as [folder|]; [|exact Hwf].
  destruct (Folder_get folder uri) as [d|]; [|exact Hwf]. simpl.
  apply wellFormed_remove, wellFormed_emitIfNew, Hwf.
Qed.

Lemma wellFormed_perform op ws : wellFormed ws -> wellFormed (perform ws op).
Proof.
  intros Hwf. destruct op; simpl.
  - apply wellFormed_upsertFile, Hwf.
  - apply wellFormed_upsertAndParseFile, Hwf.
  - apply wellFormed_reParseFile, Hwf.
  - unfold parsingTimeoutFires. destruct (parsingTimeout ws); [|exact Hwf].
    apply wellFormed_parseAllDirty. eapply wellFormed_same_folders; [|exact Hwf].
    reflexivity.
  - apply wellFormed_invalidateDiagnostics, Hwf.
  - apply wellFormed_markProblemsAsDirty, Hwf.
  - apply wellFormed_markPlansAsDirty, Hwf.
  - exact Hwf.
  - apply wellFormed_removeFile, Hwf.
  - exact Hwf.
  - exact Hwf.
Qed.

Lemma wellFormed_performAll ops ws : wellFormed ws -> wellFormed (performAll ops ws).
Proof.
  unfold performAll. apply wellFormed_fold_left. intros. apply wellFormed_perform.
  assumption.
Qed.

Lemma In_getAllFiles ws f :
  In f (getAllFiles ws) ->
  exists path folder key,
    In (path, folder) (folders ws) /\ In (key, f) (files folder).
Proof.
  unfold getAllFiles. rewrite in_flat_map. intros [folder [HF Hf]].
  unfold JsMap.values in *. apply in_map_iff in HF. destruct HF as [[path folder'] [E HF]].
  apply in_map_iff in Hf. destruct Hf as [[key f'] [E' Hf]].
  simpl in *. subst. eauto.
Qed.

Lemma getFileInfo_In ws uri f :
  getFileInfo ws uri = Some f ->
  exists folder, In (getFolderPath uri, folder) (folders ws) /\ In (uri, f) (files folder).
Proof.
  unfold getFileInfo, Folder_get.
  destruct (JsMap.get (folders ws) (getFolderPath uri)) as [folder|] eqn:E; [|discriminate].
  intros Hf. exists folder. split; apply JsMap_get_In; assumption.
Qed.

(** C9: a FileInfo whose URI has the [git] scheme is never stored. After any
    sequence of operations no file of [getAllFiles], no file returned by
    [getFileInfo] and no key of a folder has the [git] scheme; an upsert of a
    [git] URI still returns the parsed FileInfo, and the file is not found
    afterwards. *)
Theorem git_files_are_not_stored (ops : list Operation) :
  let ws := performAll ops newWorkspace in
  (forall f, In f (getAllFiles ws) -> uriScheme (fileUri f) <> "git")
  /\ (forall uri f, getFileInfo ws uri = Some f ->
                    fileUri f = uri /\ uriScheme uri <> "git")
  /\ (forall path folder key f,
        In (path, folder) (folders ws) -> In (key, f) (files folder) ->
        uriScheme key <> "git")
  /\ (forall uri language v t force,
        uriScheme uri = "git" ->
        fst (upsertFile uri language v t force ws) = parseFile uri language v t
        /\ getFileInfo (snd (upsertFile uri language v t force ws)) uri = None).
Proof.
  intros ws.
  assert (Hwf : wellFormed ws)
    by (apply wellFormed_performAll, wellFormed_newWorkspace).
  assert (Hkey : forall w, wellFormed w -> forall path folder key f,
             In (path, folder) (folders w) -> In (key, f) (files folder) ->
             uriScheme key <> "git").
  { intros w Hw path folder key f HF Hf E.
    destruct (Hw _ _ _ _ HF Hf) as [_ [_ Hgit]].
    rewrite E in Hgit. discriminate. }
  assert (Hget : forall w, wellFormed w -> forall uri f,
             getFileInfo w uri = Some f -> fileUri f = uri /\ uriScheme uri <> "git").
  { intros w Hw uri f E. apply getFileInfo_In in E. destruct E as [folder [HF Hf]].
    destruct (Hw _ _ _ _ HF Hf) as [Huri _]. split; [congruence|].
    eapply Hkey; eassumption. }
  split; [|split; [|split]].
  - intros f HIn. apply In_getAllFiles in HIn.
    destruct HIn as [path [folder [key [HF Hf]]]].
    destruct (Hwf _ _ _ _ HF Hf) as [Huri _]. rewrite <- Huri.
    eapply Hkey; eassumption.
  - apply Hget, Hwf.
  - apply Hkey, Hwf.
  - intros uri language v t force Hgit. split.
    + unfold upsertFile.
      pose proof (wellFormed_upsertFolder (getFolderPath uri) ws Hwf) as Hwf1.
      pose proof (upsertFolder_In (getFolderPath uri) ws) as HIn.
      destruct (upsertFolder (getFolderPath uri) ws) as [folder ws1]. simpl in *.
      destruct (Folder_get folder uri) as [fileInfo|] eqn:E; [|reflexivity].
      exfalso. apply JsMap_get_In in E. exact (Hkey _ Hwf1 _ _ _ _ HIn E Hgit).
    + destruct (getFileInfo (snd (upsertFile uri language v t force ws)) uri)
        as [f|] eqn:E; [|reflexivity].
      exfalso. apply Hget in E; [tauto|]. apply wellFormed_upsertFile, Hwf.
Qed.

End Store.

(** C9, witness: the domain is opened from a [git] URI in the example
    workspace; the parsed domain is returned and is not stored. *)
Lemma git_files_are_not_stored_witness :
  fst (@upsertFile exampleImports gitUri PDDL 1 domainText false exampleWorkspace)
  = @parseFile exampleImports gitUri PDDL 1 domainText
  /\ @getFileInfo exampleImports
       (snd (@upsertFile exampleImports gitUri PDDL 1 domainText false exampleWorkspace))
       gitUri = None.
Proof.
  apply (proj2 (proj2 (proj2
           (@git_files_are_not_stored exampleImports exampleOperations)))).
  vm_compute. reflexivity.
Defined.

(* ================================================================== *)
(** * Invalidation *)
(* ================================================================== *)

Lemma settles_refl ws : settles ws ws.
Proof. intros path key f E. left. exact E. Qed.

Lemma settles_trans ws ws1 ws2 : settles ws ws1 -> settles ws1 ws2 -> settles ws ws2.
Proof.
  intros H1 H2 path key f E.
  destruct (H1 _ _ _ E) as [E1|E1]; destruct (H2 _ _ _ E1) as [E2|E2]; auto.
Qed.

Lemma settles_fold_left {A : Type} (g : PddlWorkspace -> A -> PddlWorkspace) l :
  (forall w x, settles w (g w x)) -> forall ws, settles ws (fold_left g l ws).
Proof.
  intros Hg. induction l as [|x l IH]; intros ws; simpl; [apply settles_refl|].
  eapply settles_trans; [apply Hg|apply IH].
Qed.

Lemma heldAt_settles ws ws' path key f :
  settles ws ws' -> heldAt ws path key f -> heldAt ws' path key f.
Proof.
  intros Hs [E|E]; destruct (Hs _ _ _ E) as [E'|E']; unfold heldAt; auto.
Qed.

Lemma parsedAt_settles ws ws' path key :
  settles ws ws' -> parsedAt ws path key -> parsedAt ws' path key.
Proof.
  intros Hs [f [E Hf]]. destruct (Hs _ _ _ E) as [E'|E'].
  - exists f. auto.
  - exists (setStatus Parsed f). auto.
Qed.

Lemma heldAt_parsedAt ws path key f :
  heldAt ws path key f -> parsedAt ws path key ->
  fileAt ws path key = Some (setStatus Parsed f).
Proof.
  intros [E|E] [f' [E' Hf']]; [|exact E].
  rewrite E in E'. inversion E'; subst f'. rewrite E. f_equal.
  rewrite <- Hf'. symmetry. apply setStatus_same.
Qed.

(** A step of a loop that reaches the slot: if one element of the list
    establishes [P], and the other steps keep [P] and the precondition [Q] of
    that element, then [P] holds after the loop. *)
Lemma fold_left_hit {A : Type} (g : PddlWorkspace -> A -> PddlWorkspace)
    (P Q : PddlWorkspace -> Prop) (x : A) (l : list A) :
  (forall w y, settles w (g w y)) ->
  (forall w w', settles w w' -> P w -> P w') ->
  (forall w w', settles w w' -> Q w -> Q w') ->
  (forall w, Q w -> P (g w x)) ->
  In x l -> forall ws, Q ws -> P (fold_left g l ws).
Proof.
  intros Hg HP HQ Hhit. induction l as [|y l IH]; intros HIn ws Hq; [destruct HIn|].
  simpl. destruct HIn as [->|HIn].
  - apply (HP (g ws x)); [apply settles_fold_left, Hg|apply Hhit, Hq].
  - apply IH; [exact HIn|]. apply (HQ ws); [apply Hg|exact Hq].
Qed.

Section Invalidation.
Context `{Imports}.

Lemma getFileInfo_fileAt ws uri : getFileInfo ws uri = fileAt ws (getFolderPath uri) uri.
Proof. reflexivity. Qed.

Lemma fileAt_emitIfNew symbol f ws path key :
  fileAt (emitIfNew symbol f ws) path key = fileAt ws path key.
Proof. unfold fileAt. rewrite folders_emitIfNew. reflexivity. Qed.

Lemma fileAt_onFileAt p k h ws path key :
  fileAt (onFileAt p k h ws) path key
  = if String.eqb p path && String.eqb k key
    then option_map h (fileAt ws path key)
    else fileAt ws path key.
Proof.
  unfold fileAt, onFileAt, onFolder. simpl. rewrite JsMap_get_adjust.
  destruct (String.eqb_spec p path) as [->|]; simpl; [|reflexivity].
  destruct (JsMap.get (folders ws) path) as [folder|]; simpl.
  - rewrite JsMap_get_adjust. destruct (String.eqb k key); reflexivity.
  - destruct (String.eqb k key); reflexivity.
Qed.

Lemma fileAt_invalidateDiagnostics x ws path key :
  fileAt (invalidateDiagnostics x ws) path key
  = if String.eqb (getFolderPath (fileUri x)) path && String.eqb (fileUri x) key
    then option_map (setStatus Parsed) (fileAt ws path key)
    else fileAt ws path key.
Proof.
  unfold invalidateDiagnostics, onFile. rewrite fileAt_emitIfNew.
  apply fileAt_onFileAt.
Qed.

Lemma settles_invalidateDiagnostics x ws : settles ws (invalidateDiagnostics x ws).
Proof.
  intros path key f E. rewrite fileAt_invalidateDiagnostics, E.
  destruct (_ && _); simpl; auto.
Qed.

Lemma settles_markPlansAsDirty p ws : settles ws (markPlansAsDirty p ws).
Proof.
  unfold markPlansAsDirty.
  set (ws1 := fold_left _ (getPlanFiles ws p) ws).
  apply settles_trans with ws1; [subst ws1|];
    apply settles_fold_left; intros; apply settles_invalidateDiagnostics.
Qed.

Lemma settles_markProblemsAsDirty d ws : settles ws (markProblemsAsDirty d ws).
Proof.
  unfold markProblemsAsDirty. apply settles_fold_left. intros w x.
  eapply settles_trans;
    [apply settles_invalidateDiagnostics|apply settles_markPlansAsDirty].
Qed.

(** [invalidateDiagnostics] sets the file in the slot of its argument to
    Parsed. *)
Lemma invalidateDiagnostics_hit x f ws :
  heldAt ws (getFolderPath (fileUri x)) (fileUri x) f ->
  parsedAt (invalidateDiagnostics x ws) (getFolderPath (fileUri x)) (fileUri x).
Proof.
  intros Hheld. unfold parsedAt. rewrite fileAt_invalidateDiagnostics.
  rewrite !String.eqb_refl. simpl.
  destruct Hheld as [E|E]; rewrite E; simpl; eexists; split; reflexivity.
Qed.

(** The file a slot holds is one of the values of its folder. *)
Lemma heldAt_values ws path key f :
  heldAt ws path key f ->
  exists folder f',
    JsMap.get (folders ws) path = Some folder
    /\ In f' (JsMap.values (files folder))
    /\ (f' = f \/ f' = setStatus Parsed f).
Proof.
  unfold heldAt, fileAt.
  destruct (JsMap.get (folders ws) path) as [folder|]; [|intros [E|E]; discriminate].
  intros [E|E]; apply JsMap_get_In in E;
    eexists; eexists; (split; [reflexivity|]);
    (split; [apply in_map_iff; eexists; split; [|exact E]; reflexivity|]); auto.
Qed.

(** [markPlansAsDirty] sets to Parsed the plans and the happenings files of
    the folder of the problem that carry its names. *)
Lemma markPlansAsDirty_hit p q ws :
  getFolderPath (fileUri q) = getFolderPath (fileUri p) ->
  isPlan q || isHappenings q = true ->
  lowerCaseEquals (problemName q) (name p)
  && lowerCaseEquals (domainName q) (domainName p) = true ->
  heldAt ws (getFolderPath (fileUri q)) (fileUri q) q ->
  parsedAt (markPlansAsDirty p ws) (getFolderPath (fileUri q)) (fileUri q).
Proof.
  intros Hfolder Hkind Hnames Hheld. unfold markPlansAsDirty.
  set (ws1 := fold_left _ (getPlanFiles ws p) ws).
  assert (Hs1 : settles ws ws1)
    by (subst ws1; apply settles_fold_left; intros; apply settles_invalidateDiagnostics).
  assert (Hstep : forall (w : PddlWorkspace) (q' : FileInfo),
             (q' = q \/ q' = setStatus Parsed q) ->
             heldAt w (getFolderPath (fileUri q)) (fileUri q) q ->
             parsedAt (invalidateDiagnostics q' w)
                      (getFolderPath (fileUri q)) (fileUri q)).
  { intros w q' Hq' Hw.
    assert (Euri : fileUri q' = fileUri q) by (destruct Hq'; subst; reflexivity).
    rewrite <- Euri. eapply invalidateDiagnostics_hit. rewrite Euri. exact Hw. }
  destruct (isPlan q) eqn:Hplan.
  - apply (parsedAt_settles ws1);
      [apply settles_fold_left; intros; apply settles_invalidateDiagnostics|].
    subst ws1.
    destruct (heldAt_values _ _ _ _ Hheld) as [folder [q' [Efolder [HIn Hq']]]].
    apply (fold_left_hit _
             (fun w => parsedAt w (getFolderPath (fileUri q)) (fileUri q))
             (fun w => heldAt w (getFolderPath (fileUri q)) (fileUri q) q) q').
    + intros; apply settles_invalidateDiagnostics.
    + intros w w'. apply parsedAt_settles.
    + intros w w'. apply heldAt_settles.
    + intros w. apply Hstep, Hq'.
    + unfold getPlanFiles. rewrite <- Hfolder, Efolder.
      rewrite !filter_In. destruct Hq'; subst q'; auto.
    + exact Hheld.
  - simpl in Hkind.
    assert (Hheld1 : heldAt ws1 (getFolderPath (fileUri q)) (fileUri q) q)
      by (eapply heldAt_settles; eassumption).
    destruct (heldAt_values _ _ _ _ Hheld1) as [folder [q' [Efolder [HIn Hq']]]].
    apply (fold_left_hit _
             (fun w => parsedAt w (getFolderPath (fileUri q)) (fileUri q))
             (fun w => heldAt w (getFolderPath (fileUri q)) (fileUri q) q) q').
    + intros; apply settles_invalidateDiagnostics.
    + intros w w'. apply parsedAt_settles.
    + intros w w'. apply heldAt_settles.
    + intros w. apply Hstep, Hq'.
    + unfold getHappeningsFiles. rewrite <- Hfolder, Efolder.
      rewrite !filter_In. destruct Hq'; subst q'; auto.
    + exact Hheld1.
Qed.

(** [markProblemsAsDirty] sets to Parsed the problems of the folder of the
    domain that name the domain, and their plans and happenings files. *)
Lemma markProblemsAsDirty_hit d p ws :
  getFolderPath (fileUri p) = getFolderPath (fileUri d) ->
  isProblem p = true ->
  lowerCaseEquals (domainName p) (name d) = true ->
  heldAt ws (getFolderPath (fileUri p)) (fileUri p) p ->
  parsedAt (markProblemsAsDirty d ws) (getFolderPath (fileUri p)) (fileUri p)
  /\ forall q,
       getFolderPath (fileUri q) = getFolderPath (fileUri p) ->
       isPlan q || isHappenings q = true ->
       lowerCaseEquals (problemName q) (name p)
       && lowerCaseEquals (domainName q) (domainName p) = true ->
       heldAt ws (getFolderPath (fileUri q)) (fileUri q) q ->
       parsedAt (markProblemsAsDirty d ws) (getFolderPath (fileUri q)) (fileUri q).
Proof.
  intros Hfolder Hkind Hname Hheld.
  destruct (heldAt_values _ _ _ _ Hheld) as [folder [p' [Efolder [HIn Hp']]]].
  assert (Euri : fileUri p' = fileUri p) by (destruct Hp'; subst; reflexivity).
  assert (Ename : name p' = name p) by (destruct Hp'; subst; reflexivity).
  assert (Edomain : domainName p' = domainName p) by (destruct Hp'; subst; reflexivity).
  assert (Hlist : In p' (getProblemFiles ws d)).
  { unfold getProblemFiles, Folder_getProblemFilesFor.
    rewrite <- Hfolder, Efolder, !filter_In. destruct Hp'; subst p'; auto. }
  assert (Hsettles : forall w y,
             settles w (markPlansAsDirty y (invalidateDiagnostics y w))).
  { intros w y. eapply settles_trans;
      [apply settles_invalidateDiagnostics|apply settles_markPlansAsDirty]. }
  unfold markProblemsAsDirty. split.
  - apply (fold_left_hit _
             (fun w => parsedAt w (getFolderPath (fileUri p)) (fileUri p))
             (fun w => heldAt w (getFolderPath (fileUri p)) (fileUri p) p) p').
    + exact Hsettles.
    + intros w w'. apply parsedAt_settles.
    + intros w w'. apply heldAt_settles.
    + intros w Hw. apply (parsedAt_settles (invalidateDiagnostics p' w));
        [apply settles_markPlansAsDirty|].
      rewrite <- Euri. eapply invalidateDiagnostics_hit. rewrite Euri. exact Hw.
    + exact Hlist.
    + exact Hheld.
  - intros q Hqfolder Hqkind Hqnames Hqheld.
    apply (fold_left_hit _
             (fun w => parsedAt w (getFolderPath (fileUri q)) (fileUri q))
             (fun w => heldAt w (getFolderPath (fileUri q)) (fileUri q) q) p').
    + exact Hsettles.
    + intros w w'. apply parsedAt_settles.
    + intros w w'. apply heldAt_settles.
    + intros w Hw. apply markPlansAsDirty_hit.
      * rewrite Euri. exact Hqfolder.
      * exact Hqkind.
      * rewrite Ename, Edomain. exact Hqnames.
      * eapply heldAt_settles; [apply settles_invalidateDiagnostics|exact Hw].
    + exact Hlist.
    + exact Hqheld.
Qed.

End Invalidation.

Section DomainInsertion.
Context `{Imports}.

Lemma fileAt_add d ws p path key :
  key <> fileUri d ->
  fileAt (onFolder p (fun folder => Folder_add folder d) ws) path key
  = fileAt ws path key.
Proof.
  intros Hkey. unfold fileAt, onFolder. simpl. rewrite JsMap_get_adjust.
  destruct (String.eqb_spec p path) as [->|]; [|reflexivity].
  destruct (JsMap.get (folders ws) path) as [folder|]; [|reflexivity]. simpl.
  unfold Folder_add. destruct (negb _); [|reflexivity]. simpl.
  rewrite JsMap_get_set.
  destruct (String.eqb_spec (fileUri d) key); [congruence|reflexivity].
Qed.

Lemma fileAt_upsertFolder p ws path key f :
  fileAt ws path key = Some f ->
  fileAt (snd (upsertFolder p ws)) path key = Some f.
Proof.
  intros E. unfold upsertFolder.
  destruct (JsMap.get (folders ws) p) as [folder|] eqn:Ep; [exact E|].
  unfold fileAt in *. simpl. rewrite JsMap_get_set.
  destruct (String.eqb_spec p path) as [->|]; [|exact E].
  rewrite Ep in E. discriminate.
Qed.

(** The first upsert of a URI goes through [insertFile]. *)
Lemma upsertFile_first uri language v t force ws :
  getFileInfo ws uri = None ->
  upsertFile uri language v t force ws
  = insertFile (getFolderPath uri) uri language v t
               (snd (upsertFolder (getFolderPath uri) ws)).
Proof.
  intros Enone. unfold upsertFile, upsertFolder, getFileInfo in *.
  destruct (JsMap.get (folders ws) (getFolderPath uri)) as [folder|].
  - rewrite Enone. reflexivity.
  - reflexivity.
Qed.

(** C1, as the code has it: when a domain file is inserted (the first upsert
    of its URI), every problem file of the same folder whose domain name
    equals the name of the domain, ignoring case, is set to status Parsed,
    with its text and everything else kept, and so is every plan and
    happenings file of that folder that carries the problem name and the
    domain name of such a problem; no other stored file changes but,
    possibly, in its status. *)
Theorem domain_insertion_invalidates (ws : PddlWorkspace) (uri : string)
    (v : Z) (t : string) (force : bool) (dname : string) :
  getFileInfo ws uri = None ->
  tryDomain uri v t = Some dname ->
  let ws' := snd (upsertFile uri PDDL v t force ws) in
  (forall p,
      getFileInfo ws (fileUri p) = Some p ->
      getFolderPath (fileUri p) = getFolderPath uri ->
      isProblem p = true ->
      lowerCaseEquals (domainName p) (Some dname) = true ->
      getFileInfo ws' (fileUri p) = Some (setStatus Parsed p)
      /\ forall q,
           getFileInfo ws (fileUri q) = Some q ->
           getFolderPath (fileUri q) = getFolderPath uri ->
           isPlan q || isHappenings q = true ->
           lowerCaseEquals (problemName q) (name p)
           && lowerCaseEquals (domainName q) (domainName p) = true ->
           getFileInfo ws' (fileUri q) = Some (setStatus Parsed q))
  /\ (forall f,
        getFileInfo ws (fileUri f) = Some f ->
        getFileInfo ws' (fileUri f) = Some f
        \/ getFileInfo ws' (fileUri f) = Some (setStatus Parsed f)).
Proof.
  intros Enone Edomain ws'.
  set (d := mkFileInfo uri v PDDL Parsed t (Domain dname)).
  assert (Eparse : parseFile uri PDDL v t = d)
    by (unfold parseFile; rewrite Edomain; reflexivity).
  set (ws1 := onFolder (getFolderPath uri) (fun folder => Folder_add folder d)
                       (snd (upsertFolder (getFolderPath uri) ws))).
  assert (Hinsert : forall path key,
             fileAt ws' path key = fileAt (markProblemsAsDirty d ws1) path key).
  { intros path key. subst ws'. rewrite (upsertFile_first _ _ _ _ _ _ Enone).
    unfold insertFile. rewrite Eparse. simpl.
    rewrite !fileAt_emitIfNew. reflexivity. }
  assert (Hkept : forall f,
             getFileInfo ws (fileUri f) = Some f ->
             heldAt ws1 (getFolderPath (fileUri f)) (fileUri f) f).
  { intros f Ef. left. subst ws1. rewrite fileAt_add.
    - apply fileAt_upsertFolder. exact Ef.
    - simpl. intros Euri. rewrite Euri in Ef. congruence. }
  assert (Hheld : forall f,
             getFileInfo ws (fileUri f) = Some f ->
             heldAt (markProblemsAsDirty d ws1)
                    (getFolderPath (fileUri f)) (fileUri f) f).
  { intros f Ef. eapply heldAt_settles;
      [apply settles_markProblemsAsDirty|exact (Hkept f Ef)]. }
  split.
  - intros p Ep Epath Hkind Hname.
    destruct (markProblemsAsDirty_hit d p ws1 Epath Hkind Hname (Hkept p Ep))
      as [Hp Hq].
    split.
    + rewrite getFileInfo_fileAt, Hinsert.
      apply heldAt_parsedAt; [exact (Hheld p Ep)|exact Hp].
    + intros q Eq Eqpath Hqkind Hqnames.
      rewrite getFileInfo_fileAt, Hinsert.
      apply heldAt_parsedAt; [exact (Hheld q Eq)|].
      apply Hq; [congruence|exact Hqkind|exact Hqnames|exact (Hkept q Eq)].
  - intros f Ef. rewrite !getFileInfo_fileAt, !Hinsert. exact (Hheld f Ef).
Qed.

End DomainInsertion.

Section ReParse.
Context `{Imports}.

Lemma fileAt_upsertFolder_eq p ws path key :
  fileAt (snd (upsertFolder p ws)) path key = fileAt ws path key.
Proof.
  unfold upsertFolder.
  destruct (JsMap.get (folders ws) p) as [folder|] eqn:Ep; [reflexivity|].
  unfold fileAt. simpl. rewrite JsMap_get_set.
  destruct (String.eqb_spec p path) as [->|]; [|reflexivity].
  rewrite Ep. reflexivity.
Qed.

Lemma fileAt_remove f ws p path key :
  key <> fileUri f ->
  fileAt (onFolder p (fun folder => snd (Folder_remove folder f)) ws) path key
  = fileAt ws path key.
Proof.
  intros Hkey. unfold fileAt, onFolder. simpl. rewrite JsMap_get_adjust.
  destruct (String.eqb_spec p path) as [->|]; [|reflexivity].
  destruct (JsMap.get (folders ws) path) as [folder|]; [|reflexivity]. simpl.
  rewrite JsMap_get_delete.
  destruct (String.eqb_spec (fileUri f) key); [congruence|reflexivity].
Qed.

(** [reParseFile] replaces the file of its URI and leaves every other stored
    file as it is, status included. *)
Lemma reParseFile_keeps_other_files f ws uri :
  uri <> fileUri f ->
  getFileInfo (snd (reParseFile f ws)) uri = getFileInfo ws uri.
Proof.
  intros Huri. rewrite !getFileInfo_fileAt. unfold reParseFile.
  pose proof (fileAt_upsertFolder_eq (getFolderPath (fileUri f)) ws
                (getFolderPath uri) uri) as E0.
  destruct (upsertFolder (getFolderPath (fileUri f)) ws) as [folder ws1].
  cbn [snd] in *. rewrite fileAt_emitIfNew, fileAt_add, fileAt_remove; auto.
  rewrite fileUri_parseFile. exact Huri.
Qed.

End ReParse.

(** C1, witness: the first problem, its plan and its happenings file were
    edited (version 2) and are Dirty when the domain d1 is opened in their
    folder. Afterwards the three are Parsed, with the texts of their edits:
    they were not parsed again. *)
Lemma domain_insertion_invalidates_witness :
  let ws' := snd (@upsertFile exampleImports domainUri PDDL 1 domainText false
                    dirtyProblemsWorkspace) in
  (@getFileInfo exampleImports dirtyProblemsWorkspace (fileUri dirtyProblem)
   = Some dirtyProblem
   /\ getStatus dirtyProblem = Dirty
   /\ @getFileInfo exampleImports ws' (fileUri dirtyProblem)
      = Some (setStatus Parsed dirtyProblem)
   /\ getStatus (setStatus Parsed dirtyProblem) = Parsed
   /\ getText (setStatus Parsed dirtyProblem) = problemText2)
  /\ (@getFileInfo exampleImports dirtyProblemsWorkspace (fileUri dirtyPlan)
      = Some dirtyPlan
      /\ getStatus dirtyPlan = Dirty
      /\ @getFileInfo exampleImports ws' (fileUri dirtyPlan)
         = Some (setStatus Parsed dirtyPlan))
  /\ (@getFileInfo exampleImports dirtyProblemsWorkspace (fileUri dirtyHappenings)
      = Some dirtyHappenings
      /\ getStatus dirtyHappenings = Dirty
      /\ @getFileInfo exampleImports ws' (fileUri dirtyHappenings)
         = Some (setStatus Parsed dirtyHappenings)).
Proof.
  intros ws'.
  assert (Hnone : @getFileInfo exampleImports dirtyProblemsWorkspace domainUri = None)
    by (vm_compute; reflexivity).
  assert (Hdomain : @tryDomain exampleImports domainUri 1 domainText = Some "d1")
    by (vm_compute; reflexivity).
  destruct (@domain_insertion_invalidates exampleImports dirtyProblemsWorkspace
              domainUri 1 domainText false "d1" Hnone Hdomain) as [Hp _].
  destruct (Hp dirtyProblem) as [Hproblem Hq]; try (vm_compute; reflexivity).
  split; [|split].
  - split; [vm_compute; reflexivity|]. split; [vm_compute; reflexivity|].
    split; [exact Hproblem|]. split; vm_compute; reflexivity.
  - split; [vm_compute; reflexivity|]. split; [vm_compute; reflexivity|].
    apply Hq; vm_compute; reflexivity.
  - split; [vm_compute; reflexivity|]. split; [vm_compute; reflexivity|].
    apply Hq; vm_compute; reflexivity.
Defined.

(** C1, counterexample: the domain of the example workspace is edited
    (version 2, Dirty) and re-parsed, by the batch or by [reParseFile]. The
    two problems of its folder that name the domain are not set to Dirty:
    they stay Parsed, and nothing is emitted for them. *)
Lemma reparse_domain_counterexample :
  let dirtyDomain := snd (update exampleDomain 2 domainText2 false) in
  let reparsed := @parseFile exampleImports domainUri PDDL 2 domainText2 in
  @getFileInfo exampleImports editedWorkspace domainUri = Some dirtyDomain
  /\ getStatus dirtyDomain = Dirty
  /\ forall ws',
       ws' = @parsingTimeoutFires exampleImports editedWorkspace
       \/ ws' = snd (@reParseFile exampleImports dirtyDomain editedWorkspace) ->
       @getFileInfo exampleImports ws' domainUri = Some reparsed
       /\ @getProblemFiles exampleImports ws' reparsed
          = [exampleProblem; exampleProblem2]
       /\ getStatus exampleProblem = Parsed
       /\ getStatus exampleProblem2 = Parsed
       /\ emitted ws' = (emitted editedWorkspace ++ [(UPDATED, reparsed)])%list.
Proof.
  intros dirtyDomain reparsed.
  split; [vm_compute; reflexivity|]. split; [vm_compute; reflexivity|].
  intros ws' [-> | ->]; vm_compute; repeat split.
Qed.

(* ================================================================== *)
(** * The problem parser *)
(* ================================================================== *)

(** Membership in an explicit list. *)
Ltac in_list := vm_compute; repeat (first [left; reflexivity | right]).

Lemma In_mapDefined {A B : Type} (f : A -> option B) (l : list A) x y :
  In x l -> f x = Some y -> In y (mapDefined f l).
Proof.
  intros HIn E. induction l as [|z l IH]; [destruct HIn|]. simpl.
  destruct HIn as [->|HIn].
  - rewrite E. left. reflexivity.
  - destruct (f z); [right|]; auto.
Qed.

Lemma run_star_total {R : Type} ci a pos s caps (r : R) :
  exists x, Regex.run ci (Regex.Star a) pos s caps (fun _ _ _ => Some r) = Some x.
Proof.
  simpl. destruct (List.length s) as [|n].
  - eauto.
  - match goal with |- context [match ?m with Some _ => _ | None => _ end] =>
      destruct m end; eauto.
Qed.

Lemma anything_matches s : Regex.test false anything s = true.
Proof.
  unfold Regex.test, anything.
  destruct (list_ascii_of_string s) as [|c l]; unfold Regex.searchFrom.
  - destruct (run_star_total false (Regex.Cls Regex.notNewline) 0 [] [] tt) as [x E].
    rewrite E. reflexivity.
  - destruct (run_star_total false (Regex.Cls Regex.notNewline) 0 (c :: l) [] tt)
      as [x E].
    rewrite E. reflexivity.
Qed.

(** The search of the [(not] case, as the source writes it. *)
Lemma firstChild_find (t : PddlTokenType) (children : list PddlSyntaxNode) :
  (fix firstChild (t : PddlTokenType) (cs : list PddlSyntaxNode)
     : option (option VariableValue) :=
     match cs with
     | [] => None
     | c :: r =>
         if isType c t && Regex.test false anything (tokenText (getToken c))
         then Some (parseVariableValue c)
         else firstChild t r
     end) t children
  = option_map parseVariableValue
      (find (fun c => Regex.test false anything (tokenText (getToken c)))
            (filter (fun c => isType c t) children)).
Proof.
  induction children as [|c r IH]; [reflexivity|].
  simpl filter. destruct (isType c t); simpl.
  - destruct (Regex.test false anything (tokenText (getToken c))); [reflexivity|exact IH].
  - exact IH.
Qed.

(** [parseVariableValue] on a [(not] bracket: the first plain bracket child,
    or else the first operator bracket child, is parsed and negated. *)
Lemma parseVariableValue_not (node : PddlSyntaxNode) :
  tokenText (getToken node) = "(not" ->
  parseVariableValue node
  = match
      match getFirstChild node OpenBracket false anything with
      | Some nested => Some nested
      | None => getFirstChild node OpenBracketOperator false anything
      end
    with
    | None => None
    | Some nested => option_map negate (parseVariableValue nested)
    end.
Proof.
  destruct node as [token children closeToken]. simpl getToken. intros E.
  unfold getFirstChild. simpl getChildren.
  cbn [parseVariableValue]. rewrite E.
  change (String.eqb "(not" "(=") with false.
  change (String.eqb "(not" "(not") with true. cbv iota.
  rewrite !firstChild_find.
  destruct (find _ (filter (fun c => isType c OpenBracket) children));
    [reflexivity|].
  destruct (find _ (filter (fun c => isType c OpenBracketOperator) children));
    reflexivity.
Qed.

Lemma parseVariableValue_unsupported (node : PddlSyntaxNode) :
  includes ["(forall"; "(assign"; "(increase"; "(decrease"]
           (tokenText (getToken node)) = true ->
  parseVariableValue node = Some (UnsupportedVariableValue (nodeText node)).
Proof.
  destruct node as [token children closeToken]. simpl getToken. intros Hin.
  cbn [parseVariableValue]. rewrite Hin.
  apply includes_In in Hin. simpl in Hin.
  destruct Hin as [E|[E|[E|[E|[]]]]]; rewrite <- E; reflexivity.
Qed.

(** C8: for every [:init] bracket whose head token is [(forall], [(assign],
    [(increase] or [(decrease], [parseVariableValue] returns the unsupported
    value that carries the text of the bracket verbatim, [parseInit] puts it
    at time 0, and it is in the list of facts of the [:init] section. *)
Theorem unsupported_brackets_are_kept (node : PddlSyntaxNode) :
  includes ["(forall"; "(assign"; "(increase"; "(decrease"]
           (tokenText (getToken node)) = true ->
  parseVariableValue node = Some (UnsupportedVariableValue (nodeText node))
  /\ parseInit node
     = Some (TimedVariableValue_from zero (UnsupportedVariableValue (nodeText node)))
  /\ forall initNode,
       In node (getChildren initNode) ->
       isOpenBracket (getToken node) = true ->
       In (TimedVariableValue_from zero (UnsupportedVariableValue (nodeText node)))
          (fst (parseInitSection initNode)).
Proof.
  intros Hin.
  pose proof (parseVariableValue_unsupported node Hin) as Hvalue.
  assert (Hhead : String.eqb (tokenText (getToken node)) "(at" = false
                  /\ Regex.test true supplyDemandPattern (tokenText (getToken node))
                     = false).
  { apply includes_In in Hin. simpl in Hin.
    destruct Hin as [E|[E|[E|[E|[]]]]]; rewrite <- E; split; vm_compute; reflexivity. }
  destruct Hhead as [Hat Hsupply].
  assert (Hinit : parseInit node
                  = Some (TimedVariableValue_from zero
                            (UnsupportedVariableValue (nodeText node)))).
  { unfold parseInit. rewrite Hat, Hvalue. reflexivity. }
  split; [exact Hvalue|split; [exact Hinit|]].
  intros initNode Hchild Hbracket. unfold parseInitSection. simpl fst.
  apply (In_mapDefined parseInit _ node); [|exact Hinit].
  rewrite !filter_In. rewrite Hsupply. auto.
Qed.

(** C8, witness: the [(assign (fuel a) 3)] bracket of an [:init] section. *)
Lemma unsupported_brackets_are_kept_witness :
  nodeText assignBracket = "(assign (fuel a) 3)"
  /\ In (TimedVariableValue_from zero
           (UnsupportedVariableValue (nodeText assignBracket)))
        (fst (parseInitSection assignInit)).
Proof.
  split; [vm_compute; reflexivity|].
  assert (Hhead : includes ["(forall"; "(assign"; "(increase"; "(decrease"]
                           (tokenText (getToken assignBracket)) = true)
    by (vm_compute; reflexivity).
  apply (proj2 (proj2 (unsupported_brackets_are_kept assignBracket Hhead)) assignInit).
  - in_list.
  - vm_compute. reflexivity.
Defined.




(** C3: the text
    [(define (problem p1) (:domain d1) (:objects a b - loc)
       (:init (at 5 (visited a))))]
    is parsed to a ProblemInfo with name "p1" and domain name "d1", whose
    object-type map gives the objects a and b to the type loc, and whose
    initial facts are exactly one TimedVariableValue, of time 5, variable name
    "visited a" and boolean value true. *)
Theorem parse_problem_example :
  exists p,
    parseProblemText
      "(define (problem p1) (:domain d1) (:objects a b - loc) (:init (at 5 (visited a))))"
    = Returns (Some p)
    /\ problemInfoName p = "p1"
    /\ problemInfoDomainName p = "d1"
    /\ getObjects p = [("loc", ["a"; "b"])]
    /\ getInits p
       = [TimedVariableValue_from (Finite 5 0)
            (mkVariableValue "visited a" (BooleanValue true))].
Proof.
  vm_compute. eexists. repeat split.
Qed.

(* ================================================================== *)
(** * Further properties: the folders *)
(* ================================================================== *)

Section JsMapKeys.
Context {V : Type}.
Implicit Types (m : JsMap.t V) (k : string) (v : V).

Lemma JsMap_keys_set m k v k' :
  In k' (JsMap.keys (JsMap.set m k v)) <-> k' = k \/ In k' (JsMap.keys m).
Proof.
  induction m as [|[k0 v0] m IH]; simpl.
  - intuition congruence.
  - destruct (String.eqb_spec k0 k) as [->|Hne]; simpl.
    + intuition congruence.
    + rewrite IH. intuition congruence.
Qed.

Lemma JsMap_NoDup_set m k v :
  NoDup (JsMap.keys m) -> NoDup (JsMap.keys (JsMap.set m k v)).
Proof.
  induction m as [|[k0 v0] m IH]; simpl; intros Hnd.
  - constructor; [intros []|constructor].
  - inversion Hnd as [|? ? Hk0 Hm]; subst.
    destruct (String.eqb_spec k0 k) as [->|Hne]; simpl.
    + constructor; assumption.
    + constructor; [|auto]. fold (JsMap.keys (JsMap.set m k v)).
      rewrite JsMap_keys_set. intros [E|HIn]; [congruence|contradiction].
Qed.

Lemma JsMap_keys_adjust (f : V -> V) m k :
  JsMap.keys (JsMap.adjust f k m) = JsMap.keys m.
Proof.
  unfold JsMap.keys, JsMap.adjust. rewrite map_map. apply map_ext.
  intros [k0 v0]. simpl. destruct (String.eqb k0 k); reflexivity.
Qed.

Lemma JsMap_NoDup_delete m k :
  NoDup (JsMap.keys m) -> NoDup (JsMap.keys (JsMap.delete m k)).
Proof.
  induction m as [|[k0 v0] m IH]; simpl; intros Hnd; [constructor|].
  inversion Hnd as [|? ? Hk0 Hm]; subst.
  destruct (String.eqb k0 k); simpl; [auto|].
  constructor; [|auto]. intros HIn. apply Hk0.
  unfold JsMap.keys in *. apply in_map_iff in HIn.
  destruct HIn as [[k1 v1] [E HIn]]. apply JsMap_In_delete in HIn.
  apply in_map_iff. eauto.
Qed.

Lemma JsMap_NoDup_get m k v :
  NoDup (JsMap.keys m) -> In (k, v) m -> JsMap.get m k = Some v.
Proof.
  induction m as [|[k0 v0] m IH]; simpl; intros Hnd HIn; [destruct HIn|].
  inversion Hnd as [|? ? Hk0 Hm]; subst.
  destruct HIn as [E|HIn].
  - inversion E; subst. rewrite String.eqb_refl. reflexivity.
  - destruct (String.eqb_spec k0 k) as [->|Hne]; [|auto].
    exfalso. apply Hk0. apply in_map_iff. exists (k, v). auto.
Qed.

End JsMapKeys.

Section UniqueKeys.
Context `{Imports}.

Lemma uniqueKeys_same_folders ws ws' :
  folders ws' = folders ws -> uniqueKeys ws -> uniqueKeys ws'.
Proof. unfold uniqueKeys. intros ->. auto. Qed.

Lemma uniqueKeys_newWorkspace : uniqueKeys newWorkspace.
Proof. split; [constructor|intros path folder []]. Qed.

Lemma uniqueKeys_onFolder path g ws :
  uniqueKeys ws ->
  (forall folder, NoDup (JsMap.keys (files folder)) ->
                  NoDup (JsMap.keys (files (g folder)))) ->
  uniqueKeys (onFolder path g ws).
Proof.
  intros [Hpaths Hfiles] Hg. split; simpl.
  - rewrite JsMap_keys_adjust. exact Hpaths.
  - intros p folder HIn. apply JsMap_In_adjust in HIn.
    destruct HIn as [folder0 [HIn0 [->|[-> ->]]]]; eauto.
Qed.

Lemma uniqueKeys_add path f ws :
  uniqueKeys ws -> uniqueKeys (onFolder path (fun folder => Folder_add folder f) ws).
Proof.
  intros Hu. apply uniqueKeys_onFolder; [exact Hu|].
  intros folder Hnd. unfold Folder_add. destruct (negb _); [|exact Hnd].
  simpl. apply JsMap_NoDup_set, Hnd.
Qed.

Lemma uniqueKeys_remove path f ws :
  uniqueKeys ws ->
  uniqueKeys (onFolder path (fun folder => snd (Folder_remove folder f)) ws).
Proof.
  intros Hu. apply uniqueKeys_onFolder; [exact Hu|].
  intros folder Hnd. simpl. apply JsMap_NoDup_delete, Hnd.
Qed.

Lemma uniqueKeys_onFileAt path key h ws :
  uniqueKeys ws -> uniqueKeys (onFileAt path key h ws).
Proof.
  intros Hu. apply uniqueKeys_onFolder; [exact Hu|].
  intros folder Hnd. simpl. rewrite JsMap_keys_adjust. exact Hnd.
Qed.

Lemma uniqueKeys_upsertFolder path ws :
  uniqueKeys ws -> uniqueKeys (snd (upsertFolder path ws)).
Proof.
  intros [Hpaths Hfiles]. unfold upsertFolder.
  destruct (JsMap.get (folders ws) path) as [folder|] eqn:E; [split; assumption|].
  split; simpl.
  - apply JsMap_NoDup_set, Hpaths.
  - intros p folder HIn. apply JsMap_In_set in HIn.
    destruct HIn as [[-> ->]|Hold]; [constructor|eauto].
Qed.

Lemma uniqueKeys_emitIfNew symbol f ws :
  uniqueKeys ws -> uniqueKeys (emitIfNew symbol f ws).
Proof. apply uniqueKeys_same_folders, folders_emitIfNew. Qed.

Lemma uniqueKeys_invalidateDiagnostics f ws :
  uniqueKeys ws -> uniqueKeys (invalidateDiagnostics f ws).
Proof. intros Hu. apply uniqueKeys_emitIfNew, uniqueKeys_onFileAt, Hu. Qed.

Lemma uniqueKeys_fold_left {A : Type} (g : PddlWorkspace -> A -> PddlWorkspace) l :
  (forall w x, uniqueKeys w -> uniqueKeys (g w x)) ->
  forall ws, uniqueKeys ws -> uniqueKeys (fold_left g l ws).
Proof.
  intros Hg. induction l as [|x l IH]; intros ws Hu; simpl; auto.
Qed.

Lemma uniqueKeys_markPlansAsDirty p ws :
  uniqueKeys ws -> uniqueKeys (markPlansAsDirty p ws).
Proof.
  intros Hu. unfold markPlansAsDirty.
  apply uniqueKeys_fold_left; [intros; apply uniqueKeys_invalidateDiagnostics; assumption|].
  apply uniqueKeys_fold_left; [intros; apply uniqueKeys_invalidateDiagnostics; assumption|].
  exact Hu.
Qed.

Lemma uniqueKeys_markProblemsAsDirty d ws :
  uniqueKeys ws -> uniqueKeys (markProblemsAsDirty d ws).
Proof.
  intros Hu. unfold markProblemsAsDirty.
  apply uniqueKeys_fold_left; [|exact Hu].
  intros. apply uniqueKeys_markPlansAsDirty, uniqueKeys_invalidateDiagnostics.
  assumption.
Qed.

Lemma uniqueKeys_insertFile path uri language v t ws :
  uniqueKeys ws -> uniqueKeys (snd (insertFile path uri language v t ws)).
Proof.
  intros Hu. unfold insertFile. simpl. do 2 apply uniqueKeys_emitIfNew.
  pose proof (uniqueKeys_add path (parseFile uri language v t) ws Hu) as Hadd.
  destruct (isDomain _); [apply uniqueKeys_markProblemsAsDirty, Hadd|].
  destruct (isProblem _); [apply uniqueKeys_markPlansAsDirty, Hadd|exact Hadd].
Qed.

Lemma uniqueKeys_upsertFile uri language v t force ws :
  uniqueKeys ws -> uniqueKeys (snd (upsertFile uri language v t force ws)).
Proof.
  intros Hu. unfold upsertFile.
  pose proof (uniqueKeys_upsertFolder (getFolderPath uri) ws Hu) as Hu1.
  destruct (upsertFolder (getFolderPath uri) ws) as [folder ws1]. simpl in Hu1.
  destruct (Folder_get folder uri) as [fileInfo|];
    [|apply uniqueKeys_insertFile, Hu1].
  destruct (update fileInfo v t force) as [updated fileInfo'].
  pose proof (uniqueKeys_onFileAt (getFolderPath uri) uri (fun _ => fileInfo') ws1 Hu1)
    as Hmut.
  destruct updated; [|exact Hmut].
  eapply uniqueKeys_same_folders; [|exact Hmut]. reflexivity.
Qed.

Lemma uniqueKeys_reParseFile f ws :
  uniqueKeys ws -> uniqueKeys (snd (reParseFile f ws)).
Proof.
  intros Hu. unfold reParseFile.
  pose proof (uniqueKeys_upsertFolder (getFolderPath (fileUri f)) ws Hu) as Hu1.
  destruct (upsertFolder (getFolderPath (fileUri f)) ws) as [folder ws1].
  cbn [snd] in *.
  apply uniqueKeys_emitIfNew, uniqueKeys_add, uniqueKeys_remove, Hu1.
Qed.

Lemma uniqueKeys_perform op ws : uniqueKeys ws -> uniqueKeys (perform ws op).
Proof.
  intros Hu. destruct op; simpl.
  - apply uniqueKeys_upsertFile, Hu.
  - unfold upsertAndParseFile.
    pose proof (uniqueKeys_upsertFile uri language fileVersion fileText false ws Hu)
      as Hu1.
    destruct (upsertFile uri language fileVersion fileText false ws) as [f ws1].
    simpl in Hu1.
    destruct (getStatus f); [exact Hu1|apply uniqueKeys_reParseFile, Hu1].
  - apply uniqueKeys_reParseFile, Hu.
  - unfold parsingTimeoutFires. destruct (parsingTimeout ws); [|exact Hu].
    unfold parseAllDirty. apply uniqueKeys_fold_left.
    + intros. apply uniqueKeys_reParseFile. assumption.
    + eapply uniqueKeys_same_folders; [|exact Hu]. reflexivity.
  - apply uniqueKeys_invalidateDiagnostics, Hu.
  - apply uniqueKeys_markProblemsAsDirty, Hu.
  - apply uniqueKeys_markPlansAsDirty, Hu.
  - exact Hu.
  - unfold removeFile. destruct (_ && _); [exact Hu|].
    destruct (JsMap.get _ _) as [folder|]; [|exact Hu].
    destruct (Folder_get folder documentUri) as [d|]; [|exact Hu]. simpl.
    apply uniqueKeys_remove, uniqueKeys_emitIfNew, Hu.
  - exact Hu.
  - exact Hu.
Qed.

(** Every reachable workspace is well formed and has unique keys. *)
Lemma reachable_store ws : reachable ws -> wellFormed ws /\ uniqueKeys ws.
Proof.
  intros [ops ->]. split.
  - apply wellFormed_performAll, wellFormed_newWorkspace.
  - unfold performAll. apply uniqueKeys_fold_left;
      [intros; apply uniqueKeys_perform; assumption|apply uniqueKeys_newWorkspace].
Qed.

Lemma reachable_perform ws op : reachable ws -> reachable (perform ws op).
Proof.
  intros [ops ->]. exists (ops ++ [op])%list. unfold performAll.
  rewrite fold_left_app. reflexivity.
Qed.

(** In a well-formed workspace with unique keys a file is listed exactly
    when it is found under its URI. *)
Lemma In_getAllFiles_getFileInfo ws f :
  wellFormed ws -> uniqueKeys ws ->
  (In f (getAllFiles ws) <-> getFileInfo ws (fileUri f) = Some f).
Proof.
  intros Hwf [Hpaths Hfiles]. split.
  - intros HIn. apply In_getAllFiles in HIn.
    destruct HIn as [path [folder [key [HF Hf]]]].
    destruct (Hwf _ _ _ _ HF Hf) as [Ekey [Epath _]]. subst key path.
    unfold getFileInfo, Folder_get.
    rewrite (JsMap_NoDup_get _ _ _ Hpaths HF).
    apply JsMap_NoDup_get; [eapply Hfiles; eassumption|exact Hf].
  - intros E. apply getFileInfo_In in E. destruct E as [folder [HF Hf]].
    unfold getAllFiles. apply in_flat_map. exists folder. split.
    + apply in_map_iff. exists (getFolderPath (fileUri f), folder). auto.
    + apply in_map_iff. exists (fileUri f, f). auto.
Qed.

Lemma NoDup_fileUri_folders (fs : JsMap.t Folder) :
  NoDup (JsMap.keys fs) ->
  (forall path folder, In (path, folder) fs -> NoDup (JsMap.keys (files folder))) ->
  (forall path folder key f,
      In (path, folder) fs -> In (key, f) (files folder) ->
      key = fileUri f /\ path = getFolderPath key) ->
  NoDup (map fileUri
           (flat_map (fun folder => JsMap.values (files folder)) (JsMap.values fs))).
Proof.
  induction fs as [|[p F] fs IH]; simpl; intros Hpaths Hfiles Hwf; [constructor|].
  inversion Hpaths as [|? ? Hp Hrest]; subst.
  rewrite map_app. apply NoDup_app.
  - assert (E : map fileUri (JsMap.values (files F)) = JsMap.keys (files F)).
    { unfold JsMap.values, JsMap.keys. rewrite map_map. apply map_ext_in.
      intros [key f] HIn. simpl. symmetry.
      apply (Hwf p F key f); [left; reflexivity|exact HIn]. }
    rewrite E. apply (Hfiles p F). left. reflexivity.
  - apply IH; [exact Hrest|intros; eapply Hfiles; right; eassumption|].
    intros. eapply Hwf; [right|]; eassumption.
  - intros u Hu1 Hu2. apply Hp.
    apply in_map_iff in Hu1. destruct Hu1 as [f [Ef Hf]].
    apply in_map_iff in Hf. destruct Hf as [[key f'] [E Hf]]. simpl in E. subst f'.
    destruct (Hwf p F key f (or_introl eq_refl) Hf) as [Ekey Epath].
    apply in_map_iff in Hu2. destruct Hu2 as [g [Eg Hg]].
    apply in_flat_map in Hg. destruct Hg as [G [HG Hg]].
    apply in_map_iff in HG. destruct HG as [[q G'] [E HG]]. simpl in E. subst G'.
    apply in_map_iff in Hg. destruct Hg as [[key' g'] [E Hg]]. simpl in E. subst g'.
    destruct (Hwf q G key' g (or_intror HG) Hg) as [Ekey' Epath'].
    apply in_map_iff. exists (q, G). split; [|exact HG]. simpl. congruence.
Qed.

End UniqueKeys.

Lemma getAllFilesIf_filter (ws : PddlWorkspace) (predicate : FileInfo -> bool) :
  getAllFilesIf ws predicate = filter predicate (getAllFiles ws).
Proof.
  unfold getAllFilesIf, getAllFiles.
  induction (JsMap.values (folders ws)) as [|folder l IH]; simpl; [reflexivity|].
  rewrite filter_app, IH. reflexivity.
Qed.

(** X2: a folder stores a file whose URI does not have the [git] scheme under
    that URI: after [add] the file is found, [hasFile] holds, the other URIs
    are as before; [remove] reports that the file was there and the file is
    not found afterwards, and it leaves the other URIs as they are;
    [removeByUri] returns whether the folder had the URI. *)
Theorem folder_add_get_remove `{Imports} (folder : Folder) (f : FileInfo) :
  uriScheme (fileUri f) <> "git" ->
  Folder_get (Folder_add folder f) (fileUri f) = Some f
  /\ Folder_hasFile (Folder_add folder f) (fileUri f) = true
  /\ (forall uri, uri <> fileUri f ->
        Folder_get (Folder_add folder f) uri = Folder_get folder uri)
  /\ fst (Folder_remove (Folder_add folder f) f) = true
  /\ Folder_get (snd (Folder_remove (Folder_add folder f) f)) (fileUri f) = None
  /\ (forall uri, uri <> fileUri f ->
        Folder_get (snd (Folder_remove folder f)) uri = Folder_get folder uri)
  /\ (forall uri,
        fst (Folder_removeByUri folder uri) = Folder_hasFile folder uri
        /\ Folder_hasFile (snd (Folder_removeByUri folder uri)) uri = false).
Proof.
  intros Hgit.
  assert (Eadd : Folder_add folder f
                 = mkFolder (JsMap.set (files folder) (fileUri f) f)
                            (folderPath folder)).
  { unfold Folder_add. destruct (String.eqb_spec (uriScheme (fileUri f)) "git");
      [contradiction|reflexivity]. }
  rewrite Eadd.
  unfold Folder_get, Folder_hasFile, Folder_remove, Folder_removeByUri, JsMap.has.
  simpl. rewrite !JsMap_get_delete, !JsMap_get_set, !String.eqb_refl.
  repeat split.
  - intros uri Huri. rewrite JsMap_get_set.
    destruct (String.eqb_spec (fileUri f) uri); congruence.
  - intros uri Huri. rewrite JsMap_get_delete.
    destruct (String.eqb_spec (fileUri f) uri); congruence.
  - rewrite JsMap_get_delete, String.eqb_refl. reflexivity.
Qed.

(** X2, witness: the example domain in an empty folder. *)
Lemma folder_add_get_remove_witness :
  Folder_get (@Folder_add exampleImports (newFolder "/w") exampleDomain)
             (fileUri exampleDomain)
  = Some exampleDomain.
Proof.
  apply (@folder_add_get_remove exampleImports (newFolder "/w") exampleDomain).
  vm_compute. discriminate.
Defined.

(** X3: after any sequence of operations no two stored files have the same
    URI, a file is listed by [getAllFiles] exactly when [getFileInfo] finds
    it under its own URI, and [getAllFilesIf] lists the files of
    [getAllFiles] that satisfy the predicate, in the same order. *)
Theorem stored_files_have_unique_uris `{Imports} (ops : list Operation) :
  let ws := performAll ops newWorkspace in
  NoDup (map fileUri (getAllFiles ws))
  /\ (forall f, In f (getAllFiles ws) <-> getFileInfo ws (fileUri f) = Some f)
  /\ (forall predicate,
        getAllFilesIf ws predicate = filter predicate (getAllFiles ws)).
Proof.
  intros ws.
  destruct (reachable_store ws) as [Hwf Hu]; [exists ops; reflexivity|].
  split; [|split].
  - destruct Hu as [Hpaths Hfiles]. unfold getAllFiles.
    apply NoDup_fileUri_folders; [exact Hpaths|exact Hfiles|].
    intros path folder key f HF Hf. destruct (Hwf _ _ _ _ HF Hf) as [E1 [E2 _]].
    auto.
  - intros f. apply In_getAllFiles_getFileInfo; assumption.
  - apply getAllFilesIf_filter.
Qed.

(* ================================================================== *)
(** * Further properties: upsert, re-parse and removal *)
(* ================================================================== *)

Lemma NoDup_map_filter {A B : Type} (g : A -> B) (p : A -> bool) (l : list A) :
  NoDup (map g l) -> NoDup (map g (filter p l)).
Proof.
  induction l as [|x l IH]; simpl; intros Hnd; [constructor|].
  inversion Hnd as [|? ? Hx Hl]; subst.
  destruct (p x); simpl; [|auto].
  constructor; [|auto]. intros HIn. apply Hx.
  apply in_map_iff in HIn. destruct HIn as [y [E Hy]].
  apply filter_In in Hy. apply in_map_iff. exists y. tauto.
Qed.

Section StoreLookups.
Context `{Imports}.

Lemma getStatus_parseFile uri language v t :
  getStatus (parseFile uri language v t) = Parsed.
Proof.
  unfold parseFile. destruct language.
  - destruct (tryDomain uri v t); [reflexivity|].
    destruct (tryProblem uri v t) as [[n d]|]; reflexivity.
  - destruct (parsePlan uri v t); reflexivity.
  - destruct (parseHappenings uri v t); reflexivity.
Qed.

Lemma fileAt_onFolder p g ws path key :
  fileAt (onFolder p g ws) path key
  = if String.eqb p path
    then match JsMap.get (folders ws) path with
         | Some folder => JsMap.get (files (g folder)) key
         | None => None
         end
    else fileAt ws path key.
Proof.
  unfold fileAt, onFolder. simpl. rewrite JsMap_get_adjust.
  destruct (String.eqb_spec p path) as [->|]; [|reflexivity].
  destruct (JsMap.get (folders ws) path); reflexivity.
Qed.

Lemma fileAt_add_same d ws p folder :
  JsMap.get (folders ws) p = Some folder ->
  uriScheme (fileUri d) <> "git" ->
  fileAt (onFolder p (fun folder => Folder_add folder d) ws) p (fileUri d) = Some d.
Proof.
  intros Efolder Hgit. rewrite fileAt_onFolder, String.eqb_refl, Efolder.
  unfold Folder_add.
  destruct (String.eqb_spec (uriScheme (fileUri d)) "git"); [contradiction|].
  simpl. rewrite JsMap_get_set, String.eqb_refl. reflexivity.
Qed.

Lemma fileAt_add_git d ws p path key :
  uriScheme (fileUri d) = "git" ->
  fileAt (onFolder p (fun folder => Folder_add folder d) ws) path key
  = fileAt ws path key.
Proof.
  intros Hgit. rewrite fileAt_onFolder. unfold Folder_add. rewrite Hgit. simpl.
  destruct (String.eqb_spec p path) as [->|]; reflexivity.
Qed.

Lemma fileAt_remove_same f ws p :
  fileAt (onFolder p (fun folder => snd (Folder_remove folder f)) ws) p (fileUri f)
  = None.
Proof.
  rewrite fileAt_onFolder, String.eqb_refl.
  destruct (JsMap.get (folders ws) p); [|reflexivity].
  simpl. rewrite JsMap_get_delete, String.eqb_refl. reflexivity.
Qed.

Lemma folders_get_onFolder p g ws path :
  JsMap.get (folders (onFolder p g ws)) path
  = if String.eqb p path
    then option_map g (JsMap.get (folders ws) path)
    else JsMap.get (folders ws) path.
Proof. unfold onFolder. simpl. apply JsMap_get_adjust. Qed.

(** What [reParseFile] stores, for any workspace. *)
Lemma reParseFile_stores f ws :
  uriScheme (fileUri f) <> "git" ->
  getFileInfo (snd (reParseFile f ws)) (fileUri f)
  = Some (parseFile (fileUri f) (getLanguage f) (getVersion f) (getText f)).
Proof.
  intros Hgit. rewrite getFileInfo_fileAt. unfold reParseFile.
  pose proof (upsertFolder_get (getFolderPath (fileUri f)) ws) as Efolder.
  destruct (upsertFolder (getFolderPath (fileUri f)) ws) as [folder ws1].
  cbn [snd fst] in *. rewrite fileAt_emitIfNew.
  pose proof (fileAt_add_same
                (parseFile (fileUri f) (getLanguage f) (getVersion f) (getText f))
                (onFolder (getFolderPath (fileUri f))
                   (fun folder => snd (Folder_remove folder f)) ws1)
                (getFolderPath (fileUri f))
                (snd (Folder_remove folder f))) as Hadd.
  rewrite fileUri_parseFile in Hadd. apply Hadd; [|exact Hgit].
  rewrite folders_get_onFolder, String.eqb_refl, Efolder. reflexivity.
Qed.

Lemma emitted_emitIfNew symbol f ws :
  emitted (emitIfNew symbol f ws) = emitted ws
  \/ emitted (emitIfNew symbol f ws) = (emitted ws ++ [(symbol, f)])%list.
Proof.
  unfold emitIfNew. destruct (isUPDATED symbol); [|right; reflexivity].
  destruct (JsMap.get _ _) as [last|]; [|right; reflexivity].
  destruct (_ <=? _)%Z; [left|right]; reflexivity.
Qed.

(** X4: [reParseFile] returns the file parsed again from the URI, language,
    version and text of its argument. Unless the URI has the [git] scheme the
    parsed file is what [getFileInfo] finds under that URI afterwards,
    whether the argument was stored or not; with the [git] scheme nothing is
    found under it. Every other URI resolves as before, and the only event
    that may be emitted is the UPDATED event of the parsed file. *)
Theorem reParseFile_replaces_the_file (f : FileInfo) (ws : PddlWorkspace) :
  let parsed := parseFile (fileUri f) (getLanguage f) (getVersion f) (getText f) in
  let ws' := snd (reParseFile f ws) in
  fst (reParseFile f ws) = parsed
  /\ (uriScheme (fileUri f) <> "git" -> getFileInfo ws' (fileUri f) = Some parsed)
  /\ (uriScheme (fileUri f) = "git" -> getFileInfo ws' (fileUri f) = None)
  /\ (forall uri, uri <> fileUri f -> getFileInfo ws' uri = getFileInfo ws uri)
  /\ (emitted ws' = emitted ws
      \/ emitted ws' = (emitted ws ++ [(UPDATED, parsed)])%list).
Proof.
  intros parsed ws'. split; [|split; [|split; [|split]]].
  - unfold reParseFile.
    destruct (upsertFolder (getFolderPath (fileUri f)) ws); reflexivity.
  - intros Hgit. apply reParseFile_stores, Hgit.
  - intros Hgit. subst ws'. rewrite getFileInfo_fileAt. unfold reParseFile.
    destruct (upsertFolder (getFolderPath (fileUri f)) ws) as [folder ws1].
    cbn [snd]. rewrite fileAt_emitIfNew, fileAt_add_git.
    + apply fileAt_remove_same.
    + rewrite fileUri_parseFile. exact Hgit.
  - intros uri Huri. apply reParseFile_keeps_other_files, Huri.
  - subst ws'. unfold reParseFile.
    destruct (upsertFolder (getFolderPath (fileUri f)) ws) as [folder ws1] eqn:E.
    cbn [snd].
    assert (Eq : emitted ws1 = emitted ws).
    { pose proof (quiet_upsertFolder (getFolderPath (fileUri f)) ws) as [_ Hq].
      rewrite E in Hq. exact Hq. }
    match goal with |- context [emitIfNew UPDATED ?x ?w] =>
      destruct (emitted_emitIfNew UPDATED x w) as [Ee|Ee]; rewrite Ee end;
      simpl; rewrite Eq; auto.
Qed.

End StoreLookups.

(** X4, witness: the edited domain of the example is parsed again. *)
Lemma reParseFile_replaces_the_file_witness :
  let dirtyDomain := snd (update exampleDomain 2 domainText2 false) in
  @getFileInfo exampleImports
    (snd (@reParseFile exampleImports dirtyDomain editedWorkspace))
    (fileUri dirtyDomain)
  = Some (@parseFile exampleImports (fileUri dirtyDomain) (getLanguage dirtyDomain)
            (getVersion dirtyDomain) (getText dirtyDomain)).
Proof.
  intros dirtyDomain.
  apply (proj1 (proj2 (@reParseFile_replaces_the_file exampleImports dirtyDomain
                         editedWorkspace))).
  vm_compute. discriminate.
Defined.

Section Upserts.
Context `{Imports}.

(** What [upsertFile] stores, for any workspace. *)
Lemma upsertFile_stores uri language v t force ws :
  uriScheme uri <> "git" ->
  getFileInfo (snd (upsertFile uri language v t force ws)) uri
  = Some (fst (upsertFile uri language v t force ws)).
Proof.
  intros Hgit. rewrite getFileInfo_fileAt. unfold upsertFile.
  pose proof (upsertFolder_get (getFolderPath uri) ws) as Efolder.
  destruct (upsertFolder (getFolderPath uri) ws) as [folder ws1].
  cbn [snd fst] in Efolder.
  destruct (Folder_get folder uri) as [fileInfo|] eqn:Eget.
  - destruct (update fileInfo v t force) as [updated fileInfo']. cbn [fst snd].
    assert (E : fileAt (onFileAt (getFolderPath uri) uri (fun _ => fileInfo') ws1)
                       (getFolderPath uri) uri = Some fileInfo').
    { rewrite fileAt_onFileAt, !String.eqb_refl. simpl.
      unfold fileAt. rewrite Efolder. unfold Folder_get in Eget. rewrite Eget.
      reflexivity. }
    destruct updated; exact E.
  - unfold insertFile. cbn [fst snd]. rewrite !fileAt_emitIfNew.
    set (f := parseFile uri language v t).
    set (ws2 := onFolder (getFolderPath uri) (fun folder => Folder_add folder f) ws1).
    assert (Eadd : fileAt ws2 (getFolderPath uri) uri = Some f).
    { pose proof (fileAt_add_same f ws1 (getFolderPath uri) folder Efolder) as Ha.
      unfold f in Ha at 1 3. rewrite fileUri_parseFile in Ha. apply Ha, Hgit. }
    assert (Hs : forall ws3, settles ws2 ws3 -> fileAt ws3 (getFolderPath uri) uri = Some f).
    { intros ws3 Hs. destruct (Hs _ _ _ Eadd) as [E|E]; rewrite E; [reflexivity|].
      f_equal. rewrite <- (getStatus_parseFile uri language v t). apply setStatus_same. }
    destruct (isDomain f); [apply Hs, settles_markProblemsAsDirty|].
    destruct (isProblem f); [apply Hs, settles_markPlansAsDirty|exact Eadd].
Qed.

Lemma fileUri_upsertFile uri language v t force ws :
  wellFormed ws ->
  fileUri (fst (upsertFile uri language v t force ws)) = uri.
Proof.
  intros Hwf. unfold upsertFile.
  pose proof (wellFormed_upsertFolder (getFolderPath uri) ws Hwf) as Hwf1.
  pose proof (upsertFolder_In (getFolderPath uri) ws) as HIn.
  destruct (upsertFolder (getFolderPath uri) ws) as [folder ws1]. cbn [fst snd] in *.
  destruct (Folder_get folder uri) as [fileInfo|] eqn:Eget.
  - pose proof (fileUri_update fileInfo v t force) as Eu.
    destruct (update fileInfo v t force) as [updated fileInfo']. cbn [fst snd] in *.
    apply JsMap_get_In in Eget.
    destruct (Hwf1 _ _ _ _ HIn Eget) as [E _]. congruence.
  - unfold insertFile. cbn [fst]. apply fileUri_parseFile.
Qed.

(** X5: after [upsertFile] of a URI that does not have the [git] scheme, the
    FileInfo it returned is the one [getFileInfo] finds under that URI,
    whether the file was inserted or updated; and in a workspace reached by
    operations the returned file carries the URI it was upserted under. *)
Theorem upsertFile_then_getFileInfo (ops : list Operation) (uri : string)
    (language : PddlLanguage) (v : Z) (t : string) (force : bool) :
  let ws := performAll ops newWorkspace in
  uriScheme uri <> "git" ->
  getFileInfo (snd (upsertFile uri language v t force ws)) uri
  = Some (fst (upsertFile uri language v t force ws))
  /\ fileUri (fst (upsertFile uri language v t force ws)) = uri.
Proof.
  intros ws Hgit. split.
  - apply upsertFile_stores, Hgit.
  - apply fileUri_upsertFile, wellFormed_performAll, wellFormed_newWorkspace.
Qed.

(** X6: [upsertFile] of a URI that is stored does not parse and is silent:
    it returns the stored file as [update] left it, which is what is found
    under the URI afterwards; it emits nothing, leaves every other URI and
    the associations as they are, and the re-parse timer is pending
    afterwards exactly when it was pending or [update] accepted the text. *)
Theorem upsertFile_of_stored_file (ws : PddlWorkspace) (uri : string)
    (language : PddlLanguage) (v : Z) (t : string) (force : bool) (f : FileInfo) :
  getFileInfo ws uri = Some f ->
  let ws' := snd (upsertFile uri language v t force ws) in
  fst (upsertFile uri language v t force ws) = snd (update f v t force)
  /\ getFileInfo ws' uri = Some (snd (update f v t force))
  /\ (forall uri', uri' <> uri -> getFileInfo ws' uri' = getFileInfo ws uri')
  /\ emitted ws' = emitted ws
  /\ lastVersionUpdateEmitted ws' = lastVersionUpdateEmitted ws
  /\ problemToDomainMap ws' = problemToDomainMap ws
  /\ planToProblemMap ws' = planToProblemMap ws
  /\ parsingTimeout ws' = fst (update f v t force) || parsingTimeout ws.
Proof.
  intros Ef ws'. subst ws'. unfold getFileInfo in Ef. unfold upsertFile, upsertFolder.
  destruct (JsMap.get (folders ws) (getFolderPath uri)) as [folder|] eqn:Efolder;
    [|discriminate].
  rewrite Ef. destruct (update f v t force) as [updated f']. cbn [fst snd].
  assert (Estored : forall w,
             folders w = folders (onFileAt (getFolderPath uri) uri (fun _ => f') ws) ->
             getFileInfo w uri = Some f'
             /\ forall uri', uri' <> uri -> getFileInfo w uri' = getFileInfo ws uri').
  { intros w Ew. split.
    - rewrite getFileInfo_fileAt. unfold fileAt at 1. rewrite Ew.
      change (fileAt (onFileAt (getFolderPath uri) uri (fun _ => f') ws)
                     (getFolderPath uri) uri = Some f').
      rewrite fileAt_onFileAt, !String.eqb_refl. simpl.
      unfold fileAt. rewrite Efolder. unfold Folder_get in Ef. rewrite Ef. reflexivity.
    - intros uri' Huri. rewrite !getFileInfo_fileAt. unfold fileAt at 1. rewrite Ew.
      change (fileAt (onFileAt (getFolderPath uri) uri (fun _ => f') ws)
                     (getFolderPath uri') uri' = fileAt ws (getFolderPath uri') uri').
      rewrite fileAt_onFileAt.
      destruct (String.eqb_spec uri uri'); [congruence|].
      rewrite andb_false_r. reflexivity. }
  destruct updated; cbn [fst snd];
    (destruct (Estored _ eq_refl) as [E1 E2]; repeat split; auto).
Qed.

(** X7: [upsertAndParseFile] never returns a Dirty file; in a workspace
    reached by operations, for a URI that does not have the [git] scheme, the
    file it returns carries the URI and is the one found under it
    afterwards. *)
Theorem upsertAndParseFile_returns_parsed (ops : list Operation) (uri : string)
    (language : PddlLanguage) (v : Z) (t : string) :
  let ws := performAll ops newWorkspace in
  let r := upsertAndParseFile uri language v t ws in
  getStatus (fst r) = Parsed
  /\ (uriScheme uri <> "git" ->
      fileUri (fst r) = uri /\ getFileInfo (snd r) uri = Some (fst r)).
Proof.
  intros ws r. subst r. unfold upsertAndParseFile.
  assert (Hwf : wellFormed ws)
    by apply wellFormed_performAll, wellFormed_newWorkspace.
  pose proof (fileUri_upsertFile uri language v t false ws Hwf) as Euri.
  pose proof (upsertFile_stores uri language v t false ws) as Estore.
  destruct (upsertFile uri language v t false ws) as [f ws1]. cbn [fst snd] in *.
  destruct (getStatus f) eqn:Es.
  - cbn [fst snd]. split; [exact Es|]. intros Hgit. auto.
  - pose proof (reParseFile_stores f ws1) as Hre.
    unfold reParseFile in *.
    destruct (upsertFolder (getFolderPath (fileUri f)) ws1) as [folder ws2].
    cbn [fst snd] in *. split; [apply getStatus_parseFile|].
    subst uri. intros Hgit. rewrite fileUri_parseFile. split; [reflexivity|].
    apply Hre, Hgit.
Qed.

End Upserts.

(** X5, witness: the domain is upserted into the folder of the problems. *)
Lemma upsertFile_then_getFileInfo_witness :
  @getFileInfo exampleImports
    (snd (@upsertFile exampleImports domainUri PDDL 1 domainText false
            (@performAll exampleImports problemsOperations newWorkspace)))
    domainUri
  = Some (fst (@upsertFile exampleImports domainUri PDDL 1 domainText false
                 (@performAll exampleImports problemsOperations newWorkspace))).
Proof.
  apply (@upsertFile_then_getFileInfo exampleImports problemsOperations domainUri
           PDDL 1 domainText false).
  vm_compute. discriminate.
Defined.

(** X6, witness: the stored domain of the example is upserted at version 2. *)
Lemma upsertFile_of_stored_file_witness :
  emitted (snd (@upsertFile exampleImports domainUri PDDL 2 domainText2 false
                  exampleWorkspace))
  = emitted exampleWorkspace.
Proof.
  assert (E : @getFileInfo exampleImports exampleWorkspace domainUri = Some exampleDomain)
    by (vm_compute; reflexivity).
  apply (@upsertFile_of_stored_file exampleImports exampleWorkspace domainUri PDDL 2
           domainText2 false exampleDomain E).
Defined.

(** X7, witness: the stored domain is upserted at version 2 and parsed. *)
Lemma upsertAndParseFile_returns_parsed_witness :
  let r := @upsertAndParseFile exampleImports domainUri PDDL 2 domainText2
             (@performAll exampleImports exampleOperations newWorkspace) in
  fileUri (fst r) = domainUri
  /\ @getFileInfo exampleImports (snd r) domainUri = Some (fst r).
Proof.
  apply (@upsertAndParseFile_returns_parsed exampleImports exampleOperations
           domainUri PDDL 2 domainText2).
  vm_compute. discriminate.
Defined.

Section Batch.
Context `{Imports}.

Lemma parsingTimeout_emitIfNew symbol f ws :
  parsingTimeout (emitIfNew symbol f ws) = parsingTimeout ws.
Proof.
  unfold emitIfNew. destruct (isUPDATED symbol); [|reflexivity].
  destruct (JsMap.get _ _) as [last|]; [|reflexivity].
  destruct (_ <=? _)%Z; reflexivity.
Qed.

Lemma parsingTimeout_reParseFile f ws :
  parsingTimeout (snd (reParseFile f ws)) = parsingTimeout ws.
Proof.
  unfold reParseFile, upsertFolder.
  destruct (JsMap.get (folders ws) (getFolderPath (fileUri f)));
    cbn [snd]; rewrite parsingTimeout_emitIfNew; reflexivity.
Qed.

Lemma reParseAll_other l ws uri :
  (forall f, In f l -> fileUri f <> uri) ->
  getFileInfo (reParseAll l ws) uri = getFileInfo ws uri.
Proof.
  revert ws. induction l as [|g l IH]; intros ws Hl; [reflexivity|].
  simpl. rewrite IH; [|intros f Hf; apply Hl; right; exact Hf].
  apply reParseFile_keeps_other_files. intros E. apply (Hl g); [left; reflexivity|].
  symmetry. exact E.
Qed.

Lemma reParseAll_hit l ws f :
  NoDup (map fileUri l) -> In f l -> uriScheme (fileUri f) <> "git" ->
  getFileInfo (reParseAll l ws) (fileUri f)
  = Some (parseFile (fileUri f) (getLanguage f) (getVersion f) (getText f)).
Proof.
  revert ws. induction l as [|g l IH]; intros ws Hnd HIn Hgit; [destruct HIn|].
  simpl in *. inversion Hnd as [|? ? Hg Hl]; subst.
  destruct HIn as [->|HIn].
  - rewrite reParseAll_other; [apply reParseFile_stores, Hgit|].
    intros x Hx E. apply Hg. rewrite <- E. apply in_map, Hx.
  - apply IH; assumption.
Qed.

Lemma parsingTimeout_reParseAll l ws :
  parsingTimeout (reParseAll l ws) = parsingTimeout ws.
Proof.
  revert ws. induction l as [|g l IH]; intros ws; [reflexivity|].
  simpl. rewrite IH. apply parsingTimeout_reParseFile.
Qed.

(** X8: when the timer of [scheduleParsing] fires in a workspace reached by
    operations, the timer is no longer pending, every file that was stored
    Dirty is replaced by the file parsed again from its URI, language,
    version and text, every file that was stored Parsed stays as it is, and
    no stored file is Dirty afterwards. *)
Theorem batch_reparse_leaves_no_dirty_file (ops : list Operation) :
  let ws := performAll ops newWorkspace in
  parsingTimeout ws = true ->
  let ws' := parsingTimeoutFires ws in
  parsingTimeout ws' = false
  /\ (forall f, getFileInfo ws (fileUri f) = Some f -> getStatus f = Dirty ->
                getFileInfo ws' (fileUri f)
                = Some (parseFile (fileUri f) (getLanguage f) (getVersion f)
                                  (getText f)))
  /\ (forall f, getFileInfo ws (fileUri f) = Some f -> getStatus f = Parsed ->
                getFileInfo ws' (fileUri f) = Some f)
  /\ (forall f, In f (getAllFiles ws') -> getStatus f = Parsed).
Proof.
  intros ws Htimer ws'.
  assert (Hreach : reachable ws) by (exists ops; reflexivity).
  destruct (reachable_store ws Hreach) as [Hwf Hu].
  assert (Hreach' : reachable ws')
    by exact (reachable_perform ws OpParsingTimeoutFires Hreach).
  destruct (reachable_store ws' Hreach') as [Hwf' Hu'].
  set (ws0 := mkWorkspace (folders ws) false (lastVersionUpdateEmitted ws)
                          (problemToDomainMap ws) (planToProblemMap ws) (emitted ws)).
  set (l := filter isDirty (getAllFiles ws)).
  assert (Ews' : ws' = reParseAll l ws0).
  { subst ws'. unfold parsingTimeoutFires. rewrite Htimer. unfold parseAllDirty.
    rewrite getAllFilesIf_filter. reflexivity. }
  assert (Hnd : NoDup (map fileUri l)).
  { apply NoDup_map_filter. destruct Hu as [Hpaths Hfiles]. unfold getAllFiles.
    apply NoDup_fileUri_folders; [exact Hpaths|exact Hfiles|].
    intros path folder key f HF Hf. destruct (Hwf _ _ _ _ HF Hf) as [E1 [E2 _]].
    auto. }
  assert (Hin : forall f, In f l <-> getFileInfo ws (fileUri f) = Some f
                                     /\ getStatus f = Dirty).
  { intros f. unfold l. rewrite filter_In, (In_getAllFiles_getFileInfo ws f Hwf Hu).
    unfold isDirty. destruct (getStatus f); intuition congruence. }
  assert (Hgit : forall f, getFileInfo ws (fileUri f) = Some f ->
                           uriScheme (fileUri f) <> "git").
  { intros f E Hg. apply getFileInfo_In in E. destruct E as [folder [HF Hf]].
    destruct (Hwf _ _ _ _ HF Hf) as [_ [_ Hs]]. rewrite Hg in Hs. discriminate. }
  assert (Hdirty : forall f, In f l ->
             getFileInfo ws' (fileUri f)
             = Some (parseFile (fileUri f) (getLanguage f) (getVersion f) (getText f))).
  { intros f Hf. rewrite Ews'. apply reParseAll_hit; [exact Hnd|exact Hf|].
    apply Hgit, (Hin f), Hf. }
  assert (Hother : forall uri, (forall f, In f l -> fileUri f <> uri) ->
                               getFileInfo ws' uri = getFileInfo ws uri).
  { intros uri Huri. rewrite Ews'. rewrite reParseAll_other; [reflexivity|exact Huri]. }
  split; [|split; [|split]].
  - rewrite Ews'. apply parsingTimeout_reParseAll.
  - intros f Ef Es. apply Hdirty, Hin. auto.
  - intros f Ef Es. rewrite Hother; [exact Ef|].
    intros g Hg E. apply Hin in Hg. destruct Hg as [Eg Esg].
    rewrite E, Ef in Eg. inversion Eg; subst. congruence.
  - intros f Hf. apply (In_getAllFiles_getFileInfo ws' f Hwf' Hu') in Hf.
    destruct (in_dec string_dec (fileUri f) (map fileUri l)) as [Hl|Hl].
    + apply in_map_iff in Hl. destruct Hl as [g [E Hg]].
      pose proof (Hdirty g Hg) as Eg. rewrite E, Hf in Eg. inversion Eg.
      apply getStatus_parseFile.
    + rewrite Hother in Hf.
      * destruct (getStatus f) eqn:Es; [reflexivity|].
        exfalso. apply Hl, in_map, Hin. auto.
      * intros g Hg E. apply Hl. rewrite <- E. apply in_map, Hg.
Qed.

(** X9: [removeFile] of a URI that is not found returns false and changes
    nothing. In a workspace reached by operations, when the file is found and
    the removal is not refused, [removeFile] returns true, emits the REMOVING
    event of the stored file, the URI is not found afterwards and every other
    URI resolves as before. The explicit associations are never changed, not
    even when the caller asks for the references to be removed. *)
Theorem removeFile_removes (ops : list Operation) (uri : string)
    (options : FileRemovalOptions) :
  let ws := performAll ops newWorkspace in
  let ws' := snd (removeFile uri options ws) in
  (getFileInfo ws uri = None -> removeFile uri options ws = (false, ws))
  /\ (forall d,
        getFileInfo ws uri = Some d ->
        hasExplicitAssociations ws uri && negb (removeAllReferences options) = false ->
        fst (removeFile uri options ws) = true
        /\ emitted ws' = (emitted ws ++ [(REMOVING, d)])%list
        /\ getFileInfo ws' uri = None
        /\ forall uri', uri' <> uri -> getFileInfo ws' uri' = getFileInfo ws uri')
  /\ problemToDomainMap ws' = problemToDomainMap ws
  /\ planToProblemMap ws' = planToProblemMap ws
  /\ forall u, hasExplicitAssociations ws' u = hasExplicitAssociations ws u.
Proof.
  intros ws ws'.
  assert (Hwf : wellFormed ws)
    by apply wellFormed_performAll, wellFormed_newWorkspace.
  assert (Hmaps : problemToDomainMap ws' = problemToDomainMap ws
                  /\ planToProblemMap ws' = planToProblemMap ws).
  { subst ws'. unfold removeFile. destruct (_ && _); [auto|].
    destruct (JsMap.get _ _) as [folder|]; [|auto].
    destruct (Folder_get folder uri) as [d|]; [|auto]. simpl. auto. }
  split; [|split; [|split; [|split]]]; try tauto.
  - intros Enone. unfold removeFile. destruct (_ && _); [reflexivity|].
    unfold getFileInfo in Enone.
    destruct (JsMap.get (folders ws) (getFolderPath uri)) as [folder|]; [|reflexivity].
    rewrite Enone. reflexivity.
  - intros d Ed Hfree. subst ws'. clear Hmaps.
    assert (Euri : fileUri d = uri).
    { apply getFileInfo_In in Ed. destruct Ed as [folder [HF Hf]].
      destruct (Hwf _ _ _ _ HF Hf) as [E _]. congruence. }
    subst uri. unfold removeFile. rewrite Hfree. unfold getFileInfo in Ed.
    destruct (JsMap.get (folders ws) (getFolderPath (fileUri d)))
      as [folder|] eqn:Efolder; [|discriminate].
    rewrite Ed. cbn [fst snd]. split; [|split; [|split]].
    + unfold Folder_remove, Folder_removeByUri, Folder_get, JsMap.has in *.
      cbn [fst]. rewrite Ed. reflexivity.
    + reflexivity.
    + rewrite getFileInfo_fileAt. apply fileAt_remove_same.
    + intros uri' Huri. rewrite getFileInfo_fileAt, fileAt_remove; [|exact Huri].
      rewrite fileAt_emitIfNew. reflexivity.
  - intros u. unfold hasExplicitAssociations.
    destruct Hmaps as [-> ->]. reflexivity.
Qed.

End Batch.

(** X8, witness: the batch re-parse of the workspace whose domain was
    edited. *)
Lemma batch_reparse_leaves_no_dirty_file_witness :
  let ws := @performAll exampleImports editedOperations newWorkspace in
  let dirtyDomain := snd (update exampleDomain 2 domainText2 false) in
  @getFileInfo exampleImports (@parsingTimeoutFires exampleImports ws)
               (fileUri dirtyDomain)
  = Some (@parseFile exampleImports (fileUri dirtyDomain) (getLanguage dirtyDomain)
            (getVersion dirtyDomain) (getText dirtyDomain)).
Proof.
  intros ws dirtyDomain.
  assert (Htimer : parsingTimeout ws = true) by (vm_compute; reflexivity).
  destruct (@batch_reparse_leaves_no_dirty_file exampleImports editedOperations
              Htimer) as [_ [Hdirty _]].
  apply Hdirty; vm_compute; reflexivity.
Defined.

(** X9, witness: the plan of the example is removed. *)
Lemma removeFile_removes_witness :
  let ws := @performAll exampleImports exampleOperations newWorkspace in
  fst (@removeFile exampleImports planUri keepReferences ws) = true
  /\ @getFileInfo exampleImports
       (snd (@removeFile exampleImports planUri keepReferences ws)) planUri = None.
Proof.
  intros ws.
  destruct (@removeFile_removes exampleImports exampleOperations planUri
              keepReferences) as [_ [Hremove _]].
  destruct (Hremove examplePlan) as [E1 [_ [E2 _]]];
    try (vm_compute; reflexivity).
  split; [exact E1|exact E2].
Defined.

(* ================================================================== *)
(** * Further properties: names and associations *)
(* ================================================================== *)

Lemma lowerAscii_idem (c : ascii) : lowerAscii (lowerAscii c) = lowerAscii c.
Proof.
  destruct c as [[] [] [] [] [] [] [] []]; vm_compute; reflexivity.
Qed.

Lemma toLowerCase_idem (s : string) : toLowerCase (toLowerCase s) = toLowerCase s.
Proof.
  induction s as [|c s IH]; simpl; [reflexivity|].
  rewrite lowerAscii_idem, IH. reflexivity.
Qed.

Lemma lowerCaseEquals_refl a : lowerCaseEquals a a = true.
Proof. destruct a; simpl; [apply String.eqb_refl|reflexivity]. Qed.

Lemma lowerCaseEquals_sym a b : lowerCaseEquals a b = lowerCaseEquals b a.
Proof. destruct a, b; simpl; try reflexivity. apply String.eqb_sym. Qed.

Lemma lowerCaseEquals_trans a b c :
  lowerCaseEquals a b = true -> lowerCaseEquals b c = true ->
  lowerCaseEquals a c = true.
Proof.
  destruct a, b, c; simpl; try discriminate; try reflexivity.
  rewrite !String.eqb_eq. congruence.
Qed.

(** X1: [lowerCaseEquals] is an equivalence on names that ignores the case of
    letters: it is reflexive, symmetric and transitive, it holds of two
    strings exactly when their lower-case forms are equal, so a string equals
    its lower-case form, and an undefined name equals only an undefined
    name. *)
Theorem lowerCaseEquals_equivalence :
  (forall a, lowerCaseEquals a a = true)
  /\ (forall a b, lowerCaseEquals a b = lowerCaseEquals b a)
  /\ (forall a b c, lowerCaseEquals a b = true -> lowerCaseEquals b c = true ->
                    lowerCaseEquals a c = true)
  /\ (forall s t, lowerCaseEquals (Some s) (Some t) = true
                  <-> toLowerCase s = toLowerCase t)
  /\ (forall s, lowerCaseEquals (Some s) (Some (toLowerCase s)) = true)
  /\ (forall a, lowerCaseEquals a None = true <-> a = None).
Proof.
  split; [exact lowerCaseEquals_refl|].
  split; [exact lowerCaseEquals_sym|].
  split; [exact lowerCaseEquals_trans|].
  split; [intros s t; simpl; apply String.eqb_eq|].
  split.
  - intros s. simpl. rewrite toLowerCase_idem. apply String.eqb_refl.
  - intros [s|]; simpl; split; congruence.
Qed.

(** X1, witness: three spellings of the same domain name. *)
Lemma lowerCaseEquals_equivalence_witness :
  lowerCaseEquals (Some "Depot-1") (Some "depot-1") = true.
Proof.
  apply (proj1 (proj2 (proj2 lowerCaseEquals_equivalence))
           (Some "Depot-1") (Some "DEPOT-1") (Some "depot-1"));
    vm_compute; reflexivity.
Defined.

Section Associations.
Context `{Imports}.

(** X10: after [associateProblemToDomain] the domains of the problem are
    given by the association alone: [getDomainFilesFor] returns the file
    stored under the URI of the associated domain, or nothing when no file is
    stored under it, whatever the names of the files of the folder are, and
    [getDomainFileFor] returns that file. The lookups of a problem with
    another URI are not affected, both URIs count as explicitly associated,
    and a later association of the same problem replaces the earlier one. *)
Theorem associateProblemToDomain_then_lookup (ws : PddlWorkspace)
    (problemInfo domainInfo : FileInfo) :
  let ws' := associateProblemToDomain problemInfo domainInfo ws in
  getDomainFilesFor ws' problemInfo
  = match getFileInfo ws (fileUri domainInfo) with
    | Some d => [d]
    | None => []
    end
  /\ getDomainFileFor ws' problemInfo = getFileInfo ws (fileUri domainInfo)
  /\ (forall other, fileUri other <> fileUri problemInfo ->
                    getDomainFilesFor ws' other = getDomainFilesFor ws other)
  /\ hasExplicitAssociations ws' (fileUri problemInfo) = true
  /\ hasExplicitAssociations ws' (fileUri domainInfo) = true
  /\ (forall domain2,
        getDomainFileFor (associateProblemToDomain problemInfo domain2 ws')
                         problemInfo
        = getFileInfo ws (fileUri domain2)).
Proof.
  intros ws'.
  assert (Hlookup : forall w d,
             getDomainFilesFor (associateProblemToDomain problemInfo d w) problemInfo
             = match getFileInfo w (fileUri d) with Some x => [x] | None => [] end).
  { intros w d. unfold getDomainFilesFor, JsMap.has. simpl.
    rewrite JsMap_get_set, String.eqb_refl. reflexivity. }
  assert (Hone : forall w d,
             getDomainFileFor (associateProblemToDomain problemInfo d w) problemInfo
             = getFileInfo w (fileUri d)).
  { intros w d. unfold getDomainFileFor. rewrite Hlookup.
    destruct (getFileInfo w (fileUri d)); reflexivity. }
  split; [apply Hlookup|]. split; [apply Hone|]. split; [|split; [|split]].
  - intros other Huri. unfold getDomainFilesFor, JsMap.has. simpl.
    rewrite JsMap_get_set.
    destruct (String.eqb_spec (fileUri problemInfo) (fileUri other)); [congruence|].
    reflexivity.
  - unfold hasExplicitAssociations, JsMap.has. simpl.
    rewrite JsMap_get_set, String.eqb_refl. reflexivity.
  - unfold hasExplicitAssociations. simpl.
    assert (E : includes (JsMap.values (JsMap.set (problemToDomainMap ws)
                                          (fileUri problemInfo) (fileUri domainInfo)))
                         (fileUri domainInfo) = true).
    { apply includes_In. apply in_map_iff.
      exists (fileUri problemInfo, fileUri domainInfo). split; [reflexivity|].
      apply JsMap_get_In. rewrite JsMap_get_set, String.eqb_refl. reflexivity. }
    rewrite E. rewrite orb_true_r. reflexivity.
  - intros domain2. rewrite Hone. reflexivity.
Qed.

(** X11: after [associatePlanToProblem] the problem of a plan with the
    associated URI is the file stored under the URI of the associated
    problem; the plans with another URI resolve as before; both URIs count as
    explicitly associated, and neither file can be removed while the caller
    does not ask for the references to be removed. *)
Theorem associatePlanToProblem_then_lookup (ws : PddlWorkspace)
    (planUri : string) (problemFileInfo : FileInfo) :
  let ws' := associatePlanToProblem planUri problemFileInfo ws in
  (forall planInfo, fileUri planInfo = planUri ->
                    getProblemFileForPlan ws' planInfo
                    = getFileInfo ws (fileUri problemFileInfo))
  /\ (forall planInfo, fileUri planInfo <> planUri ->
                       getProblemFileForPlan ws' planInfo
                       = getProblemFileForPlan ws planInfo)
  /\ hasExplicitAssociations ws' planUri = true
  /\ hasExplicitAssociations ws' (fileUri problemFileInfo) = true
  /\ removeFile planUri {| removeAllReferences := false |} ws' = (false, ws')
  /\ removeFile (fileUri problemFileInfo) {| removeAllReferences := false |} ws'
     = (false, ws').
Proof.
  intros ws'.
  assert (Hplan : hasExplicitAssociations ws' planUri = true).
  { unfold hasExplicitAssociations, JsMap.has. simpl.
    rewrite JsMap_get_set, String.eqb_refl. rewrite orb_true_r. reflexivity. }
  assert (Hproblem : hasExplicitAssociations ws' (fileUri problemFileInfo) = true).
  { unfold hasExplicitAssociations. simpl.
    assert (E : includes (JsMap.values (JsMap.set (planToProblemMap ws) planUri
                                          (fileUri problemFileInfo)))
                         (fileUri problemFileInfo) = true).
    { apply includes_In. apply in_map_iff.
      exists (planUri, fileUri problemFileInfo). split; [reflexivity|].
      apply JsMap_get_In. rewrite JsMap_get_set, String.eqb_refl. reflexivity. }
    rewrite E. rewrite !orb_true_r. reflexivity. }
  split; [|split; [|split; [|split; [|split]]]].
  - intros planInfo <-. unfold getProblemFileForPlan, JsMap.has. simpl.
    rewrite JsMap_get_set, String.eqb_refl. reflexivity.
  - intros planInfo Huri. unfold getProblemFileForPlan, JsMap.has. simpl.
    rewrite JsMap_get_set.
    destruct (String.eqb_spec planUri (fileUri planInfo)); [congruence|].
    reflexivity.
  - exact Hplan.
  - exact Hproblem.
  - unfold removeFile. rewrite Hplan. reflexivity.
  - unfold removeFile. rewrite Hproblem. reflexivity.
Qed.

Lemma getFileInfo_values ws f :
  getFileInfo ws (fileUri f) = Some f ->
  exists folder,
    JsMap.get (folders ws) (getFolderPath (fileUri f)) = Some folder
    /\ In f (JsMap.values (files folder)).
Proof.
  unfold getFileInfo, Folder_get.
  destruct (JsMap.get (folders ws) (getFolderPath (fileUri f))) as [folder|];
    [|discriminate].
  intros E. exists folder. split; [reflexivity|].
  apply in_map_iff. exists (fileUri f, f). split; [reflexivity|].
  apply JsMap_get_In, E.
Qed.

(** In a well-formed workspace the files of a folder live in that folder. *)
Lemma wellFormed_folder_of ws path folder f :
  wellFormed ws ->
  JsMap.get (folders ws) path = Some folder ->
  In f (JsMap.values (files folder)) ->
  getFolderPath (fileUri f) = path.
Proof.
  intros Hwf Efolder Hf. apply JsMap_get_In in Efolder.
  apply in_map_iff in Hf. destruct Hf as [[key f'] [E Hf]]. simpl in E. subst f'.
  destruct (Hwf _ _ _ _ Efolder Hf) as [E1 [E2 _]]. congruence.
Qed.

(** X12: in a workspace reached by operations the two implicit lookups
    between domains and problems are inverse to each other: for a stored
    domain and a stored problem without an explicit association, the problem
    is among the problem files of the domain exactly when the domain is among
    the domain files of the problem. *)
Theorem problems_of_domain_are_domains_of_problem (ops : list Operation)
    (d p : FileInfo) :
  let ws := performAll ops newWorkspace in
  getFileInfo ws (fileUri d) = Some d -> isDomain d = true ->
  getFileInfo ws (fileUri p) = Some p -> isProblem p = true ->
  JsMap.has (problemToDomainMap ws) (fileUri p) = false ->
  (In p (getProblemFiles ws d) <-> In d (getDomainFilesFor ws p)).
Proof.
  intros ws Ed Hd Ep Hp Hnone.
  assert (Hwf : wellFormed ws)
    by apply wellFormed_performAll, wellFormed_newWorkspace.
  destruct (getFileInfo_values ws d Ed) as [Fd [EFd HdIn]].
  destruct (getFileInfo_values ws p Ep) as [Fp [EFp HpIn]].
  unfold getProblemFiles, getDomainFilesFor. rewrite Hnone, EFd, EFp.
  unfold Folder_getProblemFilesFor, Folder_getDomainFilesFor.
  rewrite !filter_In, (lowerCaseEquals_sym (name d) (domainName p)).
  split.
  - intros [[HIn _] Hn].
    pose proof (wellFormed_folder_of ws _ _ _ Hwf EFd HIn) as Epath.
    rewrite Epath, EFd in EFp. inversion EFp; subst. auto.
  - intros [[HIn _] Hn].
    pose proof (wellFormed_folder_of ws _ _ _ Hwf EFp HIn) as Epath.
    rewrite Epath, EFp in EFd. inversion EFd; subst. auto.
Qed.

(** X13: in a workspace reached by operations, a plan or happenings file
    listed for a stored problem resolves back to a problem with the name of
    that problem: without an explicit association of the plan,
    [getProblemFileForPlan] finds a problem file whose name equals it,
    ignoring case, and so does [getProblemFileForHappenings] for a happenings
    file. *)
Theorem plans_of_problem_resolve_to_its_name (ops : list Operation)
    (p q : FileInfo) :
  let ws := performAll ops newWorkspace in
  getFileInfo ws (fileUri p) = Some p -> isProblem p = true ->
  (In q (getPlanFiles ws p) ->
   JsMap.has (planToProblemMap ws) (fileUri q) = false ->
   exists p', getProblemFileForPlan ws q = Some p'
              /\ isProblem p' = true
              /\ lowerCaseEquals (name p') (name p) = true)
  /\ (In q (getHappeningsFiles ws p) ->
      exists p', getProblemFileForHappenings ws q = Some p'
                 /\ isProblem p' = true
                 /\ lowerCaseEquals (name p') (name p) = true).
Proof.
  intros ws Ep Hp.
  assert (Hwf : wellFormed ws)
    by apply wellFormed_performAll, wellFormed_newWorkspace.
  destruct (getFileInfo_values ws p Ep) as [Fp [EFp HpIn]].
  assert (Hfind : forall q,
             In q (JsMap.values (files Fp)) ->
             lowerCaseEquals (problemName q) (name p) = true ->
             exists p', getProblemFileForHappenings ws q = Some p'
                        /\ isProblem p' = true
                        /\ lowerCaseEquals (name p') (name p) = true).
  { intros x Hx Hn.
    pose proof (wellFormed_folder_of ws _ _ _ Hwf EFp Hx) as Epath.
    unfold getProblemFileForHappenings, getFolderOf. rewrite Epath, EFp.
    unfold Folder_getProblemFileWithName.
    destruct (find (fun problemInfo => lowerCaseEquals (name problemInfo) (problemName x))
                   (filter isProblem (JsMap.values (files Fp)))) as [p'|] eqn:Efind.
    - apply find_some in Efind. destruct Efind as [HIn Hn'].
      apply filter_In in HIn. exists p'. split; [reflexivity|]. split; [tauto|].
      eapply lowerCaseEquals_trans; eassumption.
    - exfalso. pose proof (find_none _ _ Efind p) as Hnone. simpl in Hnone.
      rewrite lowerCaseEquals_sym, Hn in Hnone.
      apply Bool.diff_true_false, Hnone. apply filter_In. auto. }
  split.
  - intros Hq Hnone. unfold getPlanFiles in Hq. rewrite EFp in Hq.
    rewrite !filter_In in Hq. destruct Hq as [[Hq _] Hn].
    apply andb_true_iff in Hn. destruct Hn as [Hn _].
    destruct (Hfind q Hq Hn) as [p' [E Hp']]. exists p'. split; [|exact Hp'].
    unfold getProblemFileForPlan. rewrite Hnone. exact E.
  - intros Hq. unfold getHappeningsFiles in Hq. rewrite EFp in Hq.
    rewrite !filter_In in Hq. destruct Hq as [[Hq _] Hn].
    apply andb_true_iff in Hn. destruct Hn as [Hn _]. exact (Hfind q Hq Hn).
Qed.

(** X14: in a workspace without explicit problem-to-domain associations,
    every file [asDomain] returns is a domain file: the file itself for a
    domain, and for a problem a domain of its folder whose name equals the
    domain name of the problem, ignoring case. *)
Theorem asDomain_returns_a_domain (ws : PddlWorkspace) (fileInfo d : FileInfo) :
  (forall uri, JsMap.has (problemToDomainMap ws) uri = false) ->
  asDomain ws fileInfo = Some d ->
  isDomain d = true
  /\ (isDomain fileInfo = true -> d = fileInfo)
  /\ (isProblem fileInfo = true ->
      lowerCaseEquals (name d) (domainName fileInfo) = true
      /\ exists folder,
           JsMap.get (folders ws) (getFolderPath (fileUri fileInfo)) = Some folder
           /\ In d (JsMap.values (files folder))).
Proof.
  intros Hnone.
  assert (Hdomain : forall x, getDomainFileFor ws x = Some d ->
             isDomain d = true
             /\ lowerCaseEquals (name d) (domainName x) = true
             /\ exists folder,
                  JsMap.get (folders ws) (getFolderPath (fileUri x)) = Some folder
                  /\ In d (JsMap.values (files folder))).
  { intros x. unfold getDomainFileFor, getDomainFilesFor. rewrite Hnone.
    destruct (JsMap.get (folders ws) (getFolderPath (fileUri x))) as [folder|];
      [|discriminate].
    destruct (Folder_getDomainFilesFor folder x) as [|d0 [|d1 l]] eqn:E;
      simpl; try discriminate.
    intros E0. inversion E0; subst d0.
    assert (HIn : In d (Folder_getDomainFilesFor folder x))
      by (rewrite E; left; reflexivity).
    unfold Folder_getDomainFilesFor in HIn. rewrite !filter_In in HIn.
    split; [tauto|]. split; [tauto|]. exists folder. tauto. }
  unfold asDomain.
  destruct (isDomain fileInfo) eqn:Hd.
  - intros E. inversion E; subst. split; [exact Hd|]. split; [reflexivity|].
    intros Hp. exfalso. unfold isDomain, isProblem in *.
    destruct (model d); discriminate.
  - destruct (isProblem fileInfo) eqn:Hp.
    + intros E. destruct (Hdomain _ E) as [H1 [H2 H3]].
      split; [exact H1|]. split; [discriminate|]. auto.
    + assert (Hrest : forall x, getDomainFileFor ws x = Some d ->
                 isDomain d = true
                 /\ (false = true -> d = fileInfo)
                 /\ (false = true ->
                     lowerCaseEquals (name d) (domainName fileInfo) = true
                     /\ exists folder,
                          JsMap.get (folders ws) (getFolderPath (fileUri fileInfo))
                          = Some folder
                          /\ In d (JsMap.values (files folder)))).
      { intros x E. destruct (Hdomain _ E) as [H1 _].
        split; [exact H1|]. split; discriminate. }
      destruct (isPlan fileInfo).
      * destruct (getProblemFileForPlan ws fileInfo); [apply Hrest|discriminate].
      * destruct (isHappenings fileInfo); [|discriminate].
        destruct (getProblemFileForHappenings ws fileInfo); [apply Hrest|discriminate].
Qed.

End Associations.

(** X10, witness: the first problem is associated with the domain; the
    second problem still finds its domain in the folder. *)
Lemma associateProblemToDomain_then_lookup_witness :
  @getDomainFilesFor exampleImports
    (associateProblemToDomain exampleProblem exampleDomain exampleWorkspace)
    exampleProblem2
  = @getDomainFilesFor exampleImports exampleWorkspace exampleProblem2.
Proof.
  apply (@associateProblemToDomain_then_lookup exampleImports exampleWorkspace
           exampleProblem exampleDomain).
  vm_compute. discriminate.
Defined.

(** X11, witness: the plan of the example is associated with the second
    problem. *)
Lemma associatePlanToProblem_then_lookup_witness :
  @getProblemFileForPlan exampleImports
    (associatePlanToProblem planUri exampleProblem2 exampleWorkspace) examplePlan
  = @getFileInfo exampleImports exampleWorkspace (fileUri exampleProblem2).
Proof.
  apply (@associatePlanToProblem_then_lookup exampleImports exampleWorkspace
           planUri exampleProblem2).
  vm_compute. reflexivity.
Defined.

(** X12, witness: the domain and the first problem of the example. *)
Lemma problems_of_domain_are_domains_of_problem_witness :
  let ws := @performAll exampleImports exampleOperations newWorkspace in
  In exampleProblem (@getProblemFiles exampleImports ws exampleDomain)
  <-> In exampleDomain (@getDomainFilesFor exampleImports ws exampleProblem).
Proof.
  apply (@problems_of_domain_are_domains_of_problem exampleImports
           exampleOperations exampleDomain exampleProblem);
    vm_compute; reflexivity.
Defined.

(** X13, witness: the plan of the first problem of the example. *)
Lemma plans_of_problem_resolve_to_its_name_witness :
  let ws := @performAll exampleImports exampleOperations newWorkspace in
  exists p', @getProblemFileForPlan exampleImports ws examplePlan = Some p'
             /\ isProblem p' = true
             /\ lowerCaseEquals (name p') (name exampleProblem) = true.
Proof.
  intros ws.
  assert (Ep : @getFileInfo exampleImports ws (fileUri exampleProblem)
               = Some exampleProblem) by (vm_compute; reflexivity).
  assert (Hp : isProblem exampleProblem = true) by (vm_compute; reflexivity).
  destruct (@plans_of_problem_resolve_to_its_name exampleImports exampleOperations
              exampleProblem examplePlan Ep Hp) as [Hplan _].
  apply Hplan; [in_list|vm_compute; reflexivity].
Defined.

(** X14, witness: the first problem of the example and its domain. *)
Lemma asDomain_returns_a_domain_witness :
  isDomain exampleDomain = true
  /\ (isDomain exampleProblem = true -> exampleDomain = exampleProblem)
  /\ (isProblem exampleProblem = true ->
      lowerCaseEquals (name exampleDomain) (domainName exampleProblem) = true
      /\ exists folder,
           JsMap.get (folders exampleWorkspace)
                     (@getFolderPath exampleImports (fileUri exampleProblem))
           = Some folder
           /\ In exampleDomain (JsMap.values (files folder))).
Proof.
  apply (@asDomain_returns_a_domain exampleImports exampleWorkspace exampleProblem
           exampleDomain).
  - intros uri. vm_compute. reflexivity.
  - vm_compute. reflexivity.
Defined.

(* ================================================================== *)
(** * Further properties: the order of the events *)
(* ================================================================== *)

Lemma ForallOrdPairs_snoc {A : Type} (R : A -> A -> Prop) (l : list A) (x : A) :
  ForallOrdPairs R l -> Forall (fun a => R a x) l -> ForallOrdPairs R (l ++ [x]).
Proof.
  induction 1 as [|a l Ha Hl IH]; simpl; intros Hx.
  - constructor; constructor.
  - inversion Hx; subst. constructor; [|auto].
    apply Forall_app. split; [exact Ha|constructor; [assumption|constructor]].
Qed.

Lemma ForallOrdPairs_split {A : Type} (R : A -> A -> Prop) (l1 l2 l3 : list A) a b :
  ForallOrdPairs R (l1 ++ a :: l2 ++ b :: l3) -> R a b.
Proof.
  induction l1 as [|x l1 IH]; simpl; intros Hl; inversion Hl as [|? ? Ha Hrest]; subst.
  - rewrite Forall_forall in Ha. apply Ha. apply in_or_app. right. left. reflexivity.
  - auto.
Qed.

Lemma updatesIncreasing_emitIfNew symbol f ws :
  updatesIncreasing ws -> updatesIncreasing (emitIfNew symbol f ws).
Proof.
  intros [Hord [Hle Hlast]]. unfold emitIfNew.
  destruct symbol; simpl;
    try (unfold updatesIncreasing; rewrite updatedPairs_emit, app_nil_r;
         repeat split; assumption).
  assert (Hnew : (forall last,
                     JsMap.get (lastVersionUpdateEmitted ws) (fileUri f) = Some last ->
                     (last < getVersion f)%Z) ->
                 updatesIncreasing
                   (emit UPDATED f (setLastVersion (fileUri f) (getVersion f) ws))).
  { intros Hlt. unfold updatesIncreasing. rewrite updatedPairs_emit. simpl.
    split; [|split].
    - apply ForallOrdPairs_snoc; [exact Hord|].
      apply Forall_forall. intros [u v] HIn E. simpl in *. subst u.
      destruct (Hle _ _ HIn) as [last [El Hv]]. specialize (Hlt _ El). lia.
    - intros u v. rewrite in_app_iff, JsMap_get_set.
      destruct (String.eqb_spec (fileUri f) u) as [<-|Hne].
      + intros [HIn|[E|[]]].
        * destruct (Hle _ _ HIn) as [last [El Hv]]. specialize (Hlt _ El).
          exists (getVersion f). split; [reflexivity|lia].
        * inversion E; subst. exists (getVersion f). split; [reflexivity|lia].
      + intros [HIn|[E|[]]]; [apply Hle; exact HIn|]. inversion E; congruence.
    - intros u last. rewrite in_app_iff, JsMap_get_set.
      destruct (String.eqb_spec (fileUri f) u) as [<-|Hne].
      + intros E. inversion E; subst. right. left. reflexivity.
      + intros E. left. apply Hlast, E. }
  destruct (JsMap.get (lastVersionUpdateEmitted ws) (fileUri f)) as [last|] eqn:E.
  - destruct (Z.leb_spec (getVersion f) last); [repeat split; assumption|].
    apply Hnew. intros last' E'. inversion E'; subst. assumption.
  - apply Hnew. discriminate.
Qed.

Lemma updatesIncreasing_emits ws ws' :
  emits ws ws' -> updatesIncreasing ws -> updatesIncreasing ws'.
Proof.
  induction 1 as [ws ws' [Hl He]|ws symbol f|ws ws1 ws2 _ IH1 _ IH2]; intros Hws.
  - unfold updatesIncreasing, updatedPairs in *. rewrite Hl, He. exact Hws.
  - apply updatesIncreasing_emitIfNew, Hws.
  - auto.
Qed.

Lemma extends_refl ws : extends ws ws.
Proof.
  split; [exists []; rewrite app_nil_r; reflexivity|].
  intros u last E. exists last. split; [exact E|lia].
Qed.

Lemma extends_trans ws ws1 ws2 : extends ws ws1 -> extends ws1 ws2 -> extends ws ws2.
Proof.
  intros [[l1 E1] H1] [[l2 E2] H2]. split.
  - exists (l1 ++ l2)%list. rewrite E2, E1, app_assoc. reflexivity.
  - intros u last E. destruct (H1 _ _ E) as [last1 [El1 Hle1]].
    destruct (H2 _ _ El1) as [last2 [El2 Hle2]]. exists last2. split; [exact El2|lia].
Qed.

Lemma extends_emitIfNew symbol f ws : extends ws (emitIfNew symbol f ws).
Proof.
  unfold emitIfNew.
  assert (Hset : forall v, (forall last,
                     JsMap.get (lastVersionUpdateEmitted ws) (fileUri f) = Some last ->
                     (last <= v)%Z) ->
                 extends ws (emit symbol f (setLastVersion (fileUri f) v ws))).
  { intros v Hv. split; [eexists; reflexivity|]. simpl.
    intros u last E. rewrite JsMap_get_set.
    destruct (String.eqb_spec (fileUri f) u) as [<-|Hne].
    - exists v. split; [reflexivity|apply Hv, E].
    - exists last. split; [exact E|lia]. }
  destruct (isUPDATED symbol).
  - destruct (JsMap.get (lastVersionUpdateEmitted ws) (fileUri f)) as [last|] eqn:E.
    + destruct (Z.leb_spec (getVersion f) last); [apply extends_refl|].
      apply Hset. intros last' E'. inversion E'; subst. lia.
    + apply Hset. discriminate.
  - split; [eexists; reflexivity|]. simpl. intros u last E. exists last.
    split; [exact E|lia].
Qed.

Lemma extends_emits ws ws' : emits ws ws' -> extends ws ws'.
Proof.
  induction 1 as [ws ws' [Hl He]|ws symbol f|ws ws1 ws2 _ IH1 _ IH2].
  - split; [exists []; rewrite app_nil_r; exact He|].
    intros u last E. exists last. rewrite Hl. split; [exact E|lia].
  - apply extends_emitIfNew.
  - eapply extends_trans; eassumption.
Qed.

(** X15: after any sequence of operations the UPDATED events of each URI are
    in the log in strictly increasing order of their versions, the version
    recorded for a URI is the version of an UPDATED event that was emitted
    for it and no UPDATED event of that URI has a greater version, and a URI
    with no recorded version has no UPDATED event in the log. *)
Theorem updated_versions_increase `{Imports} (ops : list Operation) :
  let ws := performAll ops newWorkspace in
  (forall l1 a l2 b l3,
      updatedPairs ws = (l1 ++ a :: l2 ++ b :: l3)%list ->
      fst a = fst b -> (snd a < snd b)%Z)
  /\ (forall u last,
        JsMap.get (lastVersionUpdateEmitted ws) u = Some last ->
        In (u, last) (updatedPairs ws)
        /\ forall v, In (u, v) (updatedPairs ws) -> (v <= last)%Z)
  /\ (forall u v,
        JsMap.get (lastVersionUpdateEmitted ws) u = None ->
        ~ In (u, v) (updatedPairs ws)).
Proof.
  intros ws.
  assert (Hinc : updatesIncreasing ws).
  { apply (updatesIncreasing_emits newWorkspace); [apply emits_performAll|].
    split; [constructor|split]; [intros u v []|intros u last E; discriminate]. }
  destruct Hinc as [Hord [Hle Hlast]]. split; [|split].
  - intros l1 a l2 b l3 E. rewrite E in Hord.
    exact (ForallOrdPairs_split _ _ _ _ _ _ Hord).
  - intros u last E. split; [apply Hlast, E|].
    intros v HIn. destruct (Hle _ _ HIn) as [last' [E' Hv]]. congruence.
  - intros u v E HIn. destruct (Hle _ _ HIn) as [last [E' _]]. congruence.
Qed.

(** X15, witness: the log of the workspace whose domain was edited and
    re-parsed holds the UPDATED events of versions 1 and 2 of the domain. *)
Lemma updated_versions_increase_witness :
  let ws := @performAll exampleImports
              [OpUpsertFile domainUri PDDL 1 domainText false;
               OpUpsertAndParseFile domainUri PDDL 2 domainText2] newWorkspace in
  In (domainUri, 2%Z) (updatedPairs ws)
  /\ forall v, In (domainUri, v) (updatedPairs ws) -> (v <= 2)%Z.
Proof.
  apply (@updated_versions_increase exampleImports
           [OpUpsertFile domainUri PDDL 1 domainText false;
            OpUpsertAndParseFile domainUri PDDL 2 domainText2]).
  vm_compute. reflexivity.
Defined.

(** X16: no operation takes an event back or forgets a version: from any
    workspace, after any sequence of operations the log is the old log
    followed by the new events, and every URI that had a recorded version
    still has one, not smaller -- also after its file was removed. *)
Theorem log_only_grows `{Imports} (ops : list Operation) (ws : PddlWorkspace) :
  (exists l, emitted (performAll ops ws) = (emitted ws ++ l)%list)
  /\ forall u last,
       JsMap.get (lastVersionUpdateEmitted ws) u = Some last ->
       exists last',
         JsMap.get (lastVersionUpdateEmitted (performAll ops ws)) u = Some last'
         /\ (last <= last')%Z.
Proof. apply extends_emits, emits_performAll. Qed.

(** X16, witness: the domain was announced at version 1 in the example; it
    is removed, and the version is still recorded. *)
Lemma log_only_grows_witness :
  exists last',
    JsMap.get (lastVersionUpdateEmitted
                 (@performAll exampleImports
                    [OpRemoveFile domainUri keepReferences] exampleWorkspace))
              domainUri = Some last'
    /\ (1 <= last')%Z.
Proof.
  apply (@log_only_grows exampleImports [OpRemoveFile domainUri keepReferences]
           exampleWorkspace).
  vm_compute. reflexivity.
Defined.

(* ================================================================== *)
(** * Further properties: the [:init] section *)
(* ================================================================== *)

Lemma In_mapDefined_iff {A B : Type} (f : A -> option B) (l : list A) y :
  In y (mapDefined f l) <-> exists x, In x l /\ f x = Some y.
Proof.
  split.
  - induction l as [|z l IH]; simpl; [intros []|].
    destruct (f z) as [y'|] eqn:E.
    + intros [->|HIn]; [exists z; auto|].
      destruct (IH HIn) as [x [Hx Ex]]. exists x. auto.
    + intros HIn. destruct (IH HIn) as [x [Hx Ex]]. exists x. auto.
  - intros [x [Hx Ex]]. eapply In_mapDefined; eassumption.
Qed.

Lemma mapDefined_length {A B : Type} (f : A -> option B) (l : list A) :
  (List.length (mapDefined f l) <= List.length l)%nat.
Proof.
  induction l as [|x l IH]; simpl; [lia|]. destruct (f x); simpl; lia.
Qed.

Lemma init_counts (cs : list PddlSyntaxNode) :
  (List.length
     (mapDefined parseInit
        (filter (fun node => negb (Regex.test true supplyDemandPattern
                                     (tokenText (getToken node))))
           (filter (fun node => isOpenBracket (getToken node)) cs)))
   + List.length
       (mapDefined parseSupplyDemand
          (filter (fun c => Regex.test true supplyDemandPattern (tokenText (getToken c)))
             (filter (fun c => isType c OpenBracketOperator) cs)))
   <= List.length (filter (fun n => isOpenBracket (getToken n)) cs))%nat.
Proof.
  induction cs as [|c cs IH]; simpl; [lia|].
  assert (Hop : isType c OpenBracketOperator = true ->
                isOpenBracket (getToken c) = true).
  { unfold isType, isOpenBracket. destruct (type (getToken c)); simpl; congruence. }
  destruct (isOpenBracket (getToken c)) eqn:Hb.
  - simpl. destruct (Regex.test true supplyDemandPattern (tokenText (getToken c)))
             eqn:Hsd; simpl.
    + destruct (isType c OpenBracketOperator); simpl; [|lia].
      rewrite Hsd. simpl. destruct (parseSupplyDemand c); simpl; lia.
    + destruct (isType c OpenBracketOperator); simpl;
        [rewrite Hsd|]; destruct (parseInit c); simpl; lia.
  - destruct (isType c OpenBracketOperator) eqn:Ho;
      [specialize (Hop eq_refl); discriminate|]. exact IH.
Qed.

(** X17: [parseInitSection] makes its facts and its supply-demand directives
    of the brackets of the [:init] node and of nothing else: a fact is in the
    first list exactly when [parseInit] returns it for a bracket child whose
    token text does not match [\(\s*supply-demand]; a directive is in the
    second list exactly when [parseSupplyDemand] returns it for an operator
    bracket child whose token text matches; and no bracket gives more than
    one entry: the two lists together are not longer than the list of the
    bracket children. *)
Theorem parseInitSection_partitions_brackets (initNode : PddlSyntaxNode) :
  (forall fact,
      In fact (fst (parseInitSection initNode))
      <-> exists bracket,
            In bracket (getChildren initNode)
            /\ isOpenBracket (getToken bracket) = true
            /\ Regex.test true supplyDemandPattern (tokenText (getToken bracket))
               = false
            /\ parseInit bracket = Some fact)
  /\ (forall directive,
        In directive (snd (parseInitSection initNode))
        <-> exists bracket,
              In bracket (getChildren initNode)
              /\ isType bracket OpenBracketOperator = true
              /\ Regex.test true supplyDemandPattern (tokenText (getToken bracket))
                 = true
              /\ parseSupplyDemand bracket = Some directive)
  /\ (List.length (fst (parseInitSection initNode))
      + List.length (snd (parseInitSection initNode))
      <= List.length (brackets initNode))%nat.
Proof.
  unfold parseInitSection, getChildrenOfType, brackets. cbn [fst snd].
  split; [|split].
  - intros fact. rewrite In_mapDefined_iff. split.
    + intros [b [Hb E]]. rewrite !filter_In in Hb. exists b.
      destruct Hb as [[H1 H2] H3]. apply negb_true_iff in H3. auto.
    + intros [b [H1 [H2 [H3 E]]]]. exists b. rewrite !filter_In, H3. auto.
  - intros directive. rewrite In_mapDefined_iff. split.
    + intros [b [Hb E]]. rewrite !filter_In in Hb. exists b. tauto.
    + intros [b [H1 [H2 [H3 E]]]]. exists b. rewrite !filter_In. auto.
  - apply init_counts.
Qed.

(** X18: the time of a fact. For an [(at] bracket with at least two tokens
    that are neither white space nor comments, whose first token is numeric
    and whose second token is parsed to a value, [parseInit] returns that
    value at that time, whatever follows the second token. Every fact
    [parseInit] returns has a time that is a number: either the time read
    from such an [(at] bracket, or 0 with the value of the whole bracket. *)
Theorem parseInit_time (bracket : PddlSyntaxNode) :
  (forall t0 t1 rest v,
      tokenText (getToken bracket) = "(at" ->
      meaningfulChildren bracket = t0 :: t1 :: rest ->
      isNaN (parseFloat (nodeText t0)) = false ->
      parseVariableValue t1 = Some v ->
      parseInit bracket = Some (TimedVariableValue_from (parseFloat (nodeText t0)) v))
  /\ (forall fact,
        parseInit bracket = Some fact ->
        isNaN (getTime fact) = false
        /\ ((getTime fact = zero
             /\ parseVariableValue bracket = Some (getVariableValue fact))
            \/ (tokenText (getToken bracket) = "(at"
                /\ exists t0 t1 rest,
                     meaningfulChildren bracket = t0 :: t1 :: rest
                     /\ getTime fact = parseFloat (nodeText t0)
                     /\ parseVariableValue t1 = Some (getVariableValue fact)))).
Proof.
  split.
  - intros t0 t1 rest v Hat Hkids Hnan Hv. unfold parseInit.
    rewrite Hat, Hkids, Hnan, Hv. reflexivity.
  - intros fact. unfold parseInit.
    assert (Hfallback :
              match parseVariableValue bracket with
              | Some variableValue => Some (TimedVariableValue_from zero variableValue)
              | None => None
              end = Some fact ->
              isNaN (getTime fact) = false
              /\ ((getTime fact = zero
                   /\ parseVariableValue bracket = Some (getVariableValue fact))
                  \/ (tokenText (getToken bracket) = "(at"
                      /\ exists t0 t1 rest,
                           meaningfulChildren bracket = t0 :: t1 :: rest
                           /\ getTime fact = parseFloat (nodeText t0)
                           /\ parseVariableValue t1 = Some (getVariableValue fact)))).
    { destruct (parseVariableValue bracket) as [v|]; [|discriminate].
      intros E. inversion E; subst. simpl. auto. }
    destruct (String.eqb_spec (tokenText (getToken bracket)) "(at") as [Hat|Hat];
      [|exact Hfallback].
    destruct (meaningfulChildren bracket) as [|t0 [|t1 rest]]; try exact Hfallback.
    destruct (isNaN (parseFloat (nodeText t0))) eqn:Hnan; simpl; [exact Hfallback|].
    destruct (parseVariableValue t1) as [v|] eqn:Hv; [|exact Hfallback].
    intros E. inversion E; subst. simpl. split; [exact Hnan|]. right.
    split; [exact Hat|]. exists t0, t1, rest. auto.
Qed.

(** X18, witness: the bracket [(at 5 (visited a))]. *)
Lemma parseInit_time_witness :
  nodeText timedBracket = "(at 5 (visited a))"
  /\ parseInit timedBracket
     = Some (TimedVariableValue_from (Finite 5 0)
               (mkVariableValue "visited a" (BooleanValue true)))
  /\ isNaN (getTime (TimedVariableValue_from (Finite 5 0)
                       (mkVariableValue "visited a" (BooleanValue true)))) = false.
Proof.
  destruct (parseInit_time timedBracket) as [Htimed Hfact].
  assert (E : parseInit timedBracket
              = Some (TimedVariableValue_from (Finite 5 0)
                        (mkVariableValue "visited a" (BooleanValue true)))).
  { destruct (meaningfulChildren timedBracket) as [|t0 [|t1 rest]] eqn:Ekids;
      try (vm_compute in Ekids; discriminate).
    assert (E0 : parseFloat (nodeText t0) = Finite 5 0)
      by (vm_compute in Ekids; inversion Ekids; subst; vm_compute; reflexivity).
    rewrite <- E0.
    apply (Htimed t0 t1 rest).
    - vm_compute. reflexivity.
    - reflexivity.
    - rewrite E0. reflexivity.
    - vm_compute in Ekids. inversion Ekids; subst. vm_compute. reflexivity. }
  split; [vm_compute; reflexivity|]. split; [exact E|].
  exact (proj1 (Hfact _ E)).
Defined.

(* ================================================================== *)
(** * Further properties: the header of a problem *)
(* ================================================================== *)

Section RegexFacts.
Context {R : Type}.
Variable ci : bool.

Lemma run_Cls (p : ascii -> bool) pos s caps
    (k : nat -> list ascii -> list string -> option R) x :
  Regex.run ci (Regex.Cls p) pos s caps k = Some x ->
  exists c s', s = c :: s' /\ p c = true /\ k (S pos) s' caps = Some x.
Proof.
  simpl. destruct s as [|c s']; [discriminate|].
  destruct (p c) eqn:E; [|discriminate]. eauto.
Qed.

(** What [p*] consumes. *)
Lemma run_Star_Cls (p : ascii -> bool) pos s caps
    (k : nat -> list ascii -> list string -> option R) x :
  Regex.run ci (Regex.Star (Regex.Cls p)) pos s caps k = Some x ->
  exists n, forallb p (firstn n s) = true
            /\ k (pos + n)%nat (skipn n s) caps = Some x.
Proof.
  simpl. generalize (List.length s) as fuel. intros fuel. revert pos s.
  induction fuel as [|fuel IH]; intros pos s.
  - intros E. exists 0%nat. rewrite Nat.add_0_r. auto.
  - destruct s as [|c s'].
    + intros E. exists 0%nat. rewrite Nat.add_0_r. auto.
    + destruct (p c) eqn:Ec.
      * destruct (pos <? S pos)%nat eqn:Hlt;
          [|apply Nat.ltb_ge in Hlt; lia].
        match goal with
        | |- match ?m with Some _ => _ | None => _ end = _ -> _ =>
            destruct m as [y|] eqn:Em
        end.
        -- intros E. inversion E; subst y.
           destruct (IH _ _ Em) as [n [Hn Hk]].
           exists (S n). simpl. rewrite Ec, Hn.
           rewrite <- Nat.add_succ_comm. auto.
        -- intros E. exists 0%nat. rewrite Nat.add_0_r. auto.
      * intros E. exists 0%nat. rewrite Nat.add_0_r. auto.
Qed.

End RegexFacts.

Lemma isName_consumed (c : ascii) (l : list ascii) :
  Regex.notSpace c = true -> forallb Regex.notSpace l = true ->
  isName (string_of_list_ascii (c :: l)) = true.
Proof.
  intros Hc Hl. unfold isName. rewrite list_ascii_of_string_of_list_ascii.
  simpl. rewrite Hc, Hl. reflexivity.
Qed.

(** A match of a pattern whose groups are all [(\S+)] adds one name to the
    captures for each of its groups. *)
Lemma run_nameGroups {R : Type} (ci : bool) (r : Regex.re) (n : nat) :
  nameGroups r n ->
  forall pos s caps (k : nat -> list ascii -> list string -> option R) x,
    Regex.run ci r pos s caps k = Some x ->
    exists pos' s' caps',
      List.length caps' = n
      /\ Forall (fun name => isName name = true) caps'
      /\ k pos' s' (caps ++ caps')%list = Some x.
Proof.
  assert (Hhere : forall pos s caps (k : nat -> list ascii -> list string -> option R) x,
             k pos s caps = Some x ->
             exists pos' s' caps',
               List.length caps' = 0%nat
               /\ Forall (fun name => isName name = true) caps'
               /\ k pos' s' (caps ++ caps')%list = Some x).
  { intros pos s caps k x E. exists pos, s, []. rewrite app_nil_r. auto. }
  induction 1 as [|c|p|a b n m j Ha IHa Hb IHb Ej|a Ha IHa| | |];
    intros pos s caps k x.
  - apply Hhere.
  - simpl. destruct s as [|c0 s']; [discriminate|].
    destruct (Regex.chrEq ci c0 c); [apply Hhere|discriminate].
  - simpl. destruct s as [|c0 s']; [discriminate|].
    destruct (p c0); [apply Hhere|discriminate].
  - simpl. intros E.
    destruct (IHa _ _ _ _ _ E) as [pos1 [s1 [caps1 [L1 [H1 E1]]]]].
    destruct (IHb _ _ _ _ _ E1) as [pos2 [s2 [caps2 [L2 [H2 E2]]]]].
    exists pos2, s2, (caps1 ++ caps2)%list. split; [|split].
    + rewrite length_app. congruence.
    + apply Forall_app. auto.
    + rewrite app_assoc. exact E2.
  - simpl. generalize (List.length s) as fuel. intros fuel. revert pos s caps.
    induction fuel as [|fuel IH]; intros pos s caps; [apply Hhere|].
    match goal with
    | |- match ?m with Some _ => _ | None => _ end = _ -> _ =>
        destruct m as [y|] eqn:Em
    end; [|apply Hhere].
    intros E. inversion E; subst y.
    destruct (IHa _ _ _ _ _ Em) as [pos1 [s1 [caps1 [L1 [H1 E1]]]]].
    destruct (pos <? pos1)%nat; [|discriminate].
    destruct (IH _ _ _ E1) as [pos2 [s2 [caps2 [L2 [H2 E2]]]]].
    exists pos2, s2, (caps1 ++ caps2)%list. split; [|split].
    + rewrite length_app, L1, L2. reflexivity.
    + apply Forall_app. auto.
    + rewrite app_assoc. exact E2.
  - unfold nonSpaces1, Regex.Plus.
    change (Regex.run ci (Regex.Group (Regex.Seq (Regex.Cls Regex.notSpace)
                                         (Regex.Star (Regex.Cls Regex.notSpace))))
                      pos s caps k)
      with (Regex.run ci (Regex.Cls Regex.notSpace) pos s caps
              (fun pos1 s1 caps1 =>
                 Regex.run ci (Regex.Star (Regex.Cls Regex.notSpace)) pos1 s1 caps1
                   (fun pos2 s2 caps2 =>
                      k pos2 s2
                        (caps2 ++ [string_of_list_ascii (firstn (pos2 - pos) s)])%list))).
    intros E. apply run_Cls in E. destruct E as [c [s' [-> [Hc E]]]].
    apply run_Star_Cls in E. destruct E as [n [Hn E]].
    replace (S pos + n - pos)%nat with (S n) in E by lia. simpl firstn in E.
    exists (S pos + n)%nat, (skipn n s'),
           [string_of_list_ascii (c :: firstn n s')].
    split; [reflexivity|]. split; [|exact E]. constructor; [|constructor].
    apply isName_consumed; assumption.
  - simpl. destruct (pos =? 0)%nat; [apply Hhere|discriminate].
  - simpl. destruct s; [apply Hhere|discriminate].
Qed.

Lemma nameGroups_lit (s : string) : nameGroups (Regex.lit s) 0.
Proof.
  induction s; simpl; [constructor|].
  eapply nameGroups_Seq; [constructor|eassumption|reflexivity].
Qed.

Lemma nameGroups_problemPattern : nameGroups problemPattern 2.
Proof.
  unfold problemPattern, spaces, spaces1, Regex.Plus.
  repeat (first [apply nameGroups_Group | apply nameGroups_lit | econstructor]).
Qed.

(** A match of the header gives the problem name and the domain name. *)
Lemma problemPattern_captures (pddlText : string) pos caps :
  Regex.matchAtStart true problemPattern pddlText = Some (pos, caps) ->
  exists problemName domainName,
    caps = [problemName; domainName]
    /\ isName problemName = true /\ isName domainName = true.
Proof.
  unfold Regex.matchAtStart. intros Ematch.
  destruct (run_nameGroups true problemPattern 2 nameGroups_problemPattern
              _ _ _ _ _ Ematch) as [pos' [s' [caps' [Hlen [Hcaps E]]]]].
  simpl in E. inversion E; subst.
  destruct caps as [|n [|d [|e caps]]]; try discriminate.
  inversion Hcaps as [|? ? Hn Hrest]; subst.
  inversion Hrest as [|? ? Hd _]; subst.
  exists n, d. auto.
Qed.

Section ParseFacts.
Context `{ParserImports}.

(** What [getProblemStructure] keeps, when the requirements parser sets
    nothing but the requirements. *)
Lemma getProblemStructure_keeps (q r : ProblemInfo) :
  (forall node q0 r0,
      parseRequirements node q0 = Returns r0 ->
      exists requirements, r0 = setRequirements requirements q0) ->
  getProblemStructure q = Returns r ->
  problemInfoName r = problemInfoName q
  /\ problemInfoDomainName r = problemInfoDomainName q
  /\ problemInfoText r = problemInfoText q
  /\ problemInfoTree r = problemInfoTree q
  /\ getPreParsingPreProcessor r = getPreParsingPreProcessor q
  /\ getParsingProblems r = getParsingProblems q
  /\ getDefineNode (problemInfoTree q) <> None.
Proof.
  intros Hframe. unfold getProblemStructure.
  destruct (getDefineNode (problemInfoTree q)) as [defineNode|]; [|discriminate].
  destruct (parseRequirements defineNode q) as [p0|] eqn:Ereq; [|discriminate].
  destruct (Hframe _ _ _ Ereq) as [requirements ->].
  destruct (getFirstOpenBracket defineNode ":objects");
    destruct (getFirstOpenBracket defineNode ":init") as [initNode|];
    try destruct (parseInitSection initNode);
    destruct (getFirstOpenBracket defineNode ":constraints") as [constraintsNode|];
    try destruct (parseConstraints constraintsNode);
    intros E; inversion E; subst r; simpl; repeat split; discriminate.
Qed.

(** [getProblemStructure] throws for a tree with no [define] node, or when
    one of the two outside parsers throws. *)
Lemma getProblemStructure_throws (q : ProblemInfo) :
  getProblemStructure q = Throws ->
  getDefineNode (problemInfoTree q) = None
  \/ (exists node q0, parseRequirements node q0 = Throws)
  \/ (exists node, parseConstraints node = Throws).
Proof.
  unfold getProblemStructure.
  destruct (getDefineNode (problemInfoTree q)) as [defineNode|]; [|auto].
  destruct (parseRequirements defineNode q) as [p0|] eqn:Ereq;
    [|right; left; eauto].
  destruct (getFirstOpenBracket defineNode ":constraints") as [constraintsNode|];
    [|discriminate].
  destruct (parseConstraints constraintsNode) eqn:Ec; [discriminate|].
  right. right. eauto.
Qed.

(** X19: what [parse] returns. The requirements parser is taken to set
    nothing but the requirements. [parse] throws when [Util.fsPath] does.
    Every problem [parse] returns has a name and a domain name that are not
    empty and have no white space.
    When the pre-processor throws, [parse] does not look for a header: it
    returns the problem "unknown" of the domain "unknown", with the empty
    tree, the text as it was given, the pre-processor if it had been made,
    and exactly one parsing problem, which carries the message of what was
    thrown; it throws there only when what was thrown is not a
    PreProcessingError and the position resolver throws.
    When the pre-processing gives a text (the text itself for a parser
    without a pre-processor), [parse] returns undefined exactly when the
    header pattern does not match this text without its comments; a problem
    it returns has the two captures of the header as its names, the
    pre-processed text, the tree it was given, which has a [define] node,
    and the pre-processor; it throws when the header matches and the tree
    has no [define] node, and it throws only then or when one of the two
    outside parsers throws. *)
Theorem parse_names (problemPreParser : option ProblemParserPreProcessor)
    (fileUri fileText : string) (syntaxTree : PddlSyntaxTree)
    (positionResolver : DocumentPositionResolver) :
  (forall node q r,
      parseRequirements node q = Returns r ->
      exists requirements, r = setRequirements requirements q) ->
  let result :=
    parse problemPreParser fileUri fileText syntaxTree positionResolver in
  (fsPath fileUri = Throws -> result = Throws)
  /\ (forall p,
        result = Returns (Some p) ->
        isName (problemInfoName p) = true
        /\ isName (problemInfoDomainName p) = true)
  /\ (forall filePath preProcessor ex,
        fsPath fileUri = Returns filePath ->
        preProcess problemPreParser fileText (dirname filePath)
        = inr (preProcessor, ex) ->
        (result = Throws
         /\ (exists message, ex = OtherError message)
         /\ positionResolver (metaDataLineOffsetOrZero preProcessor) = Throws)
        \/ exists p problem,
             result = Returns (Some p)
             /\ problemInfoName p = "unknown"
             /\ problemInfoDomainName p = "unknown"
             /\ problemInfoTree p = EMPTY
             /\ problemInfoText p = fileText
             /\ getPreParsingPreProcessor p = preProcessor
             /\ getParsingProblems p = [problem]
             /\ problemMessage problem = thrownMessage ex
             /\ getObjects p = [] /\ getInits p = [] /\ getSupplyDemands p = [])
  /\ (forall filePath preProcessor processed,
        fsPath fileUri = Returns filePath ->
        preProcess problemPreParser fileText (dirname filePath)
        = inl (preProcessor, processed) ->
        (result = Returns None
         <-> Regex.matchAtStart true problemPattern (stripComments processed)
             = None)
        /\ (forall p,
              result = Returns (Some p) ->
              (exists pos,
                  Regex.matchAtStart true problemPattern (stripComments processed)
                  = Some (pos, [problemInfoName p; problemInfoDomainName p]))
              /\ problemInfoText p = processed
              /\ problemInfoTree p = syntaxTree
              /\ getDefineNode syntaxTree <> None
              /\ getPreParsingPreProcessor p = preProcessor
              /\ getParsingProblems p = [])
        /\ (Regex.matchAtStart true problemPattern (stripComments processed)
            <> None ->
            getDefineNode syntaxTree = None -> result = Throws)
        /\ (result = Throws ->
            getDefineNode syntaxTree = None
            \/ (exists node q, parseRequirements node q = Throws)
            \/ (exists node, parseConstraints node = Throws)))
  /\ (problemPreParser = None ->
      forall workingDirectory,
        preProcess problemPreParser fileText workingDirectory
        = inl (None, fileText)).
Proof.
  intros Hframe result.
  assert (Hfailed : forall filePath preProcessor ex,
             fsPath fileUri = Returns filePath ->
             preProcess problemPreParser fileText (dirname filePath)
             = inr (preProcessor, ex) ->
             result
             = match preProcessingFailed fileText positionResolver
                       preProcessor ex with
               | Returns problemInfo => Returns (Some problemInfo)
               | Throws => Throws
               end).
  { intros filePath pp ex Epath E. unfold result, parse. rewrite Epath.
    cbv zeta. rewrite E. reflexivity. }
  assert (Hgiven : forall filePath preProcessor processed,
             fsPath fileUri = Returns filePath ->
             preProcess problemPreParser fileText (dirname filePath)
             = inl (preProcessor, processed) ->
             (Regex.matchAtStart true problemPattern (stripComments processed) = None
              /\ result = Returns None)
             \/ exists pos problemName domainName,
                  Regex.matchAtStart true problemPattern (stripComments processed)
                  = Some (pos, [problemName; domainName])
                  /\ isName problemName = true /\ isName domainName = true
                  /\ result
                     = match getProblemStructure
                               (setText processed
                                  (newProblemInfo problemName domainName syntaxTree))
                       with
                       | Returns p =>
                           Returns (Some match preProcessor with
                                         | Some pp => setPreParsingPreProcessor pp p
                                         | None => p
                                         end)
                       | Throws => Throws
                       end).
  { intros filePath pp processed Epath E. unfold result, parse. rewrite Epath.
    cbv zeta. rewrite E.
    destruct (Regex.matchAtStart true problemPattern (stripComments processed))
      as [[pos caps]|] eqn:Ematch; [right|left; auto].
    destruct (problemPattern_captures _ _ _ Ematch) as [n [d [-> [Hn Hd]]]].
    exists pos, n, d. auto. }
  assert (Hunknown : forall preProcessor ex p,
             preProcessingFailed fileText positionResolver preProcessor ex
             = Returns p ->
             exists problem,
               problemInfoName p = "unknown"
               /\ problemInfoDomainName p = "unknown"
               /\ problemInfoTree p = EMPTY
               /\ problemInfoText p = fileText
               /\ getPreParsingPreProcessor p = preProcessor
               /\ getParsingProblems p = [problem]
               /\ problemMessage problem = thrownMessage ex
               /\ getObjects p = [] /\ getInits p = []
               /\ getSupplyDemands p = []).
  { intros pp ex p. unfold preProcessingFailed.
    destruct ex as [message line column|message].
    - intros E. inversion E; subst p. eexists.
      destruct pp; simpl; repeat split.
    - destruct (positionResolver (metaDataLineOffsetOrZero pp)) as [position|];
        [|discriminate].
      intros E. inversion E; subst p. eexists.
      destruct pp; simpl; repeat split. }
  split; [|split; [|split; [|split]]].
  - intros Epath. unfold result, parse. rewrite Epath. reflexivity.
  - intros p Ep.
    destruct (fsPath fileUri) as [filePath|] eqn:Epath;
      [|unfold result, parse in Ep; rewrite Epath in Ep; discriminate].
    destruct (preProcess problemPreParser fileText (dirname filePath))
      as [[pp processed]|[pp ex]] eqn:Epre.
    + destruct (Hgiven filePath pp processed eq_refl Epre)
        as [[_ Enone]|[pos [n [d [_ [Hn [Hd Eres]]]]]]]; [congruence|].
      rewrite Eres in Ep.
      destruct (getProblemStructure _) as [r|] eqn:Estructure; [|discriminate].
      destruct (getProblemStructure_keeps _ _ Hframe Estructure)
        as [En [Ed _]].
      inversion Ep; subst p. destruct pp; simpl; rewrite En, Ed; auto.
    + rewrite (Hfailed filePath pp ex eq_refl Epre) in Ep.
      destruct (preProcessingFailed fileText positionResolver pp ex)
        as [q|] eqn:Eq; [|discriminate].
      inversion Ep; subst q.
      destruct (Hunknown pp ex p Eq) as [problem [-> [-> _]]].
      split; reflexivity.
  - intros filePath pp ex Epath E. rewrite (Hfailed filePath pp ex Epath E).
    destruct (preProcessingFailed fileText positionResolver pp ex)
      as [q|] eqn:Eq.
    + right. destruct (Hunknown pp ex q Eq) as [problem Hq].
      exists q, problem. split; [reflexivity|exact Hq].
    + left. split; [reflexivity|].
      unfold preProcessingFailed in Eq.
      destruct ex as [message line column|message]; [discriminate|].
      split; [eauto|].
      destruct (positionResolver (metaDataLineOffsetOrZero pp));
        [discriminate|reflexivity].
  - intros filePath pp processed Epath E.
    destruct (Hgiven filePath pp processed Epath E)
      as [[Enone Eres]|[pos [n [d [Ematch [Hn [Hd Eres]]]]]]].
    + rewrite Eres. split; [tauto|]. split; [discriminate|].
      split; [congruence|discriminate].
    + rewrite Eres, Ematch.
      destruct (getProblemStructure _) as [r|] eqn:Estructure.
      * destruct (getProblemStructure_keeps _ _ Hframe Estructure)
          as [En [Ed [Et [Etree [Epp [Eproblems Hdefine]]]]]].
        simpl in En, Ed, Et, Etree, Epp, Eproblems, Hdefine.
        split; [split; discriminate|]. split; [|split; [|discriminate]].
        -- intros p Ep. inversion Ep; subst p.
           destruct pp; simpl; rewrite En, Ed, Et, Etree, Eproblems;
             repeat split; eauto.
        -- intros _ Hnone. contradiction.
      * split; [split; discriminate|]. split; [discriminate|].
        split; [reflexivity|].
        intros _. apply getProblemStructure_throws in Estructure. exact Estructure.
  - intros -> workingDirectory. reflexivity.
Qed.

End ParseFacts.

(** The requirements parser of the example sets nothing but the
    requirements. *)
Lemma exampleParseRequirements_sets_requirements node q r :
  exampleParseRequirements node q = Returns r ->
  exists requirements, r = setRequirements requirements q.
Proof.
  unfold exampleParseRequirements.
  destruct (getFirstOpenBracket node ":requirements"); intros E; inversion E;
    subst r.
  - eexists. reflexivity.
  - exists (getRequirements q). destruct q. reflexivity.
Qed.

(** X19, witness: a template is parsed with a pre-parser that throws; the
    result is the unknown problem with the error of the template. The text of
    the first problem, parsed without pre-parser, gives a problem with
    names. With a pre-parser that renders the second problem, the problem
    returned for the first text and its tree carries the rendered text; for
    the template, whose tree has no [define] node, [parse] throws. *)
Lemma parse_names_witness :
  (exists p problem,
      @parse exampleParserImports (Some failingPreParser) problemUri templateText
             (getTree templateText) oneLineResolver
      = Returns (Some p)
      /\ problemInfoName p = "unknown"
      /\ problemInfoDomainName p = "unknown"
      /\ problemInfoTree p = EMPTY
      /\ problemInfoText p = templateText
      /\ getParsingProblems p = [problem]
      /\ problemMessage problem = "template error")
  /\ (exists p,
        @parse exampleParserImports None problemUri problemText
               (getTree problemText) oneLineResolver
        = Returns (Some p)
        /\ isName (problemInfoName p) = true
        /\ isName (problemInfoDomainName p) = true)
  /\ (exists p,
        @parse exampleParserImports (Some renderingPreParser) problemUri
               problemText (getTree problemText) oneLineResolver
        = Returns (Some p)
        /\ problemInfoText p = problem2Text
        /\ problemInfoTree p = getTree problemText
        /\ getPreParsingPreProcessor p = Some templatePreProcessor)
  /\ @parse exampleParserImports (Some renderingPreParser) problemUri
            templateText (getTree templateText) oneLineResolver
     = Throws.
Proof.
  split; [|split; [|split]].
  - destruct (proj1 (proj2 (proj2 (@parse_names exampleParserImports
                                     (Some failingPreParser) problemUri
                                     templateText (getTree templateText)
                                     oneLineResolver
                                     exampleParseRequirements_sets_requirements)))
                (exampleFsPath problemUri) (Some templatePreProcessor)
                (PreProcessingError "template error" 3 7) eq_refl eq_refl)
      as [[_ [[message Emessage] _]]
         |[p [problem [Ep [En [Ed [Etree [Et [_ [Eproblems [Emessage _]]]]]]]]]]].
    + discriminate.
    + exists p, problem. repeat split; assumption.
  - destruct (@parse exampleParserImports None problemUri problemText
                (getTree problemText) oneLineResolver) as [[p|]|] eqn:E;
      try (vm_compute in E; discriminate).
    exists p. split; [reflexivity|].
    exact (proj1 (proj2 (@parse_names exampleParserImports None problemUri
                           problemText (getTree problemText) oneLineResolver
                           exampleParseRequirements_sets_requirements)) p E).
  - destruct (@parse exampleParserImports (Some renderingPreParser) problemUri
                problemText (getTree problemText) oneLineResolver)
      as [[p|]|] eqn:E; try (vm_compute in E; discriminate).
    exists p. split; [reflexivity|].
    destruct (proj1 (proj2 (proj1 (proj2 (proj2 (proj2
                (@parse_names exampleParserImports (Some renderingPreParser)
                   problemUri problemText (getTree problemText) oneLineResolver
                   exampleParseRequirements_sets_requirements))))
                (exampleFsPath problemUri) (Some templatePreProcessor)
                problem2Text eq_refl eq_refl)) p E)
      as [_ [Et [Etree [_ [Epp _]]]]].
    repeat split; assumption.
  - apply (proj1 (proj2 (proj2 (proj1 (proj2 (proj2 (proj2
             (@parse_names exampleParserImports (Some renderingPreParser)
                problemUri templateText (getTree templateText) oneLineResolver
                exampleParseRequirements_sets_requirements))))
             (exampleFsPath problemUri) (Some templatePreProcessor)
             problem2Text eq_refl eq_refl))));
      [vm_compute; discriminate|vm_compute; reflexivity].
Defined.

(* ================================================================== *)
(** * Further properties: what invalidation leaves alone *)
(* ================================================================== *)

Lemma statusesOnly_refl ws : statusesOnly ws ws.
Proof.
  split; [reflexivity|]. split; [|auto].
  exists []. rewrite app_nil_r. auto.
Qed.

Lemma statusesOnly_trans ws ws1 ws2 :
  statusesOnly ws ws1 -> statusesOnly ws1 ws2 -> statusesOnly ws ws2.
Proof.
  intros [F1 [[l1 [E1 U1]] [Hp1 [Hq1 Ht1]]]] [F2 [[l2 [E2 U2]] [Hp2 [Hq2 Ht2]]]].
  split; [intros path key; rewrite F2; apply F1|].
  split; [|repeat split; congruence].
  exists (l1 ++ l2)%list. split; [rewrite E2, E1, app_assoc; reflexivity|].
  apply Forall_app. auto.
Qed.

Lemma statusesOnly_fold_left {A : Type} (g : PddlWorkspace -> A -> PddlWorkspace) l :
  (forall w x, statusesOnly w (g w x)) -> forall ws, statusesOnly ws (fold_left g l ws).
Proof.
  intros Hg. induction l as [|x l IH]; intros ws; simpl; [apply statusesOnly_refl|].
  eapply statusesOnly_trans; [apply Hg|apply IH].
Qed.

Section StatusesOnly.
Context `{Imports}.

Lemma statusesOnly_invalidateDiagnostics f ws :
  statusesOnly ws (invalidateDiagnostics f ws).
Proof.
  split; [|split].
  - intros path key. rewrite fileAt_invalidateDiagnostics.
    destruct (_ && _); [|reflexivity].
    destruct (fileAt ws path key); reflexivity.
  - unfold invalidateDiagnostics.
    destruct (emitted_emitIfNew UPDATED (setStatus Parsed f)
                (onFile f (setStatus Parsed) ws)) as [E|E]; rewrite E; simpl.
    + exists []. rewrite app_nil_r. auto.
    + eexists. split; [reflexivity|].
      constructor; [split; reflexivity|constructor].
  - unfold invalidateDiagnostics, emitIfNew. simpl.
    destruct (JsMap.get _ _) as [last|]; [destruct (_ <=? _)%Z|]; auto.
Qed.

Lemma statusesOnly_markPlansAsDirty p ws : statusesOnly ws (markPlansAsDirty p ws).
Proof.
  unfold markPlansAsDirty.
  set (ws1 := fold_left _ (getPlanFiles ws p) ws).
  apply statusesOnly_trans with ws1; [subst ws1|];
    apply statusesOnly_fold_left; intros; apply statusesOnly_invalidateDiagnostics.
Qed.

Lemma statusesOnly_markProblemsAsDirty d ws :
  statusesOnly ws (markProblemsAsDirty d ws).
Proof.
  unfold markProblemsAsDirty. apply statusesOnly_fold_left. intros w x.
  eapply statusesOnly_trans;
    [apply statusesOnly_invalidateDiagnostics|apply statusesOnly_markPlansAsDirty].
Qed.

(** X20: [invalidateDiagnostics] of a stored file, [markPlansAsDirty] and
    [markProblemsAsDirty] change nothing but statuses, and only towards
    Parsed. No file is added or dropped; every stored file is afterwards
    what it was, or what it was with the status Parsed; so a file that is
    Dirty afterwards was stored like that before: none of the three methods
    sets a file to Dirty. [invalidateDiagnostics] of a stored file leaves
    this file with the status Parsed and every other URI as it was. The only
    events emitted are UPDATED events of files in status Parsed, and the
    associations and the re-parse timer are as before. *)
Theorem invalidation_changes_statuses_only (ws ws' : PddlWorkspace) (f : FileInfo) :
  (ws' = invalidateDiagnostics f ws /\ getFileInfo ws (fileUri f) = Some f)
  \/ ws' = markPlansAsDirty f ws
  \/ ws' = markProblemsAsDirty f ws ->
  (forall uri, getFileInfo ws' uri = None <-> getFileInfo ws uri = None)
  /\ (forall uri g,
        getFileInfo ws uri = Some g ->
        getFileInfo ws' uri = Some g
        \/ getFileInfo ws' uri = Some (setStatus Parsed g))
  /\ (forall uri g,
        getFileInfo ws' uri = Some g -> getStatus g = Dirty ->
        getFileInfo ws uri = Some g)
  /\ (ws' = invalidateDiagnostics f ws ->
      getFileInfo ws (fileUri f) = Some f ->
      getFileInfo ws' (fileUri f) = Some (setStatus Parsed f)
      /\ forall uri, uri <> fileUri f -> getFileInfo ws' uri = getFileInfo ws uri)
  /\ (exists l, emitted ws' = (emitted ws ++ l)%list
                /\ Forall (fun e => fst e = UPDATED /\ getStatus (snd e) = Parsed) l)
  /\ problemToDomainMap ws' = problemToDomainMap ws
  /\ planToProblemMap ws' = planToProblemMap ws
  /\ parsingTimeout ws' = parsingTimeout ws.
Proof.
  intros Hws'.
  assert (Hs : statusesOnly ws ws' /\ settles ws ws').
  { destruct Hws' as [[-> _] | [-> | ->]].
    - split; [apply statusesOnly_invalidateDiagnostics
             |apply settles_invalidateDiagnostics].
    - split; [apply statusesOnly_markPlansAsDirty|apply settles_markPlansAsDirty].
    - split; [apply statusesOnly_markProblemsAsDirty
             |apply settles_markProblemsAsDirty]. }
  destruct Hs as [[Hfiles Hrest] Hsettles].
  assert (Hnone : forall uri, getFileInfo ws' uri = None <-> getFileInfo ws uri = None).
  { intros uri. rewrite !getFileInfo_fileAt.
    specialize (Hfiles (getFolderPath uri) uri).
    destruct (fileAt ws' (getFolderPath uri) uri),
             (fileAt ws (getFolderPath uri) uri);
      simpl in Hfiles; split; intros E; congruence. }
  assert (Hheld : forall uri g,
             getFileInfo ws uri = Some g ->
             getFileInfo ws' uri = Some g
             \/ getFileInfo ws' uri = Some (setStatus Parsed g)).
  { intros uri g. rewrite !getFileInfo_fileAt. apply Hsettles. }
  split; [exact Hnone|]. split; [exact Hheld|]. split; [|split; [|exact Hrest]].
  - intros uri g Eg Hdirty.
    destruct (getFileInfo ws uri) as [g0|] eqn:E0.
    + destruct (Hheld uri g0 E0) as [E|E]; rewrite E in Eg;
        inversion Eg; subst g; [reflexivity|].
      simpl in Hdirty. discriminate.
    + apply Hnone in E0. congruence.
  - intros -> Estored. rewrite !getFileInfo_fileAt in *. split.
    + rewrite fileAt_invalidateDiagnostics, !String.eqb_refl, Estored. reflexivity.
    + intros uri Huri. rewrite !getFileInfo_fileAt, fileAt_invalidateDiagnostics.
      destruct (String.eqb_spec (fileUri f) uri) as [E|_]; [congruence|].
      rewrite andb_false_r. reflexivity.
Qed.

End StatusesOnly.

(** X20, witness: the domain of the example was edited and is Dirty; its
    diagnostics are invalidated. It is Parsed afterwards, with the text of
    the edit: it was not parsed again. *)
Lemma invalidation_changes_statuses_only_witness :
  @getFileInfo exampleImports editedWorkspace (fileUri editedDomain)
  = Some editedDomain
  /\ getStatus editedDomain = Dirty
  /\ @getFileInfo exampleImports
       (@invalidateDiagnostics exampleImports editedDomain editedWorkspace)
       (fileUri editedDomain)
     = Some (setStatus Parsed editedDomain)
  /\ getText (setStatus Parsed editedDomain) = domainText2.
Proof.
  assert (Hstored : @getFileInfo exampleImports editedWorkspace (fileUri editedDomain)
                    = Some editedDomain) by (vm_compute; reflexivity).
  split; [exact Hstored|]. split; [vm_compute; reflexivity|].
  split; [|vm_compute; reflexivity].
  apply (@invalidation_changes_statuses_only exampleImports editedWorkspace
           (@invalidateDiagnostics exampleImports editedDomain editedWorkspace)
           editedDomain (or_introl (conj eq_refl Hstored)));
    [reflexivity|exact Hstored].
Defined.
